(** * useOptimizedData: the client-side data-access / caching hook

    A shallow embedding of [src/hooks/useOptimizedData.ts]: the cache and
    listener keys, the fetch orchestrator, the process-wide listener
    registry, the optimistic-update helper and the cache sweeper, followed
    by the properties the specification states about them. *)

From Stdlib Require Import ZArith String Ascii List Lia.
From Stdlib Require Import Decimal DecimalString DecimalPos DecimalZ.
From Stdlib Require Import Sorted.
From stdpp Require Import base gmap strings list.

Local Open Scope string_scope.
Local Open Scope Z_scope.

(** ** JavaScript values that occur as filter values and record fields

    [filters] is a [Record<string, any>]; the call sites pass string
    identifiers.  The model keeps the primitive JSON-representable values
    plus [undefined].  Numbers are the integer-valued ones; those that
    JavaScript holds exactly are the safe integers, [safeInteger] below. *)

Inductive JsValue : Type :=
  | JUndefined
  | JNull
  | JBool (b : bool)
  | JNumber (n : Z)
  | JString (s : string).

#[global] Instance JsValue_eq_dec : EqDecision JsValue.
Proof. solve_decision. Defined.

(** [Number.isSafeInteger]: the integers between [-(2^53 - 1)] and
    [2^53 - 1].  Each of them is a Number, and [Number::toString] prints it
    as its plain decimal numeral.  Beyond that range an integer may be no
    Number at all, and the ones that are may print with their last digits
    rounded or, from [10^21] on, with an exponent. *)
Definition safeInteger (n : Z) : Prop := - (2 ^ 53 - 1) <= n <= 2 ^ 53 - 1.

Definition safeValue (v : JsValue) : Prop :=
  match v with JNumber n => safeInteger n | _ => True end.

(** A plain object as its own enumerable string-keyed properties, in the
    order in which [Object.entries] and [JSON.stringify] enumerate them.
    For keys that are not array indices (field names such as [companyId])
    this is the order in which the properties were created. *)
Definition JsObject : Type := list (string * JsValue).

(** Every number among the values of [o] is a safe integer. *)
Definition safeObject (o : JsObject) : Prop :=
  Forall (fun kv => safeValue (snd kv)) o.

Definition isDefined (v : JsValue) : bool :=
  match v with JUndefined => false | _ => true end.

(** [value !== undefined && value !== null] *)
Definition isFilterValue (v : JsValue) : bool :=
  match v with JUndefined | JNull => false | _ => true end.

(** The properties a reader of the object can tell from an absent key. *)
Definition definedEntries (o : JsObject) : JsObject :=
  List.filter (fun kv => isDefined (snd kv)) o.

(** ** [JSON.stringify] on such objects (ECMA-262, 25.5.2)

    A string is the sequence of its code units, all below 256 here. *)

Module JSON.

Definition dquote : ascii := "034"%char.
Definition backslash : ascii := "092"%char.

Definition hexDigit (n : N) : ascii :=
  match n with
  | 0 => "0" | 1 => "1" | 2 => "2" | 3 => "3" | 4 => "4" | 5 => "5"
  | 6 => "6" | 7 => "7" | 8 => "8" | 9 => "9" | 10 => "a" | 11 => "b"
  | 12 => "c" | 13 => "d" | 14 => "e" | _ => "f"
  end%N%char.

(** One code unit of QuoteJSONString: the two-character escapes of the
    table, [\u00xx] for the other control characters, the unit itself
    otherwise. *)
Definition escapeChar (c : ascii) : string :=
  let n := N_of_ascii c in
  if (n =? 8)%N then String backslash "b"
  else if (n =? 9)%N then String backslash "t"
  else if (n =? 10)%N then String backslash "n"
  else if (n =? 12)%N then String backslash "f"
  else if (n =? 13)%N then String backslash "r"
  else if (n =? 34)%N then String backslash (String dquote "")
  else if (n =? 92)%N then String backslash (String backslash "")
  else if (n <? 32)%N then
    String backslash
      (String "u" (String "0" (String "0"
         (String (hexDigit (n / 16)) (String (hexDigit (n mod 16)) "")))))
  else String c "".

Fixpoint escapeBody (s : string) : string :=
  match s with
  | EmptyString => ""
  | String c r => escapeChar c +:+ escapeBody r
  end.

Definition quoteJSONString (s : string) : string :=
  String dquote (escapeBody s +:+ String dquote "").

(** [Number::toString] on a safe integer: the decimal numeral, with a
    leading [-] below zero.  Outside the safe range this numeral is not
    what JavaScript prints; the properties of the key texts are stated for
    [safeObject] filters. *)
Definition numberToString (n : Z) : string :=
  match Z.to_int n with
  | Decimal.Pos d => NilEmpty.string_of_uint d
  | Decimal.Neg d => String "-" (NilEmpty.string_of_uint d)
  end.

(** SerializeJSONProperty: [None] is the spec's [undefined] result, for
    which the property is left out of the enclosing object. *)
Definition serializeJSONProperty (v : JsValue) : option string :=
  match v with
  | JUndefined => None
  | JNull => Some "null"
  | JBool true => Some "true"
  | JBool false => Some "false"
  | JNumber n => Some (numberToString n)
  | JString s => Some (quoteJSONString s)
  end.

(** SerializeJSONObject, step 8: the list [partial] of members. *)
Fixpoint partial (o : JsObject) : list string :=
  match o with
  | [] => []
  | (k, v) :: r =>
      match serializeJSONProperty v with
      | Some strP => (quoteJSONString k +:+ ":" +:+ strP) :: partial r
      | None => partial r
      end
  end.

(** SerializeJSONObject, steps 9-10, with the empty gap. *)
Definition stringify (o : JsObject) : string :=
  match partial o with
  | [] => "{}"
  | p => "{" +:+ String.concat "," p +:+ "}"
  end.

End JSON.

(** ** The hook's keys *)

Definition boolToString (b : bool) : string := if b then "true" else "false".

(** [`${collectionName}:${JSON.stringify(filters)}`] *)
Definition cacheKey (collectionName : string) (filters : JsObject) : string :=
  collectionName +:+ ":" +:+ JSON.stringify filters.

(** [`${collectionName}:${JSON.stringify(filters)}:${backgroundUpdate}`] *)
Definition listenerKey (collectionName : string) (filters : JsObject)
    (backgroundUpdate : bool) : string :=
  collectionName +:+ ":" +:+ JSON.stringify filters +:+ ":"
    +:+ boolToString backgroundUpdate.

(** ** Objects and records *)

Definition getProp (o : JsObject) (k : string) : JsValue :=
  match List.find (fun kv => bool_decide (fst kv = k)) o with
  | Some kv => snd kv
  | None => JUndefined
  end.

(** Defining property [k]: an existing key keeps its place and takes the
    new value, a new key goes last. *)
Fixpoint setProp (o : JsObject) (k : string) (v : JsValue) : JsObject :=
  match o with
  | [] => [(k, v)]
  | (k', v') :: r =>
      if decide (k' = k) then (k, v) :: r else (k', v') :: setProp r k v
  end.

(** [{ ...o, ...updates }] *)
Definition spread (o updates : JsObject) : JsObject :=
  fold_left (fun acc kv => setProp acc (fst kv) (snd kv)) updates o.

(** A document of a query snapshot: [doc.id] and [doc.data()]. *)
Record Doc : Type := { doc_id : string; doc_data : JsObject }.

(** [{ id: doc.id, ...doc.data() }] *)
Definition docToRecord (d : Doc) : JsObject :=
  spread [("id", JString (doc_id d))] (doc_data d).

(** ** Firestore queries built by the hook *)

Record Query : Type := {
  q_collection : string;
  q_where : list (string * JsValue)   (* each one [where(key, '==', value)] *)
}.

#[global] Instance Query_eq_dec : EqDecision Query.
Proof. solve_decision. Defined.

(** [collection(db, name)] *)
Definition collection (name : string) : Query :=
  {| q_collection := name; q_where := [] |}.

(** [query(q, where(key, '==', value))] *)
Definition query_where (q : Query) (key : string) (value : JsValue) : Query :=
  {| q_collection := q_collection q; q_where := q_where q ++ [(key, value)] |}.

(** The [let q = collection(...); Object.entries(filters).forEach(...)]
    block, identical in [fetchData] and in the listener effect. *)
Definition buildQuery (collectionName : string) (filters : JsObject) : Query :=
  fold_left
    (fun q kv => if isFilterValue (snd kv) then query_where q (fst kv) (snd kv) else q)
    filters (collection collectionName).

(** What the store does with a query: a document is in the result iff every
    constraint holds of it. *)
Definition satisfies (fields : JsObject) (w : string * JsValue) : Prop :=
  getProp fields (fst w) = snd w.

Definition matches (q : Query) (fields : JsObject) : Prop :=
  Forall (satisfies fields) (q_where q).

(** ** Hook state and options *)

Module CacheItem.
Record t : Type := { data : list JsObject; timestamp : Z; version : Z }.
End CacheItem.

Record UseOptimizedDataOptions : Type := {
  opt_cacheTime : option Z;
  opt_staleTime : option Z;
  opt_backgroundUpdate : option bool;
  opt_optimisticUpdates : option bool
}.

Definition noOptions : UseOptimizedDataOptions :=
  {| opt_cacheTime := None; opt_staleTime := None;
     opt_backgroundUpdate := None; opt_optimisticUpdates := None |}.

(** The [useState] cells. *)
Record HookState : Type := {
  data : list JsObject;
  loading : bool;
  error : option string;
  cache : gmap string CacheItem.t;
  version : Z
}.

Definition initialState : HookState :=
  {| data := []; loading := true; error := None; cache := ∅; version := 0 |}.

(** What the callbacks of one render close over: the hook's arguments and
    the [cache] and [version] of that render. *)
Record Closure : Type := {
  collectionName : string;
  filters : JsObject;
  options : UseOptimizedDataOptions;
  captured_cache : gmap string CacheItem.t;
  captured_version : Z
}.

Definition cacheTime (r : Closure) : Z :=
  default (5 * 60 * 1000) (opt_cacheTime (options r)).
Definition staleTime (r : Closure) : Z :=
  default (30 * 1000) (opt_staleTime (options r)).
Definition backgroundUpdate (r : Closure) : bool :=
  default true (opt_backgroundUpdate (options r)).
Definition optimisticUpdates (r : Closure) : bool :=
  default true (opt_optimisticUpdates (options r)).

(** The closure of the render that shows state [st]. *)
Definition render (c : string) (f : JsObject) (o : UseOptimizedDataOptions)
    (st : HookState) : Closure :=
  {| collectionName := c; filters := f; options := o;
     captured_cache := cache st; captured_version := version st |}.

(** ** The world around one hook instance *)

(** A thrown value: an [Error] with its message, or anything else. *)
Inductive JsError : Type :=
  | ErrorObject (message : string)
  | OtherThrown.

(** [err instanceof Error ? err.message : 'Unknown error'] *)
Definition errorString (err : JsError) : string :=
  match err with
  | ErrorObject m => m
  | OtherThrown => "Unknown error"
  end.

Definition Callback : Type := nat.

Inductive Event : Type :=
  | EvGetDocs (q : Query)
  | EvUpdateDoc (coll id : string) (updates : JsObject)
  | EvCall (cb : Callback).

#[global] Instance Event_eq_dec : EqDecision Event.
Proof. solve_decision. Defined.

(** The remote store: what a call issued at a given time answers, and the
    time at which the awaiting code resumes. *)
Record Remote : Type := {
  getDocs_answer : Query -> Z -> Z * (JsError + list Doc);
  updateDoc_answer : string -> string -> JsObject -> Z -> Z * option JsError
}.

Record World : Type := {
  hook : HookState;
  clock : Z;                 (* the reading of [Date.now()] *)
  remote : Remote;
  trace : list Event         (* remote calls and callbacks, oldest first *)
}.

Definition remoteReads (t : list Event) : nat :=
  length (List.filter (fun e => match e with EvGetDocs _ => true | _ => false end) t).

Definition remoteWrites (t : list Event) : nat :=
  length (List.filter (fun e => match e with EvUpdateDoc _ _ _ => true | _ => false end) t).

Definition callbackCalls (t : list Event) : nat :=
  length (List.filter (fun e => match e with EvCall _ => true | _ => false end) t).

(** ** A state monad with exceptions for the async callbacks *)

Inductive Outcome (A : Type) : Type :=
  | Returned (a : A)
  | Thrown (err : JsError).
Arguments Returned {A} a.
Arguments Thrown {A} err.

Definition M (A : Type) : Type := World -> Outcome A * World.

#[global] Instance M_ret : MRet M := fun A a w => (Returned a, w).
#[global] Instance M_bind : MBind M := fun A B k m w =>
  match m w with
  | (Returned a, w') => k a w'
  | (Thrown e, w') => (Thrown e, w')
  end.

(** [try { body } catch (err) { handler } finally { fin }] where neither
    [handler] nor [fin] leaves early. *)
Definition tryCatchFinally (body : M unit) (handler : JsError -> M unit)
    (fin : M unit) : M unit :=
  fun w =>
    match body w with
    | (Returned _, w') => fin w'
    | (Thrown e, w') => (handler e ;; fin) w'
    end.

Definition tryCatch (body : M unit) (handler : JsError -> M unit) : M unit :=
  tryCatchFinally body handler (mret tt).

Definition modifyHook (f : HookState -> HookState) : M unit :=
  fun w => (Returned tt,
            {| hook := f (hook w); clock := clock w; remote := remote w;
               trace := trace w |}).

Definition emit (e : Event) : M unit :=
  fun w => (Returned tt,
            {| hook := hook w; clock := clock w; remote := remote w;
               trace := trace w ++ [e] |}).

Definition setDataWith (f : list JsObject -> list JsObject) : M unit :=
  modifyHook (fun s => {| data := f (data s); loading := loading s; error := error s;
                          cache := cache s; version := version s |}).
Definition setData (d : list JsObject) : M unit := setDataWith (fun _ => d).
Definition setLoading (b : bool) : M unit :=
  modifyHook (fun s => {| data := data s; loading := b; error := error s;
                          cache := cache s; version := version s |}).
Definition setError (e : option string) : M unit :=
  modifyHook (fun s => {| data := data s; loading := loading s; error := e;
                          cache := cache s; version := version s |}).
Definition setCache (c : gmap string CacheItem.t) : M unit :=
  modifyHook (fun s => {| data := data s; loading := loading s; error := error s;
                          cache := c; version := version s |}).
Definition setVersionWith (f : Z -> Z) : M unit :=
  modifyHook (fun s => {| data := data s; loading := loading s; error := error s;
                          cache := cache s; version := f (version s) |}).

(** [Date.now()] *)
Definition dateNow : M Z := fun w => (Returned (clock w), w).

(** [await getDocs(q)] *)
Definition getDocs (q : Query) : M (list Doc) :=
  fun w =>
    let '(t, ans) := getDocs_answer (remote w) q (clock w) in
    let w' := {| hook := hook w; clock := t; remote := remote w;
                 trace := trace w ++ [EvGetDocs q] |} in
    match ans with
    | inl err => (Thrown err, w')
    | inr docs => (Returned docs, w')
    end.

(** [await updateDoc(doc(db, coll, id), updates)] *)
Definition updateDoc (coll id : string) (updates : JsObject) : M unit :=
  fun w =>
    let '(t, ans) := updateDoc_answer (remote w) coll id updates (clock w) in
    let w' := {| hook := hook w; clock := t; remote := remote w;
                 trace := trace w ++ [EvUpdateDoc coll id updates] |} in
    match ans with
    | Some err => (Thrown err, w')
    | None => (Returned tt, w')
    end.

(** ** The callbacks of [useOptimizedData] *)

Definition isDataFresh (r : Closure) (cacheItem : CacheItem.t) : M bool :=
  now ← dateNow;
  mret (bool_decide (now - CacheItem.timestamp cacheItem < staleTime r)).

(** The part of [fetchData]'s [try] block after the cache check.  The two
    [console.log] calls and the [performance.now()] readings they print
    are left out. *)
Definition fetchRemote (r : Closure) : M unit :=
  let q := buildQuery (collectionName r) (filters r) in
  docs ← getDocs q;
  let result := map docToRecord docs in
  now ← dateNow;
  let newCache :=
    <[cacheKey (collectionName r) (filters r) :=
        {| CacheItem.data := result; CacheItem.timestamp := now;
           CacheItem.version := captured_version r + 1 |}]> (captured_cache r) in
  setCache newCache;;
  setVersionWith (fun prev => prev + 1);;
  setData result.

Definition fetchData (r : Closure) (forceRefresh : bool) : M unit :=
  tryCatchFinally
    (setLoading true;;
     setError None;;
     match captured_cache r !! cacheKey (collectionName r) (filters r) with
     | Some cached =>
         if negb forceRefresh then
           isDataFresh r cached ≫= fun fresh : bool =>
           if fresh then
             (setData (CacheItem.data cached);;
              setLoading false)
           else fetchRemote r
         else fetchRemote r
     | None => fetchRemote r
     end)
    (fun err => setError (Some (errorString err)))
    (setLoading false).

(** [refetch: () => fetchData(true)] *)
Definition refetch (r : Closure) : M unit := fetchData r true.

(** The [setData(prev => prev.map(...))] of [optimisticUpdate]. *)
Definition applyUpdate (itemId : string) (updates : JsObject)
    (prev : list JsObject) : list JsObject :=
  map (fun item =>
         if decide (getProp item "id" = JString itemId)
         then spread item updates else item) prev.

Definition callRollback (rollback : option Callback) : M unit :=
  match rollback with
  | Some cb => emit (EvCall cb)
  | None => mret tt
  end.

(** The [try { await updateDoc(...) } catch { ... }] of [optimisticUpdate].
    [fetchData(true)] is not awaited; what it does after the call is part
    of the same run here. *)
Definition commitUpdate (r : Closure) (itemId : string)
    (updates : JsObject) (rollback : option Callback) : M unit :=
  tryCatch
    (updateDoc (collectionName r) itemId updates)
    (fun _ => callRollback rollback;; fetchData r true).

Definition optimisticUpdate (r : Closure) (itemId : string)
    (updates : JsObject) (rollback : option Callback) : M unit :=
  if negb (optimisticUpdates r) then mret tt
  else
    setDataWith (applyUpdate itemId updates);;
    commitUpdate r itemId updates rollback.

(** ** Cache clean-up *)

Definition expired (cacheTime now : Z) (item : CacheItem.t) : bool :=
  bool_decide (now - CacheItem.timestamp item > cacheTime).

(** The loop of the interval callback: [newCache] starts as a copy of
    [cache]; the pair is ([newCache], [cleaned]). *)
Definition cleanLoop (cacheTime now : Z) (cache0 : gmap string CacheItem.t)
    : gmap string CacheItem.t * bool :=
  map_fold
    (fun key item acc =>
       if expired cacheTime now item then (delete key (fst acc), true) else acc)
    (cache0, false) cache0.

Definition cleanupTick (r : Closure) : M unit :=
  now ← dateNow;
  let '(newCache, cleaned) := cleanLoop (cacheTime r) now (captured_cache r) in
  if cleaned then setCache newCache else mret tt.

(** [setInterval(callback, delay)] *)
Record Interval : Type := { callback : M unit; delay : Z }.

Definition cacheCleanupEffect (r : Closure) : Interval :=
  {| callback := cleanupTick r; delay := 60000 |}.

(** ** The process-wide listener registry

    [activeListeners] is a module-level [Map<string, () => void>] shared by
    every hook instance.  An unsubscribe function is modelled by the handle
    of the remote subscription it cancels. *)

Record Subscription : Type := {
  sub_key : string;      (* the [listenerKey] of the effect that called [onSnapshot] *)
  sub_query : Query;
  sub_owner : nat        (* the instance whose [setData] the snapshot callback calls *)
}.

Record Component : Type := {
  comp_collection : string;      (* [collectionName] of the latest render *)
  comp_listenerKey : string;     (* [listenerKey] of the render whose real-time effect ran last *)
  comp_state : HookState;
  comp_cleanup : option string   (* the key closed over by the effect's clean-up, if it returned one *)
}.

Record Proc : Type := {
  activeListeners : gmap string nat;
  live : gmap nat Subscription;     (* remote subscriptions not yet cancelled *)
  created : list Query;             (* every [onSnapshot] call so far, oldest first *)
  components : gmap nat Component   (* mounted hook instances *)
}.

Definition initialProc : Proc :=
  {| activeListeners := ∅; live := ∅; created := []; components := ∅ |}.

Definition withCleanup (key : string) (c : Component) : Component :=
  {| comp_collection := comp_collection c; comp_listenerKey := comp_listenerKey c;
     comp_state := comp_state c; comp_cleanup := Some key |}.

Definition withData (d : list JsObject) (c : Component) : Component :=
  {| comp_collection := comp_collection c;
     comp_listenerKey := comp_listenerKey c;
     comp_state := {| data := d; loading := loading (comp_state c);
                      error := error (comp_state c); cache := cache (comp_state c);
                      version := version (comp_state c) |};
     comp_cleanup := comp_cleanup c |}.

(** The real-time effect of instance [x]. *)
Definition listenerEffect (x : nat) (collectionName : string) (filters : JsObject)
    (backgroundUpdate : bool) (p : Proc) : Proc :=
  if negb backgroundUpdate then p
  else
    let key := listenerKey collectionName filters backgroundUpdate in
    match activeListeners p !! key with
    | Some _ => p
    | None =>
        let q := buildQuery collectionName filters in
        let unsubscribe := length (created p) in
        {| activeListeners := <[key := unsubscribe]> (activeListeners p);
           live := <[unsubscribe := {| sub_key := key; sub_query := q; sub_owner := x |}]>
                     (live p);
           created := created p ++ [q];
           components := alter (withCleanup key) x (components p) |}
    end.

(** [const cleanup = activeListeners.get(key); if (cleanup) { cleanup();
    activeListeners.delete(key); }], the body shared by both clean-ups. *)
Definition cancelListener (key : string) (p : Proc) : Proc :=
  match activeListeners p !! key with
  | Some unsubscribe =>
      {| activeListeners := delete key (activeListeners p);
         live := delete unsubscribe (live p);
         created := created p;
         components := components p |}
  | None => p
  end.

(** [key.startsWith(`${collectionName}:`)] *)
Definition ownedBy (collectionName key : string) : bool :=
  String.prefix (collectionName +:+ ":") key.

(** The clean-up of the last effect ("Cleanup listeners on unmount"). *)
Definition unmountCleanup (collectionName : string) (p : Proc) : Proc :=
  let keysToRemove :=
    List.filter (ownedBy collectionName) (map fst (map_to_list (activeListeners p))) in
  fold_left (fun p' key => cancelListener key p') keysToRemove p.

(** Instance [x] mounts.  Of the effects that run then, only the real-time
    effect touches the registry. *)
Definition mount (x : nat) (collectionName : string) (filters : JsObject)
    (backgroundUpdate : bool) (p : Proc) : Proc :=
  listenerEffect x collectionName filters backgroundUpdate
    {| activeListeners := activeListeners p; live := live p; created := created p;
       components :=
         <[x := {| comp_collection := collectionName;
                   comp_listenerKey :=
                     listenerKey collectionName filters backgroundUpdate;
                   comp_state := initialState;
                   comp_cleanup := None |}]> (components p) |}.

(** What the unmount of an instance does to the registry: the clean-up its
    real-time effect last returned, if it returned one ([cleanup] is the
    [listenerKey] that clean-up closes over), then the clean-up of the last
    effect, which closes over the [collectionName] of the instance's latest
    render. *)
Definition teardown (cleanup : option string) (collectionName : string)
    (p : Proc) : Proc :=
  unmountCleanup collectionName
    (match cleanup with
     | Some key => cancelListener key p
     | None => p
     end).

(** Instance [x] renders again with these arguments.  React first runs the
    clean-ups of the effects whose dependencies changed, in the order of the
    effects, then those effects.  The real-time effect depends on
    [[listenerKey, backgroundUpdate]] (two equal keys end in the same
    [backgroundUpdate]), the last effect on [[collectionName]]; the latter
    only installs a clean-up, which from now on closes over the new name. *)
Definition rerender (x : nat) (collectionName : string) (filters : JsObject)
    (backgroundUpdate : bool) (p : Proc) : Proc :=
  match components p !! x with
  | None => p
  | Some c =>
      let key := listenerKey collectionName filters backgroundUpdate in
      let keyChanged := negb (String.eqb (comp_listenerKey c) key) in
      let nameChanged := negb (String.eqb (comp_collection c) collectionName) in
      let p1 := if keyChanged
                then match comp_cleanup c with
                     | Some old => cancelListener old p
                     | None => p
                     end
                else p in
      let p2 := if nameChanged then unmountCleanup (comp_collection c) p1 else p1 in
      let p3 :=
        {| activeListeners := activeListeners p2; live := live p2;
           created := created p2;
           components :=
             <[x := {| comp_collection := collectionName;
                       comp_listenerKey := key;
                       comp_state := comp_state c;
                       comp_cleanup :=
                         if keyChanged then None else comp_cleanup c |}]>
               (components p2) |} in
      if keyChanged then listenerEffect x collectionName filters backgroundUpdate p3
      else p3
  end.

(** Instance [x] has rendered with these arguments and React runs its
    real-time effect again: what an earlier run returned has been run
    before, and the clean-up of the last effect closes over the new name. *)
Definition rendered (x : nat) (collectionName : string) (filters : JsObject)
    (backgroundUpdate : bool) (p : Proc) : Proc :=
  {| activeListeners := activeListeners p; live := live p; created := created p;
     components :=
       alter (fun c => {| comp_collection := collectionName;
                          comp_listenerKey :=
                            listenerKey collectionName filters backgroundUpdate;
                          comp_state := comp_state c;
                          comp_cleanup := None |})
         x (components p) |}.

(** Unmounting runs the effect clean-ups in the order of the effects, with
    what the instance's latest render left in them. *)
Definition unmount (x : nat) (p : Proc) : Proc :=
  match components p !! x with
  | None => p
  | Some c =>
      let p1 := match comp_cleanup c with
                | Some key => cancelListener key p
                | None => p
                end in
      let p2 := unmountCleanup (comp_collection c) p1 in
      {| activeListeners := activeListeners p2; live := live p2;
         created := created p2; components := delete x (components p2) |}
  end.

(** The store pushes a snapshot on subscription [h]: the snapshot callback
    runs [setData(result)] in the instance that created the subscription. *)
Definition push (h : nat) (docs : list Doc) (p : Proc) : Proc :=
  match live p !! h with
  | Some s =>
      {| activeListeners := activeListeners p; live := live p; created := created p;
         components := alter (withData (map docToRecord docs)) (sub_owner s)
                         (components p) |}
  | None => p
  end.

(** What can happen to the process: an instance mounts, renders again or
    unmounts, or the store pushes a snapshot.  The last three steps take a
    render apart: the real-time effect of an instance that has rendered
    again, and either clean-up, run on its own.  With them the runs cover
    every order in which the registry can be touched. *)
Inductive Op : Type :=
  | OpMount (x : nat) (collectionName : string) (filters : JsObject)
      (backgroundUpdate : bool)
  | OpRerender (x : nat) (collectionName : string) (filters : JsObject)
      (backgroundUpdate : bool)
  | OpUnmount (x : nat)
  | OpPush (h : nat) (docs : list Doc)
  | OpListenerEffect (x : nat) (collectionName : string) (filters : JsObject)
      (backgroundUpdate : bool)
  | OpListenerCleanup (key : string)
  | OpUnmountCleanup (collectionName : string).

Definition step (p : Proc) (o : Op) : Proc :=
  match o with
  | OpMount x c f bg => mount x c f bg p
  | OpRerender x c f bg => rerender x c f bg p
  | OpUnmount x => unmount x p
  | OpPush h docs => push h docs p
  | OpListenerEffect x c f bg => listenerEffect x c f bg (rendered x c f bg p)
  | OpListenerCleanup key => cancelListener key p
  | OpUnmountCleanup c => unmountCleanup c p
  end.

Definition run (ops : list Op) : Proc := fold_left step ops initialProc.

(** The registry and the live remote subscriptions are in one-to-one
    correspondence. *)
Record registryInv (p : Proc) : Prop := {
  inv_live : forall h s, live p !! h = Some s -> activeListeners p !! sub_key s = Some h;
  inv_reg : forall k h, activeListeners p !! k = Some h ->
              exists s, live p !! h = Some s /\ sub_key s = k;
  inv_fresh : forall h, is_Some (live p !! h) -> (h < length (created p))%nat
}.

(** Instance [x] is the target of some live subscription. *)
Definition receivesPushes (x : nat) (p : Proc) : Prop :=
  exists h s, live p !! h = Some s /\ sub_owner s = x.

Definition dataOf (x : nat) (p : Proc) : option (list JsObject) :=
  (fun c => data (comp_state c)) <$> components p !! x.

(** ** Reading back what [JSON.stringify] wrote

    The inverse of [JSON.escapeChar], and the shape of the text that follows
    a member inside an object; both serve the injectivity of the keys. *)

Module Unquote.

Definition hexValue (c : ascii) : N :=
  let n := N_of_ascii c in
  if (n <? 58)%N then (n - 48)%N else (n - 87)%N.

Definition unescapeChar (s : string) : option (ascii * string) :=
  match s with
  | EmptyString => None
  | String c r =>
      if decide (c = JSON.dquote) then None
      else if decide (c = JSON.backslash) then
        match r with
        | String "b" r' => Some ("008"%char, r')
        | String "t" r' => Some ("009"%char, r')
        | String "n" r' => Some ("010"%char, r')
        | String "f" r' => Some ("012"%char, r')
        | String "r" r' => Some ("013"%char, r')
        | String "u" (String _ (String _ (String h (String l r')))) =>
            Some (ascii_of_N (16 * hexValue h + hexValue l), r')
        | String e r' => Some (e, r')
        | EmptyString => None
        end
      else Some (c, r)
  end.

(** The first character of [s] can start a number or end a member. *)
Definition numberOrDelimiter (s : string) : bool :=
  match s with
  | EmptyString => false
  | String c _ =>
      let n := N_of_ascii c in
      ((48 <=? n) && (n <=? 57) || (n =? 45) || (n =? 44) || (n =? 125))%N
  end.

Definition delimited (s : string) : Prop :=
  exists r, s = String "," r \/ s = String "}" r.

(** The text of a member and of the members that follow one. *)
Definition member (kv : string * JsValue) : string :=
  JSON.quoteJSONString (fst kv) +:+ ":"
    +:+ default "" (JSON.serializeJSONProperty (snd kv)).

Fixpoint rest (es : JsObject) : string :=
  match es with
  | [] => "}"
  | kv :: r => "," +:+ member kv +:+ rest r
  end.

Definition object (es : JsObject) : string :=
  match es with
  | [] => "{}"
  | kv :: r => "{" +:+ member kv +:+ rest r
  end.

End Unquote.

(** The condition [cached && !forceRefresh && isDataFresh(cached)] of
    [fetchData], with [now] the reading of the clock. *)
Definition cacheHit (r : Closure) (forceRefresh : bool) (now : Z) : bool :=
  match captured_cache r !! cacheKey (collectionName r) (filters r) with
  | Some cached =>
      negb forceRefresh && bool_decide (now - CacheItem.timestamp cached < staleTime r)
  | None => false
  end.

(** ** The scenario of the specification

    Collection ["employees"], filter [{companyId: "A"}], default options
    (so [staleTime] is 30000); the store holds one employee. *)

Definition employeesFilter : JsObject := [("companyId", JString "A")].

Definition employeesDocs : list Doc :=
  [{| doc_id := "e1"; doc_data := [("name", JString "Al")] |}].

Definition healthyRemote : Remote :=
  {| getDocs_answer := fun _ t => (t + 120, inr employeesDocs);
     updateDoc_answer := fun _ _ _ t => (t + 80, None) |}.

Definition brokenRemote : Remote :=
  {| getDocs_answer := fun _ t => (t + 120, inl (ErrorObject "unavailable"));
     updateDoc_answer := fun _ _ _ t => (t + 80, Some (ErrorObject "permission-denied")) |}.

Definition worldAt (t : Z) (rem : Remote) (st : HookState) : World :=
  {| hook := st; clock := t; remote := rem; trace := [] |}.

Definition employeesRender (st : HookState) : Closure :=
  render "employees" employeesFilter noOptions st.

(** The state after the first load, issued at time 0. *)
Definition afterFirstLoad : HookState :=
  hook (snd (fetchData (employeesRender initialState) false
               (worldAt 0 healthyRemote initialState))).

(** Two filter objects with the same defined properties, as sets. *)
Definition sameEntries (f1 f2 : JsObject) : Prop :=
  forall k v, v <> JUndefined -> (In (k, v) f1 <-> In (k, v) f2).

(** A name without a colon, as the collection names of the application
    are (["companies"], ["users"], ["checks"], ...). *)
Fixpoint noColon (s : string) : bool :=
  match s with
  | EmptyString => true
  | String c r => negb (Ascii.eqb c ":") && noColon r
  end.

(** An operation that opens no subscription of its own: a mount or an
    effect run with background updates off, or anything else. *)
Definition quiet (o : Op) : Prop :=
  match o with
  | OpMount _ _ _ bg | OpRerender _ _ _ bg | OpListenerEffect _ _ _ bg => bg = false
  | _ => True
  end.

(** ** The checks view, a caller of the hook

    [OptimizedViewChecks] calls the hook for the collection ["checks"] and
    derives what it shows from the hook's [data] and [loading]. *)

(** Truthiness of a string, and of a [string | null] state cell. *)
Definition nonEmpty (s : string) : bool :=
  match s with EmptyString => false | String _ _ => true end.

Definition truthyStr (s : option string) : bool :=
  match s with Some x => nonEmpty x | None => false end.

(** Truthiness of a value, [a || b], and the property key a value is
    converted to when used as an index. *)
Definition truthy (v : JsValue) : bool :=
  match v with
  | JUndefined | JNull => false
  | JBool b => b
  | JNumber n => negb (n =? 0)
  | JString s => nonEmpty s
  end.

Definition jsOr (a b : JsValue) : JsValue := if truthy a then a else b.

Definition toPropertyKey (v : JsValue) : string :=
  match v with
  | JString s => s
  | JNumber n => JSON.numberToString n
  | JBool b => boolToString b
  | JNull => "null"
  | JUndefined => "undefined"
  end.

(** The second and third argument of [useOptimizedData<CheckItem>('checks', ...)]. *)
Definition checksFilters (selectedCompanyId : option string) : JsObject :=
  match selectedCompanyId with
  | Some company => if nonEmpty company then [("companyId", JString company)] else []
  | None => []
  end.

Definition checksOptions (selectedCompanyId : option string) : UseOptimizedDataOptions :=
  {| opt_cacheTime := Some (2 * 60 * 1000);
     opt_staleTime := Some (30 * 1000);
     opt_backgroundUpdate := Some (if truthyStr selectedCompanyId then true else false);
     opt_optimisticUpdates := None |}.

(** The names of the members of [Object.prototype] (ECMA-262, 20.1.3 and
    B.2.2).  A plain object that has no own property of such a name answers
    a read of it with the inherited member, a function or, for
    [__proto__], the prototype object. *)
Definition objectPrototypeKeys : list string :=
  [ "constructor"; "hasOwnProperty"; "isPrototypeOf"; "propertyIsEnumerable";
    "toLocaleString"; "toString"; "valueOf"; "__proto__";
    "__defineGetter__"; "__defineSetter__"; "__lookupGetter__"; "__lookupSetter__" ].

Definition inheritedKey (k : string) : bool :=
  bool_decide (k ∈ objectPrototypeKeys).

(** [user.username || user.email || 'Unknown'] *)
Definition displayName (user : JsObject) : JsValue :=
  jsOr (jsOr (getProp user "username") (getProp user "email")) (JString "Unknown").

(** [userMap]: [map[user.id] = user.username || user.email || 'Unknown'] for
    each user in turn, on a plain object [{}], kept here as its own
    properties.  The assignment under the key [__proto__] reaches the setter
    of [Object.prototype], which ignores a value that is neither an object
    nor [null], as every [displayName] is: it creates no property.  Under
    any other key, inherited or not, the assignment creates or overwrites
    an own property. *)
Definition userMap (users : list JsObject) : gmap string JsValue :=
  fold_left
    (fun map user =>
       let key := toPropertyKey (getProp user "id") in
       if bool_decide (key = "__proto__") then map
       else <[key := displayName user]> map)
    users ∅.

(** [interface CheckItem]: the fields the view computes with, and the
    remaining ones, which it only carries along. *)
Module CheckItem.
Record t : Type := {
  id : string;
  companyId : string;
  employeeName : option string;
  createdBy : option string;
  checkNumber : option Z;
  date : JsValue;
  other : JsObject
}.
End CheckItem.

(** [s.includes(sub)] *)
Fixpoint includes (s sub : string) : bool :=
  String.prefix sub s
  || match s with
     | EmptyString => false
     | String _ r => includes r sub
     end.

(** [Array.prototype.filter] with a callback that may throw: [None] when
    the callback throws for some element. *)
Fixpoint filterM {A : Type} (p : A -> option bool) (l : list A) : option (list A) :=
  match l with
  | [] => Some []
  | x :: r =>
      b ← p x;
      rest ← filterM p r;
      Some (if b : bool then x :: rest else rest)
  end.

(** [Array.prototype.sort] with the comparator
    [(a, b) => key(b) - key(a)]: the sort is stable, so the result is the
    one of inserting each element before the first element with a key that
    is not larger. *)
Fixpoint insertDesc {A : Type} (key : A -> Z) (x : A) (l : list A) : list A :=
  match l with
  | [] => [x]
  | y :: r => if key x <? key y then y :: insertDesc key x r else x :: y :: r
  end.

Fixpoint sortDesc {A : Type} (key : A -> Z) (l : list A) : list A :=
  match l with
  | [] => []
  | x :: r => insertDesc key x (sortDesc key r)
  end.

Section ChecksView.

(** [String.prototype.toLowerCase], and the inline week-key computation
    [new Date(d.setDate(d.getDate() - d.getDay())).toISOString().slice(0, 10)]
    on [c.date], which depends on the time zone of the browser and throws
    ([None]) for an invalid date. *)
Variable toLowerCase : string -> string.
Variable weekKeyOfDate : JsValue -> option string.

(** [x?.toLowerCase().includes(needle)] on a value: [undefined] (falsy) for
    [undefined] and [null], a [TypeError] for values without [toLowerCase]. *)
Definition lowerIncludes (v : JsValue) (needle : string) : option bool :=
  match v with
  | JUndefined | JNull => Some false
  | JString s => Some (includes (toLowerCase s) needle)
  | _ => None
  end.

(** The callback of the search filter.  [userMap[c.createdBy]] reads the
    own property of that name or else the member of [Object.prototype] of
    that name, on which [.toLowerCase()] is a [TypeError]; only a name that
    is neither gives [undefined], where [?.] stops. *)
Definition searchMatch (debouncedSearchText : string) (map : gmap string JsValue)
    (c : CheckItem.t) : option bool :=
  let needle := toLowerCase debouncedSearchText in
  let nameMatch :=
    match CheckItem.employeeName c with
    | Some name => includes (toLowerCase name) needle
    | None => false
    end in
  madeByMatch ←
    match CheckItem.createdBy c with
    | Some uid =>
        if nonEmpty uid then
          match map !! uid with
          | Some v => lowerIncludes v needle
          | None => if inheritedKey uid then None else Some false
          end
        else Some false
    | None => Some false
    end;
  Some (nameMatch || madeByMatch).

(** The callback of the week filter. *)
Definition inWeek (selectedWeekKey : string) (c : CheckItem.t) : option bool :=
  weekKey ← weekKeyOfDate (CheckItem.date c);
  Some (bool_decide (weekKey = selectedWeekKey)).

Definition checkNumberOrZero (c : CheckItem.t) : Z :=
  match CheckItem.checkNumber c with
  | Some n => n
  | None => 0
  end.

Definition filteredChecks (selectedCompanyId selectedWeekKey selectedCreatedBy : option string)
    (debouncedSearchText : string) (checksLoading : bool)
    (checks : list CheckItem.t) (map : gmap string JsValue)
    : option (list CheckItem.t) :=
  if negb (truthyStr selectedCompanyId) || checksLoading then Some []
  else
    let filtered :=
      List.filter (fun c => bool_decide (Some (CheckItem.companyId c) = selectedCompanyId))
        checks in
    filtered ←
      (if truthyStr selectedWeekKey
       then filterM (inWeek (default "" selectedWeekKey)) filtered
       else Some filtered);
    let filtered :=
      if truthyStr selectedCreatedBy
      then List.filter (fun c => bool_decide (CheckItem.createdBy c = selectedCreatedBy))
             filtered
      else filtered in
    filtered ←
      (if nonEmpty debouncedSearchText
       then filterM (searchMatch debouncedSearchText map) filtered
       else Some filtered);
    Some (sortDesc checkNumberOrZero filtered).

(** [checksByWeek]: each check is pushed to the list under its week key. *)
Definition checksByWeek (filtered : list CheckItem.t)
    : option (gmap string (list CheckItem.t)) :=
  fold_left
    (fun (acc : option (gmap string (list CheckItem.t))) c =>
       grouped ← acc;
       key ← weekKeyOfDate (CheckItem.date c);
       Some (<[key := (default [] (grouped !! key) ++ [c])%list]> grouped))
    filtered (Some ∅).

End ChecksView.

(** The [onClick] of "Mark as Reviewed":
    [await updateDoc(doc(db, 'checks', selectedCheck.id), { reviewed: true });
     refetchChecks(); handleCloseDialog();] with the dialog state of the
    view beside the world of the hook. *)
Record DialogState : Type := { openDialog : bool; selectedCheck : option CheckItem.t }.

Definition handleCloseDialog (d : DialogState) : DialogState :=
  {| openDialog := false; selectedCheck := None |}.

Definition markAsReviewed (r : Closure) (check : CheckItem.t)
    (wd : World * DialogState) : Outcome unit * (World * DialogState) :=
  match updateDoc "checks" (CheckItem.id check) [("reviewed", JBool true)] (fst wd) with
  | (Thrown e, w1) => (Thrown e, (w1, snd wd))
  | (Returned _, w1) =>
      (Returned tt, (snd (refetch r w1), handleCloseDialog (snd wd)))
  end.

(** * Properties *)

(** ** Keys *)

Example stringify_empty : JSON.stringify [] = "{}".
Proof. reflexivity. Qed.

Example stringify_skips_undefined :
  JSON.stringify [("a", JUndefined); ("b", JNull); ("c", JUndefined)]
  = String "{" (String JSON.dquote ("b" +:+ String JSON.dquote ":null}")).
Proof. reflexivity. Qed.

Example stringify_numbers :
  JSON.numberToString 0 = "0" /\ JSON.numberToString (-12) = "-12"
  /\ JSON.numberToString 30000 = "30000".
Proof. repeat split; reflexivity. Qed.

Example quote_escapes :
  JSON.quoteJSONString (String "a" (String JSON.dquote (String "010" (String "001" "/"))))
  = String JSON.dquote
      ("a" +:+ String JSON.backslash (String JSON.dquote
         (String JSON.backslash ("n" +:+ String JSON.backslash ("u0001/"
            +:+ String JSON.dquote ""))))).
Proof. reflexivity. Qed.

Example cacheKey_checks :
  cacheKey "checks" [("companyId", JString "A"); ("x", JUndefined); ("n", JNumber (-12))]
  = "checks:{" +:+ String JSON.dquote ("companyId" +:+ String JSON.dquote (":"
      +:+ String JSON.dquote ("A" +:+ String JSON.dquote (","
      +:+ String JSON.dquote ("n" +:+ String JSON.dquote ":-12}"))))).
Proof. reflexivity. Qed.

Example listenerKey_employees :
  listenerKey "employees" [] true = "employees:{}:true".
Proof. reflexivity. Qed.

Section StringFacts.

Lemma append_cons (x : ascii) (a b : string) :
  String x a +:+ b = String x (a +:+ b).
Proof. reflexivity. Qed.

Lemma append_nil (b : string) : "" +:+ b = b.
Proof. reflexivity. Qed.

Lemma append_assoc (a b c : string) : (a +:+ b) +:+ c = a +:+ (b +:+ c).
Proof.
  induction a as [|x a IH]; [reflexivity|].
  rewrite !append_cons. now rewrite IH.
Qed.

End StringFacts.

Ltac string_norm :=
  repeat (rewrite ?append_assoc, ?append_cons, ?append_nil).
Ltac string_norm_in H :=
  repeat (rewrite ?append_assoc, ?append_cons, ?append_nil in H).

Module UnquoteFacts.
Import JSON Unquote.

Lemma unescape_escape (c : ascii) (r : string) :
  unescapeChar (escapeChar c +:+ r) = Some (c, r).
Proof.
  destruct c as [[] [] [] [] [] [] [] []]; reflexivity.
Qed.

Lemma escapeBody_delimits (s1 s2 r1 r2 : string) :
  escapeBody s1 +:+ String dquote r1 = escapeBody s2 +:+ String dquote r2 ->
  s1 = s2 /\ r1 = r2.
Proof.
  revert s2; induction s1 as [|c1 s1 IH]; intros [|c2 s2];
    cbn [escapeBody]; rewrite ?append_nil, ?append_assoc; intros H.
  - injection H as ->. auto.
  - apply (f_equal unescapeChar) in H.
    rewrite unescape_escape in H. discriminate.
  - apply (f_equal unescapeChar) in H.
    rewrite unescape_escape in H. discriminate.
  - apply (f_equal unescapeChar) in H.
    rewrite !unescape_escape in H.
    injection H as -> H. destruct (IH _ H) as [-> ->]. auto.
Qed.

Lemma quote_delimits (s1 s2 r1 r2 : string) :
  quoteJSONString s1 +:+ r1 = quoteJSONString s2 +:+ r2 -> s1 = s2 /\ r1 = r2.
Proof.
  unfold quoteJSONString. string_norm.
  intros H; injection H as H. now apply escapeBody_delimits.
Qed.

(** Decimal numerals end where a delimiter starts. *)
Lemma uint_delimits (d1 d2 : Decimal.uint) (t1 t2 : string) :
  delimited t1 -> delimited t2 ->
  NilEmpty.string_of_uint d1 +:+ t1 = NilEmpty.string_of_uint d2 +:+ t2 ->
  d1 = d2 /\ t1 = t2.
Proof.
  intros [r1 D1] [r2 D2]. revert d2.
  induction d1 as [|d1 IH|d1 IH|d1 IH|d1 IH|d1 IH|d1 IH|d1 IH|d1 IH|d1 IH|d1 IH];
    intros [|d2|d2|d2|d2|d2|d2|d2|d2|d2|d2];
    cbn [NilEmpty.string_of_uint]; rewrite ?append_cons, ?append_nil; intros H;
    try (destruct D1 as [-> | ->]; destruct D2 as [-> | ->]; discriminate H);
    try discriminate H;
    try (injection H as H; destruct (IH _ H) as [-> ->]; auto).
  auto.
Qed.

Lemma uint_starts (d : Decimal.uint) (t : string) :
  delimited t -> numberOrDelimiter (NilEmpty.string_of_uint d +:+ t) = true.
Proof.
  intros [r [-> | ->]]; destruct d; reflexivity.
Qed.

Lemma number_starts (n : Z) (t : string) :
  delimited t -> numberOrDelimiter (numberToString n +:+ t) = true.
Proof.
  intros D. unfold numberToString.
  destruct (Z.to_int n); [now apply uint_starts | reflexivity].
Qed.

Lemma number_delimits (n1 n2 : Z) (t1 t2 : string) :
  delimited t1 -> delimited t2 ->
  numberToString n1 +:+ t1 = numberToString n2 +:+ t2 ->
  n1 = n2 /\ t1 = t2.
Proof.
  intros D1 D2. unfold numberToString.
  destruct (Z.to_int n1) as [d1|d1] eqn:E1, (Z.to_int n2) as [d2|d2] eqn:E2;
    rewrite ?append_cons; intros H.
  - destruct (uint_delimits _ _ _ _ D1 D2 H) as [-> ->].
    split; [|reflexivity]. apply DecimalZ.to_int_inj. congruence.
  - exfalso. destruct D1 as [r [-> | ->]]; destruct d1; discriminate H.
  - exfalso. destruct D2 as [r [-> | ->]]; destruct d2; discriminate H.
  - injection H as H.
    destruct (uint_delimits _ _ _ _ D1 D2 H) as [-> ->].
    split; [|reflexivity]. apply DecimalZ.to_int_inj. congruence.
Qed.

(** A serialized value followed by a delimiter determines the value. *)
Lemma value_delimits (v1 v2 : JsValue) (s1 s2 t1 t2 : string) :
  serializeJSONProperty v1 = Some s1 ->
  serializeJSONProperty v2 = Some s2 ->
  delimited t1 -> delimited t2 ->
  s1 +:+ t1 = s2 +:+ t2 ->
  v1 = v2 /\ t1 = t2.
Proof.
  intros S1 S2 D1 D2 H.
  destruct v1 as [| |[]|n1|x1], v2 as [| |[]|n2|x2]; simpl in S1, S2;
    try discriminate S1; try discriminate S2;
    injection S1 as <-; injection S2 as <-;
    try (rewrite ?append_cons, ?append_nil in H; injection H as ->;
         split; reflexivity);
    try (rewrite ?append_cons, ?append_nil in H; discriminate H);
    try (apply (f_equal numberOrDelimiter) in H;
         rewrite ?number_starts in H by assumption; discriminate H).
  - destruct (number_delimits _ _ _ _ D1 D2 H) as [-> ->]. auto.
  - destruct (quote_delimits _ _ _ _ H) as [-> ->]. auto.
Qed.

Lemma rest_delimited (es : JsObject) : delimited (rest es).
Proof.
  destruct es as [|kv r]; [exists ""; right; reflexivity|].
  exists (member kv +:+ rest r). left. reflexivity.
Qed.

Lemma member_delimits (kv1 kv2 : string * JsValue) (t1 t2 : string) :
  isDefined (snd kv1) = true -> isDefined (snd kv2) = true ->
  delimited t1 -> delimited t2 ->
  member kv1 +:+ t1 = member kv2 +:+ t2 ->
  kv1 = kv2 /\ t1 = t2.
Proof.
  destruct kv1 as [k1 v1], kv2 as [k2 v2]. unfold member. simpl.
  intros V1 V2 D1 D2 H. rewrite !append_assoc in H.
  apply quote_delimits in H as [-> H]. rewrite !append_cons, !append_nil in H.
  injection H as H.
  destruct (serializeJSONProperty v1) as [s1|] eqn:S1;
    [|destruct v1 as [| |[]| |]; simpl in *; congruence].
  destruct (serializeJSONProperty v2) as [s2|] eqn:S2;
    [|destruct v2 as [| |[]| |]; simpl in *; congruence].
  simpl in H.
  destruct (value_delimits _ _ _ _ _ _ S1 S2 D1 D2 H) as [-> ->]. auto.
Qed.

Lemma cons_append_inj (c : ascii) (a b : string) :
  String c "" +:+ a = String c "" +:+ b -> a = b.
Proof. intros H. change (String c a = String c b) in H. now injection H. Qed.

Lemma member_starts (kv : string * JsValue) (t : string) :
  exists r, member kv +:+ t = String dquote r.
Proof.
  unfold member, quoteJSONString. rewrite !append_cons. eauto.
Qed.

Lemma rest_inj (e1 e2 : JsObject) :
  Forall (fun kv => isDefined (snd kv) = true) e1 ->
  Forall (fun kv => isDefined (snd kv) = true) e2 ->
  rest e1 = rest e2 -> e1 = e2.
Proof.
  intros F1; revert e2; induction F1 as [|kv1 e1 V1 F1 IH];
    intros e2 F2; destruct F2 as [|kv2 e2 V2 F2]; cbn [rest]; intros H;
    try discriminate H; [reflexivity|].
  apply cons_append_inj in H.
  apply member_delimits in H as [-> H]; auto using rest_delimited.
  f_equal. now apply IH.
Qed.

Lemma object_inj (e1 e2 : JsObject) :
  Forall (fun kv => isDefined (snd kv) = true) e1 ->
  Forall (fun kv => isDefined (snd kv) = true) e2 ->
  object e1 = object e2 -> e1 = e2.
Proof.
  intros F1 F2.
  destruct F1 as [|kv1 e1 V1 F1], F2 as [|kv2 e2 V2 F2]; cbn [object]; intros H.
  - reflexivity.
  - change "{}" with ("{" +:+ "}") in H. apply cons_append_inj in H.
    destruct (member_starts kv2 (rest e2)) as [r E]. rewrite E in H. discriminate H.
  - change "{}" with ("{" +:+ "}") in H. apply cons_append_inj in H.
    destruct (member_starts kv1 (rest e1)) as [r E]. rewrite E in H. discriminate H.
  - apply cons_append_inj in H.
    apply member_delimits in H as [-> H]; auto using rest_delimited.
    f_equal. now apply rest_inj.
Qed.

(** [JSON.stringify] writes the defined properties, in order. *)
Lemma partial_defined (o : JsObject) :
  partial o = map (fun kv => member kv) (definedEntries o).
Proof.
  unfold definedEntries.
  induction o as [|[k v] o IH]; [reflexivity|].
  destruct v as [| |[]| |];
    cbn [partial List.filter isDefined snd serializeJSONProperty map];
    rewrite <- ?IH; reflexivity.
Qed.

Lemma concat_rest (m : string) (es : JsObject) :
  String.concat "," (m :: map (fun kv => member kv) es) +:+ "}" = m +:+ rest es.
Proof.
  revert m; induction es as [|kv es IH]; intros m.
  - reflexivity.
  - cbn [map rest]. rewrite <- IH.
    change (String.concat "," (m :: member kv :: map (fun kv => member kv) es))
      with (m +:+ "," +:+ String.concat "," (member kv :: map (fun kv => member kv) es)).
    now rewrite !append_assoc.
Qed.

Lemma stringify_object (o : JsObject) :
  stringify o = object (definedEntries o).
Proof.
  unfold stringify. rewrite partial_defined.
  destruct (definedEntries o) as [|kv es]; [reflexivity|].
  cbn [map object]. now rewrite concat_rest.
Qed.

Lemma definedEntries_defined (o : JsObject) :
  Forall (fun kv => isDefined (snd kv) = true) (definedEntries o).
Proof.
  unfold definedEntries. apply List.Forall_forall. intros kv H.
  apply List.filter_In in H. tauto.
Qed.

Lemma stringify_inj (o1 o2 : JsObject) :
  stringify o1 = stringify o2 <-> definedEntries o1 = definedEntries o2.
Proof.
  rewrite !stringify_object. split.
  - apply object_inj; apply definedEntries_defined.
  - now intros ->.
Qed.

End UnquoteFacts.

Section Keys.

(** C1, as stated, fails: two filter objects holding the same key/value
    pairs, written in a different order, get different cache keys. *)
Lemma cacheKey_depends_on_order :
  sameEntries [("companyId", JString "A"); ("reviewed", JBool true)]
              [("reviewed", JBool true); ("companyId", JString "A")]
  /\ cacheKey "checks" [("companyId", JString "A"); ("reviewed", JBool true)]
     <> cacheKey "checks" [("reviewed", JBool true); ("companyId", JString "A")].
Proof.
  split.
  - intros k v _. simpl. tauto.
  - intros H. vm_compute in H. discriminate H.
Qed.

Lemma cacheKey_inj (c : string) (f1 f2 : JsObject) :
  cacheKey c f1 = cacheKey c f2 <-> definedEntries f1 = definedEntries f2.
Proof.
  unfold cacheKey. rewrite <- UnquoteFacts.stringify_inj. split.
  - intros H. apply String.app_inj in H. now apply String.app_inj in H.
  - now intros ->.
Qed.

Lemma definedEntries_In (f : JsObject) (k : string) (v : JsValue) :
  v <> JUndefined -> (In (k, v) (definedEntries f) <-> In (k, v) f).
Proof.
  intros Hv. unfold definedEntries. rewrite List.filter_In. simpl.
  destruct v; simpl; try tauto; congruence.
Qed.

(** C1 (amended): for filters whose names and string values are made of
    code units below 256 and whose other values are booleans, [null],
    [undefined] or safe integers (at most [2^53 - 1] in absolute value),
    the cache key is a deterministic function of the collection name and
    of the filter's defined properties in enumeration order.  Two such
    filter objects get the same key exactly when their sequences of
    defined key/value pairs are equal; properties whose value is
    [undefined] count as absent; objects that differ in some defined key or
    value get distinct keys. *)
Theorem cacheKey_canonical (c : string) (f1 f2 : JsObject) :
  safeObject f1 -> safeObject f2 ->
  (cacheKey c f1 = cacheKey c f2 <-> definedEntries f1 = definedEntries f2)
  /\ cacheKey c (definedEntries f1) = cacheKey c f1
  /\ (~ sameEntries f1 f2 -> cacheKey c f1 <> cacheKey c f2).
Proof.
  intros _ _. split; [apply cacheKey_inj|]. split.
  - apply cacheKey_inj. unfold definedEntries.
    induction f1 as [|[k v] f1 IH]; [reflexivity|].
    cbn [List.filter snd]. destruct (isDefined v) eqn:E; [|exact IH].
    cbn [List.filter snd]. rewrite E. now f_equal.
  - intros Hne Heq. apply Hne. apply cacheKey_inj in Heq.
    intros k v Hv. rewrite <- (definedEntries_In f1), <- (definedEntries_In f2) by assumption.
    now rewrite Heq.
Qed.

Lemma cacheKey_canonical_witness :
  cacheKey "checks" [("companyId", JString "A"); ("x", JUndefined)]
    = cacheKey "checks" [("companyId", JString "A")]
  /\ cacheKey "checks" [("companyId", JString "A"); ("year", JNumber 2024)]
     <> cacheKey "checks" [("companyId", JString "A"); ("year", JNumber 2025)].
Proof.
  split.
  - apply (proj1 (cacheKey_canonical "checks"
                    [("companyId", JString "A"); ("x", JUndefined)]
                    [("companyId", JString "A")]
                    ltac:(repeat constructor) ltac:(repeat constructor))).
    reflexivity.
  - apply (proj2 (proj2 (cacheKey_canonical "checks"
                           [("companyId", JString "A"); ("year", JNumber 2024)]
                           [("companyId", JString "A"); ("year", JNumber 2025)]
                           ltac:(repeat constructor; cbn; unfold safeInteger; lia)
                           ltac:(repeat constructor; cbn; unfold safeInteger; lia)))).
    intros H.
    destruct (H "year" (JNumber 2024) ltac:(discriminate)) as [Hab _].
    specialize (Hab (or_intror (or_introl eq_refl))).
    destruct Hab as [E | [E | []]]; discriminate E.
Defined.

End Keys.

(** ** The fetch orchestrator *)

Ltac unfold_M :=
  repeat (unfold mbind, M_bind, mret, M_ret, setLoading, setError, setData, setCache,
            setVersionWith, setDataWith, modifyHook, emit, dateNow, isDataFresh,
            callRollback; cbn).

Section Fetch.

Variable r : Closure.

Lemma cacheHit_true (forceRefresh : bool) (now : Z) :
  cacheHit r forceRefresh now = true <->
  exists cached,
    captured_cache r !! cacheKey (collectionName r) (filters r) = Some cached
    /\ forceRefresh = false
    /\ now - CacheItem.timestamp cached < staleTime r.
Proof.
  unfold cacheHit.
  destruct (captured_cache r !! cacheKey (collectionName r) (filters r)) as [cached|].
  - rewrite andb_true_iff, negb_true_iff, bool_decide_eq_true.
    split; [intros [? ?]; eauto | intros (c & [= <-] & ? & ?); auto].
  - split; [discriminate | intros (c & [=] & _)].
Qed.

(** A fresh entry and no forced refresh: the cached payload is shown and
    nothing else changes. *)
Lemma fetchData_hit (forceRefresh : bool) (w : World) (cached : CacheItem.t) :
  captured_cache r !! cacheKey (collectionName r) (filters r) = Some cached ->
  cacheHit r forceRefresh (clock w) = true ->
  fetchData r forceRefresh w =
    (Returned tt,
     {| hook := {| data := CacheItem.data cached; loading := false; error := None;
                   cache := cache (hook w); version := version (hook w) |};
        clock := clock w; remote := remote w; trace := trace w |}).
Proof.
  intros Hc Hhit. unfold cacheHit in Hhit. rewrite Hc in Hhit.
  apply andb_true_iff in Hhit as [Hf Hfresh].
  unfold fetchData, tryCatchFinally.
  rewrite Hc, Hf. unfold_M. rewrite Hfresh. reflexivity.
Qed.

(** The remote read on its own: it succeeds ... *)
Lemma fetchRemote_ok (w : World) (t : Z) (docs : list Doc) :
  getDocs_answer (remote w) (buildQuery (collectionName r) (filters r)) (clock w)
    = (t, inr docs) ->
  fetchRemote r w =
    (Returned tt,
     {| hook := {| data := map docToRecord docs; loading := loading (hook w);
                   error := error (hook w);
                   cache := <[cacheKey (collectionName r) (filters r) :=
                                {| CacheItem.data := map docToRecord docs;
                                   CacheItem.timestamp := t;
                                   CacheItem.version := captured_version r + 1 |}]>
                              (captured_cache r);
                   version := version (hook w) + 1 |};
        clock := t; remote := remote w;
        trace := trace w ++ [EvGetDocs (buildQuery (collectionName r) (filters r))] |}).
Proof.
  intros Hans. unfold fetchRemote, getDocs. unfold_M. rewrite Hans. reflexivity.
Qed.

(** ... or throws, and then nothing is stored. *)
Lemma fetchRemote_err (w : World) (t : Z) (err : JsError) :
  getDocs_answer (remote w) (buildQuery (collectionName r) (filters r)) (clock w)
    = (t, inl err) ->
  fetchRemote r w =
    (Thrown err,
     {| hook := hook w; clock := t; remote := remote w;
        trace := trace w ++ [EvGetDocs (buildQuery (collectionName r) (filters r))] |}).
Proof.
  intros Hans. unfold fetchRemote, getDocs. unfold_M. rewrite Hans. reflexivity.
Qed.

(** Otherwise one remote read is made; when it succeeds the result is
    stored and shown. *)
Lemma fetchData_miss_ok (forceRefresh : bool) (w : World) (t : Z) (docs : list Doc) :
  cacheHit r forceRefresh (clock w) = false ->
  getDocs_answer (remote w) (buildQuery (collectionName r) (filters r)) (clock w)
    = (t, inr docs) ->
  fetchData r forceRefresh w =
    (Returned tt,
     {| hook := {| data := map docToRecord docs; loading := false; error := None;
                   cache := <[cacheKey (collectionName r) (filters r) :=
                                {| CacheItem.data := map docToRecord docs;
                                   CacheItem.timestamp := t;
                                   CacheItem.version := captured_version r + 1 |}]>
                              (captured_cache r);
                   version := version (hook w) + 1 |};
        clock := t; remote := remote w;
        trace := trace w ++ [EvGetDocs (buildQuery (collectionName r) (filters r))] |}).
Proof.
  intros Hmiss Hans. unfold cacheHit in Hmiss.
  unfold fetchData, tryCatchFinally.
  destruct (captured_cache r !! cacheKey (collectionName r) (filters r)) as [cached|].
  - destruct forceRefresh; cbn in Hmiss; unfold_M.
    + rewrite fetchRemote_ok with (t := t) (docs := docs) by exact Hans. reflexivity.
    + rewrite Hmiss.
      rewrite fetchRemote_ok with (t := t) (docs := docs) by exact Hans. reflexivity.
  - unfold_M.
    rewrite fetchRemote_ok with (t := t) (docs := docs) by exact Hans. reflexivity.
Qed.

(** When the read fails, the error string is shown and the cache and the
    version counter stay as they were. *)
Lemma fetchData_miss_err (forceRefresh : bool) (w : World) (t : Z) (err : JsError) :
  cacheHit r forceRefresh (clock w) = false ->
  getDocs_answer (remote w) (buildQuery (collectionName r) (filters r)) (clock w)
    = (t, inl err) ->
  fetchData r forceRefresh w =
    (Returned tt,
     {| hook := {| data := data (hook w); loading := false;
                   error := Some (errorString err);
                   cache := cache (hook w); version := version (hook w) |};
        clock := t; remote := remote w;
        trace := trace w ++ [EvGetDocs (buildQuery (collectionName r) (filters r))] |}).
Proof.
  intros Hmiss Hans. unfold cacheHit in Hmiss.
  unfold fetchData, tryCatchFinally.
  destruct (captured_cache r !! cacheKey (collectionName r) (filters r)) as [cached|].
  - destruct forceRefresh; cbn in Hmiss; unfold_M.
    + rewrite fetchRemote_err with (t := t) (err := err) by exact Hans. reflexivity.
    + rewrite Hmiss.
      rewrite fetchRemote_err with (t := t) (err := err) by exact Hans. reflexivity.
  - unfold_M.
    rewrite fetchRemote_err with (t := t) (err := err) by exact Hans. reflexivity.
Qed.

End Fetch.

Lemma remoteReads_snoc (t : list Event) (q : Query) :
  remoteReads (t ++ [EvGetDocs q]) = S (remoteReads t).
Proof.
  unfold remoteReads. rewrite List.filter_app, List.length_app. simpl. lia.
Qed.

Lemma cacheHit_forced (r : Closure) (now : Z) : cacheHit r true now = false.
Proof. unfold cacheHit. now destruct (_ !! _). Qed.

(** C2: with a fresh entry for the key and [forceRefresh = false], the load
    makes no remote call, shows exactly the cached payload, and leaves the
    cache and the version counter as they were. *)
Theorem fetchData_fresh_entry_no_remote_read
    (r : Closure) (w : World) (cached : CacheItem.t) :
  captured_cache r !! cacheKey (collectionName r) (filters r) = Some cached ->
  clock w - CacheItem.timestamp cached < staleTime r ->
  fst (fetchData r false w) = Returned tt
  /\ trace (snd (fetchData r false w)) = trace w
  /\ remoteReads (trace (snd (fetchData r false w))) = remoteReads (trace w)
  /\ data (hook (snd (fetchData r false w))) = CacheItem.data cached
  /\ cache (hook (snd (fetchData r false w))) = cache (hook w)
  /\ version (hook (snd (fetchData r false w))) = version (hook w)
  /\ loading (hook (snd (fetchData r false w))) = false
  /\ error (hook (snd (fetchData r false w))) = None.
Proof.
  intros Hc Hfresh.
  rewrite (fetchData_hit r false w cached Hc).
  - cbn. repeat split; reflexivity.
  - apply cacheHit_true. exists cached. auto.
Qed.

Lemma fetchData_fresh_entry_no_remote_read_witness :
  let r := employeesRender afterFirstLoad in
  let w := worldAt 10000 healthyRemote afterFirstLoad in
  trace (snd (fetchData r false w)) = []
  /\ data (hook (snd (fetchData r false w)))
     = [[("id", JString "e1"); ("name", JString "Al")]]
  /\ cache (hook (snd (fetchData r false w))) = cache afterFirstLoad.
Proof.
  intros r w.
  destruct (fetchData_fresh_entry_no_remote_read r w
              {| CacheItem.data := [[("id", JString "e1"); ("name", JString "Al")]];
                 CacheItem.timestamp := 120; CacheItem.version := 1 |})
    as (_ & Ht & _ & Hd & Hc & _).
  - vm_compute. reflexivity.
  - vm_compute. reflexivity.
  - split; [exact Ht|]. split; [exact Hd | exact Hc].
Defined.

(** C3: when the remote read of a load fails, the caller sees the error as
    a string, [loading] is cleared, and the cache (so also the entry of
    this key, if there is one) and the version counter are what they were
    before the call. *)
Theorem fetchData_failure_keeps_cache
    (r : Closure) (forceRefresh : bool) (w : World) (t : Z) (err : JsError) :
  cacheHit r forceRefresh (clock w) = false ->
  getDocs_answer (remote w) (buildQuery (collectionName r) (filters r)) (clock w)
    = (t, inl err) ->
  fst (fetchData r forceRefresh w) = Returned tt
  /\ error (hook (snd (fetchData r forceRefresh w))) = Some (errorString err)
  /\ loading (hook (snd (fetchData r forceRefresh w))) = false
  /\ cache (hook (snd (fetchData r forceRefresh w))) = cache (hook w)
  /\ version (hook (snd (fetchData r forceRefresh w))) = version (hook w)
  /\ data (hook (snd (fetchData r forceRefresh w))) = data (hook w).
Proof.
  intros Hmiss Hans.
  rewrite (fetchData_miss_err r forceRefresh w t err Hmiss Hans).
  cbn. repeat split; reflexivity.
Qed.

Lemma fetchData_failure_keeps_cache_witness :
  let r := employeesRender afterFirstLoad in
  let w := worldAt 40000 brokenRemote afterFirstLoad in
  error (hook (snd (fetchData r false w))) = Some "unavailable"
  /\ loading (hook (snd (fetchData r false w))) = false
  /\ cache (hook (snd (fetchData r false w))) = cache afterFirstLoad.
Proof.
  intros r w.
  destruct (fetchData_failure_keeps_cache r false w 40120 (ErrorObject "unavailable"))
    as (_ & He & Hl & Hc & _).
  - vm_compute. reflexivity.
  - reflexivity.
  - split; [exact He|]. split; [exact Hl | exact Hc].
Defined.

(** C6: with [forceRefresh = true] the load makes exactly one remote read,
    whatever the cache holds; when the read succeeds, the result is stored
    under the key with the clock reading of that moment and the version of
    the render plus one, the version counter goes up by one, and the result
    is what the hook shows. *)
Theorem fetchData_force_refresh (r : Closure) (w : World) :
  let q := buildQuery (collectionName r) (filters r) in
  let key := cacheKey (collectionName r) (filters r) in
  let w' := snd (fetchData r true w) in
  trace w' = (trace w ++ [EvGetDocs q])%list
  /\ remoteReads (trace w') = S (remoteReads (trace w))
  /\ forall docs,
       snd (getDocs_answer (remote w) q (clock w)) = inr docs ->
       let item := {| CacheItem.data := map docToRecord docs;
                      CacheItem.timestamp := fst (getDocs_answer (remote w) q (clock w));
                      CacheItem.version := captured_version r + 1 |} in
       fst (fetchData r true w) = Returned tt
       /\ cache (hook w') = <[key := item]> (captured_cache r)
       /\ cache (hook w') !! key = Some item
       /\ version (hook w') = version (hook w) + 1
       /\ data (hook w') = map docToRecord docs
       /\ clock w' = CacheItem.timestamp item
       /\ loading (hook w') = false
       /\ error (hook w') = None.
Proof.
  intros q key w'. subst w'.
  destruct (getDocs_answer (remote w) q (clock w)) as [t [err|docs]] eqn:Hans.
  - subst q. rewrite (fetchData_miss_err r true w t err (cacheHit_forced r _) Hans).
    cbn. split; [reflexivity|]. split; [apply remoteReads_snoc|].
    intros docs [=].
  - subst q. rewrite (fetchData_miss_ok r true w t docs (cacheHit_forced r _) Hans).
    cbn. split; [reflexivity|]. split; [apply remoteReads_snoc|].
    intros docs' [= <-]. subst key.
    repeat split; try reflexivity. apply lookup_insert_eq.
Qed.

Lemma fetchData_force_refresh_witness :
  let r := employeesRender afterFirstLoad in
  let w := worldAt 10000 healthyRemote afterFirstLoad in
  remoteReads (trace (snd (fetchData r true w))) = 1%nat
  /\ version (hook (snd (fetchData r true w))) = 2
  /\ cache (hook (snd (fetchData r true w))) !! cacheKey "employees" employeesFilter
     = Some {| CacheItem.data := [[("id", JString "e1"); ("name", JString "Al")]];
               CacheItem.timestamp := 10120; CacheItem.version := 2 |}.
Proof.
  intros r w.
  destruct (fetchData_force_refresh r w) as (_ & Hn & H).
  destruct (H employeesDocs eq_refl) as (_ & _ & Hk & Hv & _).
  split; [exact Hn|]. split; [exact Hv | exact Hk].
Defined.

(** The three loads of the specification's scenario: a remote read at time
    0, a cache hit at 10000, a second remote read at 40000. *)
Example employees_scenario :
  let w1 := snd (fetchData (employeesRender initialState) false
                   (worldAt 0 healthyRemote initialState)) in
  let w2 := snd (fetchData (employeesRender (hook w1)) false
                   (worldAt 10000 healthyRemote (hook w1))) in
  let w3 := snd (fetchData (employeesRender (hook w2)) false
                   (worldAt 40000 healthyRemote (hook w2))) in
  remoteReads (trace w1) = 1%nat
  /\ data (hook w1) = [[("id", JString "e1"); ("name", JString "Al")]]
  /\ remoteReads (trace w2) = 0%nat
  /\ data (hook w2) = data (hook w1)
  /\ remoteReads (trace w3) = 1%nat
  /\ version (hook w3) = 2.
Proof. vm_compute. repeat split; reflexivity. Qed.

Lemma fetchData_trace (r : Closure) (forceRefresh : bool) (w : World) :
  trace (snd (fetchData r forceRefresh w)) =
    if cacheHit r forceRefresh (clock w) then trace w
    else (trace w ++ [EvGetDocs (buildQuery (collectionName r) (filters r))])%list.
Proof.
  destruct (cacheHit r forceRefresh (clock w)) eqn:Hhit.
  - destruct (proj1 (cacheHit_true r forceRefresh (clock w)) Hhit) as (cached & Hc & _).
    now rewrite (fetchData_hit r forceRefresh w cached Hc Hhit).
  - destruct (getDocs_answer (remote w) (buildQuery (collectionName r) (filters r))
                (clock w)) as [t [err|docs]] eqn:Hans.
    + now rewrite (fetchData_miss_err r forceRefresh w t err Hhit Hans).
    + now rewrite (fetchData_miss_ok r forceRefresh w t docs Hhit Hans).
Qed.

(** ** The query *)

Section QueryFacts.

Lemma buildQuery_fold (f : JsObject) (q0 : Query) :
  q_collection
    (fold_left (fun q kv => if isFilterValue (snd kv)
                            then query_where q (fst kv) (snd kv) else q) f q0)
    = q_collection q0
  /\ q_where
       (fold_left (fun q kv => if isFilterValue (snd kv)
                               then query_where q (fst kv) (snd kv) else q) f q0)
     = (q_where q0 ++ List.filter (fun kv => isFilterValue (snd kv)) f)%list.
Proof.
  revert q0; induction f as [|[k v] f IH]; intros q0; cbn.
  - now rewrite List.app_nil_r.
  - destruct (isFilterValue v) eqn:E; cbn.
    + destruct (IH (query_where q0 k v)) as [-> ->]. cbn.
      now rewrite <- List.app_assoc.
    + apply IH.
Qed.

Lemma buildQuery_where (c : string) (f : JsObject) :
  q_where (buildQuery c f) = List.filter (fun kv => isFilterValue (snd kv)) f.
Proof. unfold buildQuery. now destruct (buildQuery_fold f (collection c)) as [_ ->]. Qed.

Lemma buildQuery_collection (c : string) (f : JsObject) :
  q_collection (buildQuery c f) = c.
Proof. unfold buildQuery. now destruct (buildQuery_fold f (collection c)) as [-> _]. Qed.

Lemma isFilterValue_true (v : JsValue) :
  isFilterValue v = true <-> v <> JNull /\ v <> JUndefined.
Proof. destruct v; cbn; split; intros H; try discriminate H; try (split; discriminate); try reflexivity; destruct H; congruence. Qed.

End QueryFacts.

(** C7: the query of a load, and of the live subscription, is on the
    hook's collection and carries one equality constraint for each filter
    whose value is neither [null] nor [undefined], and no other; a document
    matches iff it satisfies all of them. *)
Theorem buildQuery_filters (c : string) (f : JsObject) :
  q_collection (buildQuery c f) = c
  /\ q_where (buildQuery c f) = List.filter (fun kv => isFilterValue (snd kv)) f
  /\ (forall k v, In (k, v) (q_where (buildQuery c f))
                  <-> In (k, v) f /\ v <> JNull /\ v <> JUndefined)
  /\ (forall fields, matches (buildQuery c f) fields
                     <-> forall k v, In (k, v) f -> v <> JNull -> v <> JUndefined ->
                                     getProp fields k = v)
  /\ (forall r forceRefresh w,
        collectionName r = c -> filters r = f ->
        trace (snd (fetchData r forceRefresh w)) = trace w
        \/ trace (snd (fetchData r forceRefresh w))
           = (trace w ++ [EvGetDocs (buildQuery c f)])%list)
  /\ (forall x backgroundUpdate p,
        created (listenerEffect x c f backgroundUpdate p) = created p
        \/ created (listenerEffect x c f backgroundUpdate p)
           = (created p ++ [buildQuery c f])%list).
Proof.
  assert (forall k v, In (k, v) (q_where (buildQuery c f))
                      <-> In (k, v) f /\ v <> JNull /\ v <> JUndefined) as Hin.
  { intros k v. rewrite buildQuery_where, List.filter_In. cbn.
    now rewrite isFilterValue_true. }
  split; [apply buildQuery_collection|].
  split; [apply buildQuery_where|].
  split; [exact Hin|].
  split; [|split].
  - intros fields. unfold matches. rewrite List.Forall_forall. split.
    + intros H k v Hk Hn Hu. apply (H (k, v)). apply Hin. auto.
    + intros H [k v] Hk. apply Hin in Hk as (Hk & Hn & Hu). now apply H.
  - intros r forceRefresh w <- <-. rewrite fetchData_trace.
    destruct (cacheHit r forceRefresh (clock w)); auto.
  - intros x backgroundUpdate p. unfold listenerEffect.
    destruct backgroundUpdate; cbn; [|now left].
    destruct (activeListeners p !! _); cbn; auto.
Qed.

Lemma buildQuery_filters_witness :
  q_where (buildQuery "checks"
             [("companyId", JString "A"); ("status", JNull); ("reviewer", JUndefined)])
    = [("companyId", JString "A")]
  /\ matches (buildQuery "checks"
                [("companyId", JString "A"); ("status", JNull); ("reviewer", JUndefined)])
             [("id", JString "c1"); ("companyId", JString "A"); ("status", JString "paid")].
Proof.
  destruct (buildQuery_filters "checks"
              [("companyId", JString "A"); ("status", JNull); ("reviewer", JUndefined)])
    as (_ & Hw & _ & Hm & _).
  split; [exact Hw|].
  apply Hm. intros k v Hin Hn Hu.
  destruct Hin as [[= <- <-] | [[= <- <-] | [[= <- <-] | []]]];
    [reflexivity | contradiction | contradiction].
Defined.

(** ** The cache sweeper *)

Section Sweeper.

Variables (ct now : Z) (cache0 : gmap string CacheItem.t).

Lemma cleanLoop_spec :
  (forall k, fst (cleanLoop ct now cache0) !! k =
             match cache0 !! k with
             | Some item => if expired ct now item then None else Some item
             | None => None
             end)
  /\ (snd (cleanLoop ct now cache0) = true <->
      exists k item, cache0 !! k = Some item /\ expired ct now item = true).
Proof.
  unfold cleanLoop.
  enough (forall m : gmap string CacheItem.t,
    let acc := map_fold
      (fun key item acc =>
         if expired ct now item then (delete key (fst acc), true) else acc)
      (cache0, false) m in
    (forall k, fst acc !! k =
               match m !! k with
               | Some item => if expired ct now item then None else cache0 !! k
               | None => cache0 !! k
               end)
    /\ (snd acc = true <->
        exists k item, m !! k = Some item /\ expired ct now item = true)) as H.
  { destruct (H cache0) as [H1 H2]. split; [|exact H2].
    intros k. rewrite H1. destruct (cache0 !! k) as [item|]; reflexivity. }
  intros m. cbv zeta. apply (map_fold_weak_ind (fun acc m =>
    (forall k, fst acc !! k =
               match m !! k with
               | Some item => if expired ct now item then None else cache0 !! k
               | None => cache0 !! k
               end)
    /\ (snd acc = true <->
        exists k item, m !! k = Some item /\ expired ct now item = true))).
  - split.
    + intros k. now rewrite lookup_empty.
    + cbn. split; [discriminate|]. intros (k & item & Hk & _).
      now rewrite lookup_empty in Hk.
  - intros i x m' acc Hi [IH1 IH2]. destruct (expired ct now x) eqn:Hx; cbn.
    + split.
      * intros k. destruct (decide (i = k)) as [<-|Hne].
        -- now rewrite lookup_delete_eq, lookup_insert_eq, Hx.
        -- rewrite lookup_delete_ne, lookup_insert_ne by assumption. apply IH1.
      * split; [|reflexivity]. intros _. exists i, x.
        now rewrite lookup_insert_eq.
    + split.
      * intros k. destruct (decide (i = k)) as [<-|Hne].
        -- rewrite lookup_insert_eq, Hx, IH1, Hi. reflexivity.
        -- rewrite lookup_insert_ne by assumption. apply IH1.
      * rewrite IH2. split; intros (k & item & Hk & He).
        -- exists k, item. split; [|exact He].
           rewrite lookup_insert_ne; [exact Hk|]. intros <-. congruence.
        -- destruct (decide (i = k)) as [<-|Hne].
           ++ rewrite lookup_insert_eq in Hk. congruence.
           ++ rewrite lookup_insert_ne in Hk by assumption. eauto.
Qed.

End Sweeper.

Lemma cleanupTick_cache (r : Closure) (w : World) :
  captured_cache r = cache (hook w) ->
  forall k, cache (hook (snd (cleanupTick r w))) !! k =
            match cache (hook w) !! k with
            | Some item => if expired (cacheTime r) (clock w) item then None else Some item
            | None => None
            end.
Proof.
  intros Hcur k. unfold cleanupTick. unfold_M.
  destruct (cleanLoop_spec (cacheTime r) (clock w) (captured_cache r)) as [H1 H2].
  destruct (cleanLoop (cacheTime r) (clock w) (captured_cache r)) as [newCache cleaned].
  cbn in H1, H2. destruct cleaned; cbn.
  - rewrite H1, Hcur. reflexivity.
  - rewrite <- Hcur. destruct (captured_cache r !! k) as [item|] eqn:Hk; [|reflexivity].
    destruct (expired (cacheTime r) (clock w) item) eqn:He; [|reflexivity].
    assert (false = true) as [=]. apply H2. eauto.
Qed.

Lemma cleanupTick_frame (r : Closure) (w : World) :
  fst (cleanupTick r w) = Returned tt
  /\ trace (snd (cleanupTick r w)) = trace w
  /\ data (hook (snd (cleanupTick r w))) = data (hook w)
  /\ version (hook (snd (cleanupTick r w))) = version (hook w).
Proof.
  unfold cleanupTick. unfold_M.
  destruct (cleanLoop (cacheTime r) (clock w) (captured_cache r)) as [newCache []];
    cbn; auto.
Qed.

(** C8: the sweeper is an interval callback with a delay of 60000 ms.  A
    pass at clock reading [now] keeps an entry iff
    [now - timestamp > cacheTime] does not hold of it, removes all others,
    and makes no remote call; the next load for a key whose entry was
    removed, issued from the render that follows with the cache as the
    sweeper left it, makes a remote read. *)
Theorem cleanup_evicts_expired (r : Closure) (w : World) :
  captured_cache r = cache (hook w) ->
  let w' := snd (cleanupTick r w) in
  delay (cacheCleanupEffect r) = 60000
  /\ callback (cacheCleanupEffect r) = cleanupTick r
  /\ trace w' = trace w
  /\ (forall k item,
        cache (hook w') !! k = Some item <->
        cache (hook w) !! k = Some item
        /\ ~ (clock w - CacheItem.timestamp item > cacheTime r))
  /\ (forall k item,
        cache (hook w) !! k = Some item ->
        clock w - CacheItem.timestamp item > cacheTime r ->
        cache (hook w') !! k = None
        /\ forall r' forceRefresh w2,
             captured_cache r' = cache (hook w') ->
             cacheKey (collectionName r') (filters r') = k ->
             trace (snd (fetchData r' forceRefresh w2))
               = (trace w2 ++ [EvGetDocs (buildQuery (collectionName r') (filters r'))])%list
             /\ remoteReads (trace (snd (fetchData r' forceRefresh w2)))
                = S (remoteReads (trace w2))).
Proof.
  intros Hcur w'. subst w'.
  pose proof (cleanupTick_cache r w Hcur) as Hc.
  destruct (cleanupTick_frame r w) as (_ & Ht & _).
  split; [reflexivity|]. split; [reflexivity|]. split; [exact Ht|]. split.
  - intros k item. rewrite Hc. unfold expired.
    destruct (cache (hook w) !! k) as [item'|]; [|split; [discriminate | intros [[=] _]]].
    case_bool_decide as Hexp; split.
    + discriminate.
    + intros [[= ->] Hn]. contradiction.
    + intros [= ->]. auto.
    + intros [[= ->] _]. reflexivity.
  - intros k item Hk Hexp.
    assert (cache (hook (snd (cleanupTick r w))) !! k = None) as Hgone.
    { rewrite Hc, Hk. unfold expired. now rewrite bool_decide_eq_true_2. }
    split; [exact Hgone|].
    intros r' forceRefresh w2 Hcap Hkey.
    assert (cacheHit r' forceRefresh (clock w2) = false) as Hmiss.
    { unfold cacheHit. now rewrite Hkey, Hcap, Hgone. }
    rewrite fetchData_trace, Hmiss. split; [reflexivity | apply remoteReads_snoc].
Qed.

Lemma cleanup_evicts_expired_witness :
  let r := employeesRender afterFirstLoad in
  let w := worldAt 400000 healthyRemote afterFirstLoad in
  let st' := hook (snd (cleanupTick r w)) in
  cache st' !! cacheKey "employees" employeesFilter = None
  /\ remoteReads
       (trace (snd (fetchData (employeesRender st') false (worldAt 400001 healthyRemote st'))))
     = 1%nat.
Proof.
  intros r w st'.
  destruct (cleanup_evicts_expired r w eq_refl) as (_ & _ & _ & _ & H).
  destruct (H (cacheKey "employees" employeesFilter)
              {| CacheItem.data := [[("id", JString "e1"); ("name", JString "Al")]];
                 CacheItem.timestamp := 120; CacheItem.version := 1 |})
    as [Hgone Hnext].
  - vm_compute. reflexivity.
  - vm_compute. reflexivity.
  - split; [exact Hgone|].
    destruct (Hnext (employeesRender st') false (worldAt 400001 healthyRemote st')
                eq_refl eq_refl) as [_ Hn].
    exact Hn.
Defined.

(** ** Optimistic updates *)

Section Objects.

Lemma getProp_setProp (o : JsObject) (k k' : string) (v : JsValue) :
  getProp (setProp o k v) k' = if decide (k = k') then v else getProp o k'.
Proof.
  unfold getProp. induction o as [|[k0 v0] o IH]; cbn.
  - destruct (decide (k = k')); [now rewrite bool_decide_eq_true_2
                                | now rewrite bool_decide_eq_false_2].
  - destruct (decide (k0 = k)) as [->|Hne]; cbn.
    + destruct (decide (k = k')); [now rewrite bool_decide_eq_true_2|].
      now rewrite !bool_decide_eq_false_2.
    + destruct (decide (k0 = k')) as [->|Hne'].
      * rewrite bool_decide_eq_true_2 by reflexivity.
        destruct (decide (k = k')); [congruence | reflexivity].
      * rewrite bool_decide_eq_false_2 by assumption. apply IH.
Qed.

(** A key that [updates] does not mention keeps its value. *)
Lemma getProp_spread_other (o updates : JsObject) (k : string) :
  ~ In k (map fst updates) -> getProp (spread o updates) k = getProp o k.
Proof.
  unfold spread. revert o; induction updates as [|[k0 v0] u IH]; intros o Hk; cbn.
  - reflexivity.
  - rewrite IH by (intros H; apply Hk; now right).
    rewrite getProp_setProp. destruct (decide (k0 = k)); [|reflexivity].
    exfalso. apply Hk. now left.
Qed.

(** A key of [updates] takes the value given there. *)
Lemma getProp_spread_updated (o updates : JsObject) (k : string) (v : JsValue) :
  List.NoDup (map fst updates) -> In (k, v) updates ->
  getProp (spread o updates) k = v.
Proof.
  unfold spread. revert o; induction updates as [|[k0 v0] u IH]; intros o Hnd Hin.
  - destruct Hin.
  - cbn in Hnd. apply List.NoDup_cons_iff in Hnd as [Hk0 Hnd]. cbn.
    destruct Hin as [[= -> ->] | Hin].
    + fold (spread (setProp o k v) u). rewrite getProp_spread_other by assumption.
      rewrite getProp_setProp. now destruct (decide (k = k)).
    + now apply IH.
Qed.

Lemma applyUpdate_lookup (itemId : string) (updates : JsObject)
    (prev : list JsObject) (i : nat) :
  applyUpdate itemId updates prev !! i =
    (fun item => if decide (getProp item "id" = JString itemId)
                 then spread item updates else item) <$> prev !! i.
Proof. unfold applyUpdate. apply list_lookup_fmap. Qed.

End Objects.

Lemma optimisticUpdate_off (r : Closure) (itemId : string) (updates : JsObject)
    (rollback : option Callback) (w : World) :
  optimisticUpdates r = false ->
  optimisticUpdate r itemId updates rollback w = (Returned tt, w).
Proof. intros H. unfold optimisticUpdate. rewrite H. reflexivity. Qed.

(** C10: with [optimisticUpdates] off, [optimisticUpdate] returns at once
    and changes nothing: no local change, no remote write, no refetch, no
    call of [rollback]. *)
Theorem optimisticUpdate_disabled (r : Closure) (itemId : string)
    (updates : JsObject) (rollback : option Callback) (w : World) :
  optimisticUpdates r = false ->
  fst (optimisticUpdate r itemId updates rollback w) = Returned tt
  /\ snd (optimisticUpdate r itemId updates rollback w) = w
  /\ data (hook (snd (optimisticUpdate r itemId updates rollback w))) = data (hook w)
  /\ remoteWrites (trace (snd (optimisticUpdate r itemId updates rollback w)))
     = remoteWrites (trace w)
  /\ remoteReads (trace (snd (optimisticUpdate r itemId updates rollback w)))
     = remoteReads (trace w)
  /\ callbackCalls (trace (snd (optimisticUpdate r itemId updates rollback w)))
     = callbackCalls (trace w).
Proof.
  intros H. rewrite (optimisticUpdate_off r itemId updates rollback w H).
  cbn. repeat split; reflexivity.
Qed.

Lemma optimisticUpdate_disabled_witness :
  let r := render "employees" employeesFilter
             {| opt_cacheTime := None; opt_staleTime := None;
                opt_backgroundUpdate := None; opt_optimisticUpdates := Some false |}
             afterFirstLoad in
  let w := worldAt 500 brokenRemote afterFirstLoad in
  snd (optimisticUpdate r "e1" [("name", JString "Alan")] (Some 7%nat) w) = w.
Proof.
  intros r w.
  exact (proj1 (proj2 (optimisticUpdate_disabled r "e1" [("name", JString "Alan")]
                         (Some 7%nat) w eq_refl))).
Defined.

Lemma fetchData_returns (r : Closure) (forceRefresh : bool) (w : World) :
  fst (fetchData r forceRefresh w) = Returned tt.
Proof.
  destruct (cacheHit r forceRefresh (clock w)) eqn:Hhit.
  - destruct (proj1 (cacheHit_true r forceRefresh (clock w)) Hhit) as (cached & Hc & _).
    now rewrite (fetchData_hit r forceRefresh w cached Hc Hhit).
  - destruct (getDocs_answer (remote w) (buildQuery (collectionName r) (filters r))
                (clock w)) as [t [err|docs]] eqn:Hans.
    + now rewrite (fetchData_miss_err r forceRefresh w t err Hhit Hans).
    + now rewrite (fetchData_miss_ok r forceRefresh w t docs Hhit Hans).
Qed.

(** C5: with optimistic updates on, [optimisticUpdate] first replaces, in
    the local [data], every record whose [id] is [itemId] by that record
    merged with [updates], leaving the other records as they are, and only
    then issues the remote write; when the write fails it calls [rollback]
    (if one was given) and then runs [fetchData(true)]. *)
Theorem optimisticUpdate_merge_then_commit (r : Closure) (itemId : string)
    (updates : JsObject) (rollback : option Callback) (w : World) :
  optimisticUpdates r = true ->
  let patched := applyUpdate itemId updates (data (hook w)) in
  let st1 := {| data := patched; loading := loading (hook w); error := error (hook w);
                cache := cache (hook w); version := version (hook w) |} in
  let w1 := {| hook := st1; clock := clock w; remote := remote w; trace := trace w |} in
  let write := EvUpdateDoc (collectionName r) itemId updates in
  optimisticUpdate r itemId updates rollback w = commitUpdate r itemId updates rollback w1
  /\ length patched = length (data (hook w))
  /\ (forall i item,
        data (hook w) !! i = Some item ->
        patched !! i = Some (if decide (getProp item "id" = JString itemId)
                             then spread item updates else item))
  /\ (forall item k v,
        List.NoDup (map fst updates) -> In (k, v) updates ->
        getProp (spread item updates) k = v)
  /\ (forall item k,
        ~ In k (map fst updates) -> getProp (spread item updates) k = getProp item k)
  /\ (forall t,
        updateDoc_answer (remote w) (collectionName r) itemId updates (clock w) = (t, None) ->
        optimisticUpdate r itemId updates rollback w
        = (Returned tt,
           {| hook := st1; clock := t; remote := remote w;
              trace := (trace w ++ [write])%list |}))
  /\ (forall t err,
        updateDoc_answer (remote w) (collectionName r) itemId updates (clock w)
          = (t, Some err) ->
        let w2 := {| hook := st1; clock := t; remote := remote w;
                     trace := ((trace w ++ [write])
                                 ++ match rollback with
                                    | Some cb => [EvCall cb]
                                    | None => []
                                    end)%list |} in
        optimisticUpdate r itemId updates rollback w = fetchData r true w2
        /\ trace (snd (optimisticUpdate r itemId updates rollback w))
           = (trace w2 ++ [EvGetDocs (buildQuery (collectionName r) (filters r))])%list).
Proof.
  intros Hon patched st1 w1 write.
  assert (optimisticUpdate r itemId updates rollback w
          = commitUpdate r itemId updates rollback w1) as Hsplit.
  { unfold optimisticUpdate. rewrite Hon. reflexivity. }
  split; [exact Hsplit|].
  split; [apply length_map|].
  split.
  { intros i item Hi. subst patched. now rewrite applyUpdate_lookup, Hi. }
  split; [intros item k v; apply getProp_spread_updated|].
  split; [intros item k; apply getProp_spread_other|].
  split.
  - intros t Hans. rewrite Hsplit.
    unfold commitUpdate, tryCatch, tryCatchFinally, updateDoc. cbn.
    rewrite Hans. reflexivity.
  - intros t err Hans w2.
    assert (commitUpdate r itemId updates rollback w1 = fetchData r true w2) as Hfail.
    { unfold commitUpdate, tryCatch, tryCatchFinally, updateDoc. cbn.
      rewrite Hans. subst w2.
      destruct rollback as [cb|]; unfold_M; rewrite ?List.app_nil_r.
      - pose proof (fetchData_returns r true
                      {| hook := st1; clock := t; remote := remote w;
                         trace := ((trace w ++ [write]) ++ [EvCall cb])%list |}) as Hret.
        destruct (fetchData r true _) as [[[]|e] w3]; [reflexivity | discriminate Hret].
      - pose proof (fetchData_returns r true
                      {| hook := st1; clock := t; remote := remote w;
                         trace := (trace w ++ [write])%list |}) as Hret.
        destruct (fetchData r true _) as [[[]|e] w3]; [reflexivity | discriminate Hret]. }
    rewrite Hsplit, Hfail. split; [reflexivity|].
    now rewrite fetchData_trace, cacheHit_forced.
Qed.

Lemma optimisticUpdate_merge_then_commit_witness :
  let r := employeesRender afterFirstLoad in
  let w := worldAt 500 brokenRemote afterFirstLoad in
  let w' := snd (optimisticUpdate r "e1" [("name", JString "Alan")] (Some 7%nat) w) in
  trace w' = [EvUpdateDoc "employees" "e1" [("name", JString "Alan")];
              EvCall 7%nat;
              EvGetDocs (buildQuery "employees" employeesFilter)]
  /\ applyUpdate "e1" [("name", JString "Alan")] (data afterFirstLoad)
     = [[("id", JString "e1"); ("name", JString "Alan")]].
Proof.
  intros r w w'.
  destruct (optimisticUpdate_merge_then_commit r "e1" [("name", JString "Alan")]
              (Some 7%nat) w eq_refl) as (_ & _ & _ & _ & _ & _ & Hfail).
  destruct (Hfail 580 (ErrorObject "permission-denied") eq_refl) as [_ Ht].
  split; [exact Ht | reflexivity].
Defined.

(** ** The listener registry *)

Section Registry.

Lemma initial_inv : registryInv initialProc.
Proof.
  split; cbn.
  - intros h s H. now rewrite lookup_empty in H.
  - intros k h H. now rewrite lookup_empty in H.
  - intros h [s H]. now rewrite lookup_empty in H.
Qed.

Lemma listenerEffect_inv (x : nat) (c : string) (f : JsObject) (bg : bool) (p : Proc) :
  registryInv p -> registryInv (listenerEffect x c f bg p).
Proof.
  intros [Hl Hr Hf]. unfold listenerEffect.
  destruct bg; cbn; [|now split].
  destruct (activeListeners p !! listenerKey c f true) as [h0|] eqn:Hk; [now split|].
  assert (live p !! length (created p) = None) as Hnew.
  { destruct (live p !! length (created p)) eqn:E; [|reflexivity].
    specialize (Hf (length (created p)) (mk_is_Some _ _ E)). lia. }
  split; cbn.
  - intros h s H. destruct (decide (length (created p) = h)) as [<-|Hne].
    + rewrite lookup_insert_eq in H. injection H as <-. cbn.
      now rewrite lookup_insert_eq.
    + rewrite lookup_insert_ne in H by assumption.
      rewrite lookup_insert_ne; [now apply Hl|].
      intros E. apply Hl in H. rewrite <- E in H. congruence.
  - intros k h H. destruct (decide (listenerKey c f true = k)) as [<-|Hne].
    + rewrite lookup_insert_eq in H. injection H as <-.
      rewrite lookup_insert_eq. eauto.
    + rewrite lookup_insert_ne in H by assumption.
      destruct (Hr k h H) as (s & Hs & Hks). exists s. split; [|exact Hks].
      rewrite lookup_insert_ne; [exact Hs|]. intros E. congruence.
  - intros h [s H]. rewrite List.length_app. cbn.
    destruct (decide (length (created p) = h)) as [<-|Hne]; [lia|].
    rewrite lookup_insert_ne in H by assumption.
    specialize (Hf h (mk_is_Some _ _ H)). lia.
Qed.

Lemma cancelListener_inv (key : string) (p : Proc) :
  registryInv p -> registryInv (cancelListener key p).
Proof.
  intros [Hl Hr Hf]. unfold cancelListener.
  destruct (activeListeners p !! key) as [h0|] eqn:Hk; [|now split].
  split; cbn.
  - intros h s H. apply lookup_delete_Some in H as [Hne H].
    rewrite lookup_delete_ne; [now apply Hl|].
    intros E. apply Hl in H. rewrite <- E in H. congruence.
  - intros k h H. apply lookup_delete_Some in H as [Hne H].
    destruct (Hr k h H) as (s & Hs & Hks). exists s. split; [|exact Hks].
    rewrite lookup_delete_ne; [exact Hs|]. intros <-.
    destruct (Hr key h0 Hk) as (s0 & Hs0 & Hks0). congruence.
  - intros h [s H]. apply lookup_delete_Some in H as [_ H].
    apply Hf. eauto.
Qed.

Lemma cancelAll_inv (keys : list string) (p : Proc) :
  registryInv p ->
  registryInv (fold_left (fun p' key => cancelListener key p') keys p).
Proof.
  revert p; induction keys as [|k keys IH]; intros p Hp; cbn; [exact Hp|].
  apply IH. now apply cancelListener_inv.
Qed.

Lemma unmountCleanup_inv (c : string) (p : Proc) :
  registryInv p -> registryInv (unmountCleanup c p).
Proof. apply cancelAll_inv. Qed.

Lemma inv_components (p : Proc) (cs : gmap nat Component) :
  registryInv p ->
  registryInv {| activeListeners := activeListeners p; live := live p;
                 created := created p; components := cs |}.
Proof. intros [Hl Hr Hf]. now split. Qed.

Lemma teardown_inv (cleanup : option string) (c : string) (p : Proc) :
  registryInv p -> registryInv (teardown cleanup c p).
Proof.
  intros Hp. unfold teardown. apply unmountCleanup_inv.
  destruct cleanup; [now apply cancelListener_inv | exact Hp].
Qed.

Lemma rerender_inv (x : nat) (c : string) (f : JsObject) (bg : bool) (p : Proc) :
  registryInv p -> registryInv (rerender x c f bg p).
Proof.
  intros Hp. unfold rerender. destruct (components p !! x) as [cx|]; [|exact Hp].
  destruct (negb (String.eqb (comp_listenerKey cx) (listenerKey c f bg))),
    (negb (String.eqb (comp_collection cx) c)), (comp_cleanup cx); cbv zeta;
    repeat first [ apply listenerEffect_inv
                 | apply (inv_components (unmountCleanup _ _))
                 | apply (inv_components (cancelListener _ _))
                 | apply inv_components
                 | apply unmountCleanup_inv
                 | apply cancelListener_inv ];
    exact Hp.
Qed.

Lemma step_inv (p : Proc) (o : Op) : registryInv p -> registryInv (step p o).
Proof.
  intros Hp. destruct o as [x c f bg|x c f bg|x|h docs|x c f bg|key|c]; cbn.
  - unfold mount. apply listenerEffect_inv. now apply inv_components.
  - now apply rerender_inv.
  - unfold unmount. destruct (components p !! x) as [cx|]; [|exact Hp].
    apply (inv_components (unmountCleanup _ _)). apply unmountCleanup_inv.
    destruct (comp_cleanup cx); [now apply cancelListener_inv | exact Hp].
  - unfold push. destruct (live p !! h); [|exact Hp].
    now apply inv_components.
  - apply listenerEffect_inv. unfold rendered. now apply inv_components.
  - now apply cancelListener_inv.
  - now apply unmountCleanup_inv.
Qed.

Lemma run_inv (ops : list Op) : registryInv (run ops).
Proof.
  unfold run. generalize initial_inv. generalize initialProc.
  induction ops as [|o ops IH]; intros p Hp; cbn; [exact Hp|].
  apply IH. now apply step_inv.
Qed.

(** What a clean-up leaves in the registry and among the live
    subscriptions. *)
Lemma cancelListener_registry (key : string) (p : Proc) :
  activeListeners (cancelListener key p) = delete key (activeListeners p).
Proof.
  unfold cancelListener. destruct (activeListeners p !! key) eqn:Hk; cbn.
  - reflexivity.
  - symmetry. now apply delete_id.
Qed.

Lemma cancelListener_live (key : string) (p : Proc) (h : nat) (s : Subscription) :
  registryInv p ->
  live (cancelListener key p) !! h = Some s <->
  live p !! h = Some s /\ sub_key s <> key.
Proof.
  intros [Hl Hr Hf]. unfold cancelListener.
  destruct (activeListeners p !! key) as [h0|] eqn:Hk; cbn.
  - rewrite lookup_delete_Some. split.
    + intros [Hne H]. split; [exact H|]. intros E. apply Hl in H.
      rewrite E in H. congruence.
    + intros [H Hne]. split; [|exact H]. intros <-.
      destruct (Hr key h0 Hk) as (s0 & Hs0 & Hks0). congruence.
  - split; [|tauto]. intros H. split; [exact H|]. intros E.
    apply Hl in H. rewrite E in H. congruence.
Qed.

Lemma cancelAll_registry (keys : list string) (p : Proc) (k : string) :
  activeListeners (fold_left (fun p' key => cancelListener key p') keys p) !! k =
    if decide (k ∈ keys) then None else activeListeners p !! k.
Proof.
  revert p; induction keys as [|k0 keys IH]; intros p; cbn.
  - rewrite decide_False; [reflexivity | apply not_elem_of_nil].
  - rewrite IH, cancelListener_registry.
    destruct (decide (k ∈ keys)) as [Hin|Hnin].
    + rewrite decide_True by (rewrite elem_of_cons; now right). reflexivity.
    + destruct (decide (k0 = k)) as [->|Hne].
      * rewrite decide_True by (rewrite elem_of_cons; now left). apply lookup_delete_eq.
      * rewrite decide_False by (rewrite elem_of_cons; intros [?|?]; congruence).
        now apply lookup_delete_ne.
Qed.

Lemma cancelAll_live (keys : list string) (p : Proc) (h : nat) (s : Subscription) :
  registryInv p ->
  live (fold_left (fun p' key => cancelListener key p') keys p) !! h = Some s <->
  live p !! h = Some s /\ sub_key s ∉ keys.
Proof.
  revert p; induction keys as [|k0 keys IH]; intros p Hp; cbn.
  - split; [intros H; split; [exact H | apply not_elem_of_nil] | tauto].
  - rewrite IH by (now apply cancelListener_inv).
    rewrite cancelListener_live by assumption.
    rewrite not_elem_of_cons. tauto.
Qed.

Lemma cancelAll_frame (keys : list string) (p : Proc) :
  created (fold_left (fun p' key => cancelListener key p') keys p) = created p
  /\ components (fold_left (fun p' key => cancelListener key p') keys p)
     = components p.
Proof.
  revert p; induction keys as [|k0 keys IH]; intros p; cbn; [auto|].
  destruct (IH (cancelListener k0 p)) as [-> ->].
  unfold cancelListener. now destruct (activeListeners p !! k0).
Qed.

Lemma keysToRemove_In (c : string) (p : Proc) (k : string) :
  k ∈ List.filter (ownedBy c) (map fst (map_to_list (activeListeners p)))
  <-> ownedBy c k = true /\ is_Some (activeListeners p !! k).
Proof.
  rewrite list_elem_of_In, List.filter_In, List.in_map_iff. split.
  - intros [([k' h] & <- & Hin) Ho]. split; [exact Ho|].
    apply list_elem_of_In, elem_of_map_to_list in Hin. cbn. eauto.
  - intros [Ho [h Hk]]. split; [|exact Ho]. exists (k, h). split; [reflexivity|].
    now apply list_elem_of_In, elem_of_map_to_list.
Qed.

Lemma unmountCleanup_registry (c : string) (p : Proc) (k : string) :
  activeListeners (unmountCleanup c p) !! k =
    if ownedBy c k then None else activeListeners p !! k.
Proof.
  unfold unmountCleanup. rewrite cancelAll_registry.
  destruct (decide _) as [Hin|Hnin].
  - apply keysToRemove_In in Hin as [-> _]. reflexivity.
  - destruct (ownedBy c k) eqn:Ho; [|reflexivity].
    destruct (activeListeners p !! k) eqn:Hk; [|reflexivity].
    exfalso. apply Hnin, keysToRemove_In. split; [exact Ho|]. rewrite Hk. eauto.
Qed.

Lemma unmountCleanup_live (c : string) (p : Proc) (h : nat) (s : Subscription) :
  registryInv p ->
  live (unmountCleanup c p) !! h = Some s <->
  live p !! h = Some s /\ ownedBy c (sub_key s) = false.
Proof.
  intros Hp. unfold unmountCleanup. rewrite cancelAll_live by assumption.
  rewrite keysToRemove_In. split; intros [Hs Hn]; (split; [exact Hs|]).
  - destruct (ownedBy c (sub_key s)) eqn:Ho; [|reflexivity].
    exfalso. apply Hn. split; [reflexivity|].
    rewrite (inv_live p Hp h s Hs). eauto.
  - intros [Ho _]. congruence.
Qed.

(** What the two clean-ups of an unmounting instance leave. *)
Lemma teardown_registry (cleanup : option string) (c : string) (p : Proc) (k : string) :
  activeListeners (teardown cleanup c p) !! k =
    if ownedBy c k || bool_decide (cleanup = Some k)
    then None else activeListeners p !! k.
Proof.
  unfold teardown. rewrite unmountCleanup_registry.
  destruct (ownedBy c k); [reflexivity|]. cbn.
  destruct cleanup as [key|].
  - rewrite cancelListener_registry. case_bool_decide as E.
    + injection E as ->. apply lookup_delete_eq.
    + apply lookup_delete_ne. congruence.
  - now rewrite bool_decide_eq_false_2.
Qed.

Lemma teardown_live (cleanup : option string) (c : string) (p : Proc)
    (h : nat) (s : Subscription) :
  registryInv p ->
  live (teardown cleanup c p) !! h = Some s <->
  live p !! h = Some s /\ ownedBy c (sub_key s) = false /\ cleanup <> Some (sub_key s).
Proof.
  intros Hp. unfold teardown. destruct cleanup as [key|].
  - rewrite unmountCleanup_live by (now apply cancelListener_inv).
    rewrite cancelListener_live by assumption.
    split; [intros [[? ?] ?] | intros (? & ? & ?)]; repeat split; auto; congruence.
  - rewrite unmountCleanup_live by assumption.
    split; [intros [? ?] | intros (? & ? & ?)]; repeat split; auto; discriminate.
Qed.

Lemma teardown_frame (cleanup : option string) (c : string) (p : Proc) :
  created (teardown cleanup c p) = created p
  /\ components (teardown cleanup c p) = components p.
Proof.
  unfold teardown, unmountCleanup.
  destruct (cancelAll_frame
              (List.filter (ownedBy c)
                 (map fst (map_to_list
                    (activeListeners (match cleanup with
                                      | Some key => cancelListener key p
                                      | None => p
                                      end)))))
              (match cleanup with
               | Some key => cancelListener key p
               | None => p
               end)) as [-> ->].
  destruct cleanup as [key|]; [|auto].
  unfold cancelListener. now destruct (activeListeners p !! key).
Qed.

End Registry.

Lemma listenerEffect_twice (x y : nat) (c : string) (f : JsObject) (p : Proc) :
  listenerEffect y c f true (listenerEffect x c f true p) = listenerEffect x c f true p.
Proof.
  unfold listenerEffect at 2. cbn.
  destruct (activeListeners p !! listenerKey c f true) as [h|] eqn:Hk.
  - unfold listenerEffect. cbn. now rewrite Hk.
  - unfold listenerEffect. cbn. now rewrite lookup_insert_eq.
Qed.

(** C4: in every state the process can reach, two live remote
    subscriptions never belong to the same listener key; and when the
    effect runs twice for one key (with background updates on) and no
    clean-up in between, [onSnapshot] is called once: the first run
    registers the subscription, the second run changes nothing. *)
Theorem registry_one_subscription_per_key
    (ops : list Op) (x y : nat) (c : string) (f : JsObject) :
  let p := run ops in
  let p1 := listenerEffect x c f true p in
  let p2 := listenerEffect y c f true p1 in
  (forall h1 h2 s1 s2,
     live p !! h1 = Some s1 -> live p !! h2 = Some s2 ->
     sub_key s1 = sub_key s2 -> h1 = h2)
  /\ p2 = p1
  /\ (activeListeners p !! listenerKey c f true = None ->
      created p2 = (created p ++ [buildQuery c f])%list
      /\ activeListeners p2 !! listenerKey c f true = Some (length (created p))
      /\ live p2 !! length (created p)
         = Some {| sub_key := listenerKey c f true; sub_query := buildQuery c f;
                   sub_owner := x |})
  /\ (is_Some (activeListeners p !! listenerKey c f true) -> p2 = p).
Proof.
  intros p p1 p2. split; [|split; [|split]].
  - intros h1 h2 s1 s2 H1 H2 E.
    pose proof (inv_live p (run_inv ops) h1 s1 H1) as K1.
    pose proof (inv_live p (run_inv ops) h2 s2 H2) as K2.
    rewrite E in K1. congruence.
  - apply listenerEffect_twice.
  - intros Hk. subst p2 p1. rewrite listenerEffect_twice.
    unfold listenerEffect. cbn. rewrite Hk. cbn.
    split; [reflexivity|]. split; apply lookup_insert_eq.
  - intros [h Hk]. subst p2 p1. rewrite listenerEffect_twice.
    unfold listenerEffect. cbn. now rewrite Hk.
Qed.

Lemma registry_one_subscription_per_key_witness :
  created (listenerEffect 2 "employees" [] true
             (listenerEffect 1 "employees" [] true (run [])))
  = [buildQuery "employees" []].
Proof.
  destruct (registry_one_subscription_per_key [] 1 2 "employees" [])
    as (_ & _ & H & _).
  destruct (H eq_refl) as [Hc _]. exact Hc.
Defined.

(** C9, as stated, fails: X and Y both use ["employees"] with no filters;
    once X has unmounted, Y is still mounted but the registry is empty and
    no remote subscription is live, so nothing is pushed to Y any more. *)
Lemma unmount_stops_other_consumers :
  let p2 := run [OpMount 1 "employees" [] true; OpMount 2 "employees" [] true] in
  let p3 := unmount 1 p2 in
  is_Some (live p2 !! 0%nat)
  /\ is_Some (components p3 !! 2%nat)
  /\ activeListeners p3 !! listenerKey "employees" [] true = None
  /\ live p3 !! 0%nat = None
  /\ ~ receivesPushes 2 p3
  /\ dataOf 2 (push 0 employeesDocs p3) = Some [].
Proof.
  cbv zeta.
  assert (live (unmount 1
            (run [OpMount 1 "employees" [] true; OpMount 2 "employees" [] true])) = ∅)
    as Hlive by (vm_compute; reflexivity).
  split; [vm_compute; eauto|]. split; [vm_compute; eauto|].
  split; [vm_compute; reflexivity|]. split; [vm_compute; reflexivity|].
  split.
  - intros (h & s & Hs & _). rewrite Hlive, lookup_empty in Hs. discriminate Hs.
  - vm_compute. reflexivity.
Qed.

(** Y's own subscription, for another filter on the same collection, is
    torn down by X's unmount as well. *)
Example unmount_cancels_other_filters :
  let p2 := run [OpMount 1 "checks" [] true;
                 OpMount 2 "checks" [("companyId", JString "A")] true] in
  receivesPushes 2 p2 /\ ~ receivesPushes 2 (unmount 1 p2).
Proof.
  cbv zeta. split.
  - exists 1%nat. eexists. split; [vm_compute; reflexivity | reflexivity].
  - assert (live (unmount 1
              (run [OpMount 1 "checks" [] true;
                    OpMount 2 "checks" [("companyId", JString "A")] true])) = ∅)
      as Hlive by (vm_compute; reflexivity).
    intros (h & s & Hs & _). rewrite Hlive, lookup_empty in Hs. discriminate Hs.
Qed.

Lemma prefix_append (a b : string) : String.prefix a (a +:+ b) = true.
Proof.
  induction a as [|x a IH]; [now destruct b|].
  rewrite append_cons. cbn. destruct (Ascii.ascii_dec x x); [exact IH | contradiction].
Qed.

Lemma listenerKey_owned (c : string) (f : JsObject) (bg : bool) :
  ownedBy c (listenerKey c f bg) = true.
Proof.
  unfold ownedBy, listenerKey.
  change (c +:+ ":" +:+ JSON.stringify f +:+ ":" +:+ boolToString bg)
    with (c +:+ (":" +:+ (JSON.stringify f +:+ ":" +:+ boolToString bg))).
  rewrite <- append_assoc. apply prefix_append.
Qed.

(** C9 (amended): when a consumer unmounts, its teardown runs the clean-up
    its real-time effect last returned, if it returned one, and then the
    clean-up that closes over the collection name of its latest render.
    Together they cancel and remove the registry entry under the key of the
    first clean-up and every entry whose key begins with that collection
    name followed by a colon, whoever registered it and whoever still uses
    it (there is no reference counting).  Every entry whose key is neither
    is kept, and so is the state of every consumer; a key of another
    collection is kept unless it begins with that prefix.  Afterwards no
    subscription under a key with that prefix is live, and a push on a
    cancelled subscription reaches no consumer. *)
Theorem teardown_removes_prefixed_listeners
    (ops : list Op) (cleanup : option string) (c : string) :
  let p := run ops in
  let p' := teardown cleanup c p in
  (forall k,
     activeListeners p' !! k =
       if ownedBy c k || bool_decide (cleanup = Some k)
       then None else activeListeners p !! k)
  /\ (forall f bg, activeListeners p' !! listenerKey c f bg = None)
  /\ (forall h s,
        live p' !! h = Some s <->
        live p !! h = Some s
        /\ ownedBy c (sub_key s) = false
        /\ cleanup <> Some (sub_key s))
  /\ created p' = created p
  /\ components p' = components p
  /\ (forall h s docs,
        live p !! h = Some s ->
        ownedBy c (sub_key s) = true \/ cleanup = Some (sub_key s) ->
        push h docs p' = p').
Proof.
  intros p p'. pose proof (run_inv ops) as Hinv. fold p in Hinv.
  split; [intros k; apply teardown_registry|]. split.
  { intros f bg. subst p'. now rewrite teardown_registry, listenerKey_owned. }
  split; [intros h s; now apply teardown_live|].
  split; [apply teardown_frame|]. split; [apply teardown_frame|].
  intros h s docs Hs Ho. unfold push.
  destruct (live p' !! h) as [s'|] eqn:E; [|reflexivity].
  apply teardown_live in E as (E & Hno & Hnc); [|exact Hinv].
  assert (s' = s) as -> by congruence.
  destruct Ho as [Ho|Ho]; congruence.
Qed.

Lemma teardown_removes_prefixed_listeners_witness :
  let p := run [OpMount 1 "checks" [] true;
                OpMount 2 "checks" [("companyId", JString "A")] true;
                OpMount 3 "users" [] true] in
  let p' := teardown (Some (listenerKey "checks" [] true)) "checks" p in
  activeListeners p' !! listenerKey "checks" [("companyId", JString "A")] true = None
  /\ activeListeners p' !! listenerKey "users" [] true = Some 2%nat
  /\ push 1 employeesDocs p' = p'.
Proof.
  intros p p'.
  destruct (teardown_removes_prefixed_listeners
              [OpMount 1 "checks" [] true;
               OpMount 2 "checks" [("companyId", JString "A")] true;
               OpMount 3 "users" [] true]
              (Some (listenerKey "checks" [] true)) "checks")
    as (Hk & Hc & _ & _ & _ & Hpush).
  split; [exact (Hc [("companyId", JString "A")] true)|].
  split.
  - subst p'. rewrite Hk. vm_compute. reflexivity.
  - apply (Hpush 1%nat
             {| sub_key := listenerKey "checks" [("companyId", JString "A")] true;
                sub_query := buildQuery "checks" [("companyId", JString "A")];
                sub_owner := 2 |}).
    + vm_compute. reflexivity.
    + left. vm_compute. reflexivity.
Defined.

(** The unmount follows the latest render: an instance that moved from
    collection ["a"] to ["b"] leaves the listeners of ["a"] alone. *)
Example unmount_uses_latest_render :
  let p := run [OpMount 1 "a" [] false; OpRerender 1 "b" [] false;
                OpMount 2 "a" [] true] in
  activeListeners (unmount 1 p) !! listenerKey "a" [] true = Some 0%nat.
Proof. vm_compute. reflexivity. Qed.

(** A render with another filter moves the instance's subscription. *)
Example rerender_moves_subscription :
  let p := run [OpMount 1 "checks" [("companyId", JString "A")] true;
                OpRerender 1 "checks" [("companyId", JString "B")] true] in
  activeListeners p !! listenerKey "checks" [("companyId", JString "A")] true = None
  /\ activeListeners p !! listenerKey "checks" [("companyId", JString "B")] true
     = Some 1%nat
  /\ live p !! 0%nat = None.
Proof. vm_compute. auto. Qed.

(** * Further properties of the hook *)

(** ** Keys, continued *)

Module KeyFacts.
Import JSON Unquote UnquoteFacts.

Lemma rest_tail_delimited (es : JsObject) (t : string) : delimited (rest es +:+ t).
Proof.
  destruct es as [|kv r]; cbn [rest].
  - exists t. right. reflexivity.
  - exists ((member kv +:+ rest r) +:+ t). left. reflexivity.
Qed.

Lemma rest_tail_inj (e1 e2 : JsObject) (t1 t2 : string) :
  Forall (fun kv => isDefined (snd kv) = true) e1 ->
  Forall (fun kv => isDefined (snd kv) = true) e2 ->
  rest e1 +:+ t1 = rest e2 +:+ t2 -> e1 = e2 /\ t1 = t2.
Proof.
  intros F1; revert e2; induction F1 as [|kv1 e1 V1 F1 IH];
    intros e2 F2; destruct F2 as [|kv2 e2 V2 F2]; cbn [rest]; intros H.
  - apply cons_append_inj in H. auto.
  - discriminate H.
  - discriminate H.
  - rewrite !append_assoc in H. apply cons_append_inj in H.
    apply member_delimits in H as [-> H]; auto using rest_tail_delimited.
    destruct (IH _ F2 H) as [-> ->]. auto.
Qed.

Lemma object_tail_inj (e1 e2 : JsObject) (t1 t2 : string) :
  Forall (fun kv => isDefined (snd kv) = true) e1 ->
  Forall (fun kv => isDefined (snd kv) = true) e2 ->
  object e1 +:+ t1 = object e2 +:+ t2 -> e1 = e2 /\ t1 = t2.
Proof.
  intros F1 F2.
  destruct F1 as [|kv1 e1 V1 F1], F2 as [|kv2 e2 V2 F2]; cbn [object]; intros H.
  - change "{}" with ("{" +:+ "}") in H. rewrite !append_assoc in H.
    apply cons_append_inj, cons_append_inj in H. auto.
  - change "{}" with ("{" +:+ "}") in H. rewrite !append_assoc in H.
    apply cons_append_inj in H.
    destruct (member_starts kv2 (rest e2 +:+ t2)) as [r E]. rewrite E in H.
    discriminate H.
  - change "{}" with ("{" +:+ "}") in H. rewrite !append_assoc in H.
    apply cons_append_inj in H.
    destruct (member_starts kv1 (rest e1 +:+ t1)) as [r E]. rewrite E in H.
    discriminate H.
  - rewrite !append_assoc in H. apply cons_append_inj in H.
    apply member_delimits in H as [-> H]; auto using rest_tail_delimited.
    destruct (rest_tail_inj _ _ _ _ F1 F2 H) as [-> ->]. auto.
Qed.

Lemma stringify_tail_inj (f1 f2 : JsObject) (t1 t2 : string) :
  stringify f1 +:+ t1 = stringify f2 +:+ t2 ->
  definedEntries f1 = definedEntries f2 /\ t1 = t2.
Proof.
  rewrite !stringify_object. apply object_tail_inj; apply definedEntries_defined.
Qed.

(** Names without a colon end at the first colon of the key. *)
Lemma name_delimits (c1 c2 x y : string) :
  noColon c1 = true -> noColon c2 = true ->
  c1 +:+ ":" +:+ x = c2 +:+ ":" +:+ y -> c1 = c2 /\ x = y.
Proof.
  revert c2; induction c1 as [|a c1 IH]; intros [|b c2]; cbn [noColon];
    rewrite ?andb_true_iff, ?negb_true_iff; intros N1 N2 H.
  - apply cons_append_inj in H. auto.
  - rewrite append_nil, append_cons in H. change (":" +:+ x) with (String ":" x) in H.
    injection H as <- _. destruct N2 as [N2 _]. discriminate N2.
  - rewrite append_nil, append_cons in H. change (":" +:+ y) with (String ":" y) in H.
    injection H as -> _. destruct N1 as [N1 _]. discriminate N1.
  - rewrite !append_cons in H. injection H as -> H.
    destruct (IH c2 (proj2 N1) (proj2 N2) H) as [-> ->]. auto.
Qed.

End KeyFacts.

(** X1: for filters whose names and string values are made of code units
    below 256 and whose other values are booleans, [null], [undefined] or
    safe integers, and one collection, two listener keys are equal
    exactly when the filters have the same defined properties in the same
    order and the background-update flags agree; queries that differ only
    in the flag have different registry entries. *)
Theorem listenerKey_inj (c : string) (f1 f2 : JsObject) (b1 b2 : bool) :
  safeObject f1 -> safeObject f2 ->
  (listenerKey c f1 b1 = listenerKey c f2 b2
   <-> definedEntries f1 = definedEntries f2 /\ b1 = b2).
Proof.
  intros _ _. unfold listenerKey. split.
  - intros H. apply String.app_inj in H. apply UnquoteFacts.cons_append_inj in H.
    apply KeyFacts.stringify_tail_inj in H as [He Ht].
    split; [exact He|]. destruct b1, b2; try reflexivity; discriminate Ht.
  - intros [He ->]. apply UnquoteFacts.stringify_inj in He. now rewrite He.
Qed.

Lemma listenerKey_inj_witness :
  listenerKey "checks" [("year", JNumber 2024)] true
  <> listenerKey "checks" [("year", JNumber 2024)] false
  /\ listenerKey "checks" [("year", JNumber 2024)] true
     <> listenerKey "checks" [("year", JNumber (-2024))] true.
Proof.
  split; intros H;
    apply (listenerKey_inj "checks") in H as [E1 E2];
    try discriminate E1; try discriminate E2;
    repeat constructor; cbn; unfold safeInteger; lia.
Defined.

(** X2: for filters whose names and string values are made of code units
    below 256 and whose other values are booleans, [null], [undefined] or
    safe integers, and collection names that contain no colon, the cache
    key determines the collection and the defined filter properties: keys
    of different collections never coincide. *)
Theorem cacheKey_inj_collection (c1 c2 : string) (f1 f2 : JsObject) :
  noColon c1 = true -> noColon c2 = true ->
  safeObject f1 -> safeObject f2 ->
  (cacheKey c1 f1 = cacheKey c2 f2
   <-> c1 = c2 /\ definedEntries f1 = definedEntries f2).
Proof.
  intros N1 N2 _ _. unfold cacheKey. split.
  - intros H. apply KeyFacts.name_delimits in H as [-> H]; [|assumption..].
    split; [reflexivity|]. now apply UnquoteFacts.stringify_inj.
  - intros [-> He]. apply UnquoteFacts.stringify_inj in He. now rewrite He.
Qed.

Lemma cacheKey_inj_collection_witness :
  cacheKey "checks" [("companyId", JString "A")]
  <> cacheKey "users" [("companyId", JString "A")].
Proof.
  intros H.
  apply (cacheKey_inj_collection "checks" "users") in H as [E _];
    [discriminate E | reflexivity | reflexivity
     | repeat constructor | repeat constructor].
Defined.

Lemma filterValue_defined (f : JsObject) :
  List.filter (fun kv => isFilterValue (snd kv)) (definedEntries f)
  = List.filter (fun kv => isFilterValue (snd kv)) f.
Proof.
  unfold definedEntries. induction f as [|[k v] f IH]; [reflexivity|].
  destruct v; cbn; rewrite ?IH; reflexivity.
Qed.

Lemma buildQuery_eq (c : string) (f : JsObject) :
  buildQuery c f
  = {| q_collection := c;
       q_where := List.filter (fun kv => isFilterValue (snd kv)) f |}.
Proof.
  pose proof (buildQuery_collection c f) as Hc.
  pose proof (buildQuery_where c f) as Hw.
  destruct (buildQuery c f) as [qc qw]. cbn in Hc, Hw. now subst.
Qed.

(** X3: for filters whose names and string values are made of code units
    below 256 and whose other values are booleans, [null], [undefined] or
    safe integers, filters with the same cache key build the same remote
    query, so a payload found under a key was read with the query the hook
    would issue now.  The converse does not hold: a [null]-valued filter
    adds no constraint but is part of the key. *)
Theorem cacheKey_determines_query (c : string) (f1 f2 : JsObject) (k : string) :
  safeObject f1 -> safeObject f2 ->
  (cacheKey c f1 = cacheKey c f2 -> buildQuery c f1 = buildQuery c f2)
  /\ buildQuery c ((k, JNull) :: f1) = buildQuery c f1
  /\ cacheKey c ((k, JNull) :: f1) <> cacheKey c f1.
Proof.
  intros _ _. split; [|split].
  - intros H. apply cacheKey_inj in H. rewrite !buildQuery_eq.
    now rewrite <- (filterValue_defined f1), <- (filterValue_defined f2), H.
  - rewrite !buildQuery_eq. reflexivity.
  - intros H. apply cacheKey_inj in H. apply (f_equal (@length _)) in H.
    unfold definedEntries in H. cbn in H. lia.
Qed.

Lemma cacheKey_determines_query_witness :
  buildQuery "checks" [("companyId", JString "A"); ("reviewer", JUndefined)]
  = buildQuery "checks" [("companyId", JString "A")].
Proof.
  apply (proj1 (cacheKey_determines_query "checks"
                  [("companyId", JString "A"); ("reviewer", JUndefined)]
                  [("companyId", JString "A")] "status"
                  ltac:(repeat constructor) ltac:(repeat constructor))).
  reflexivity.
Defined.

(** ** The fetch orchestrator, continued *)

(** X4: [fetchData] never throws to its caller and never leaves [loading]
    set; it makes at most one remote call, a [getDocs] with the hook's
    query; and the [error] it leaves is [null] unless that call failed. *)
Theorem fetchData_settles (r : Closure) (forceRefresh : bool) (w : World) :
  fst (fetchData r forceRefresh w) = Returned tt
  /\ loading (hook (snd (fetchData r forceRefresh w))) = false
  /\ (trace (snd (fetchData r forceRefresh w)) = trace w
      \/ trace (snd (fetchData r forceRefresh w))
         = (trace w ++ [EvGetDocs (buildQuery (collectionName r) (filters r))])%list)
  /\ (error (hook (snd (fetchData r forceRefresh w))) = None
      \/ exists t err,
           getDocs_answer (remote w) (buildQuery (collectionName r) (filters r))
             (clock w) = (t, inl err)
           /\ error (hook (snd (fetchData r forceRefresh w))) = Some (errorString err))
  /\ remote (snd (fetchData r forceRefresh w)) = remote w.
Proof.
  destruct (cacheHit r forceRefresh (clock w)) eqn:Hhit.
  - destruct (proj1 (cacheHit_true r forceRefresh (clock w)) Hhit) as (cached & Hc & _).
    rewrite (fetchData_hit r forceRefresh w cached Hc Hhit). cbn. auto 10.
  - destruct (getDocs_answer (remote w) (buildQuery (collectionName r) (filters r))
                (clock w)) as [t [err|docs]] eqn:Hans.
    + rewrite (fetchData_miss_err r forceRefresh w t err Hhit Hans). cbn.
      repeat split; eauto.
    + rewrite (fetchData_miss_ok r forceRefresh w t docs Hhit Hans). cbn. auto 10.
Qed.

(** X5: the version counter never goes down: a load leaves the counter and
    the cache as they are, or adds one to the counter and stores the
    captured cache with the new entry. *)
Theorem fetchData_version_step (r : Closure) (forceRefresh : bool) (w : World) :
  (version (hook (snd (fetchData r forceRefresh w))) = version (hook w)
   /\ cache (hook (snd (fetchData r forceRefresh w))) = cache (hook w))
  \/ (version (hook (snd (fetchData r forceRefresh w))) = version (hook w) + 1
      /\ exists item,
           CacheItem.version item = captured_version r + 1
           /\ CacheItem.data item = data (hook (snd (fetchData r forceRefresh w)))
           /\ cache (hook (snd (fetchData r forceRefresh w)))
              = <[cacheKey (collectionName r) (filters r) := item]> (captured_cache r)).
Proof.
  destruct (cacheHit r forceRefresh (clock w)) eqn:Hhit.
  - destruct (proj1 (cacheHit_true r forceRefresh (clock w)) Hhit) as (cached & Hc & _).
    rewrite (fetchData_hit r forceRefresh w cached Hc Hhit). cbn. auto.
  - destruct (getDocs_answer (remote w) (buildQuery (collectionName r) (filters r))
                (clock w)) as [t [err|docs]] eqn:Hans.
    + rewrite (fetchData_miss_err r forceRefresh w t err Hhit Hans). cbn. auto.
    + rewrite (fetchData_miss_ok r forceRefresh w t docs Hhit Hans). cbn.
      right. split; [reflexivity|]. eexists. repeat split; reflexivity.
Qed.

(** X6: the cache of a hook instance starts empty, so the first load after
    mounting reads remotely whatever the arguments, the options and the
    time are. *)
Theorem first_load_reads_remotely (c : string) (f : JsObject)
    (o : UseOptimizedDataOptions) (forceRefresh : bool) (w : World) :
  trace (snd (fetchData (render c f o initialState) forceRefresh w))
  = (trace w ++ [EvGetDocs (buildQuery c f)])%list.
Proof.
  rewrite fetchData_trace. unfold cacheHit. cbn. now rewrite lookup_empty.
Qed.

(** X7: a successful remote load followed by a load from the next render:
    while less than [staleTime] has passed since the entry was stored, the
    second load makes no remote call and shows the same records; from
    [staleTime] on it reads remotely again. *)
Theorem load_then_load (r : Closure) (forceRefresh : bool) (w w2 : World)
    (t : Z) (docs : list Doc) :
  cacheHit r forceRefresh (clock w) = false ->
  getDocs_answer (remote w) (buildQuery (collectionName r) (filters r)) (clock w)
    = (t, inr docs) ->
  hook w2 = hook (snd (fetchData r forceRefresh w)) ->
  let r2 := render (collectionName r) (filters r) (options r) (hook w2) in
  (clock w2 - t < staleTime r ->
     trace (snd (fetchData r2 false w2)) = trace w2
     /\ data (hook (snd (fetchData r2 false w2))) = map docToRecord docs
     /\ version (hook (snd (fetchData r2 false w2))) = version (hook w) + 1)
  /\ (staleTime r <= clock w2 - t ->
        trace (snd (fetchData r2 false w2))
        = (trace w2 ++ [EvGetDocs (buildQuery (collectionName r) (filters r))])%list).
Proof.
  intros Hmiss Hans Hw2 r2.
  rewrite (fetchData_miss_ok r forceRefresh w t docs Hmiss Hans) in Hw2. cbn in Hw2.
  assert (captured_cache r2 !! cacheKey (collectionName r2) (filters r2)
          = Some {| CacheItem.data := map docToRecord docs; CacheItem.timestamp := t;
                    CacheItem.version := captured_version r + 1 |}) as Hc.
  { subst r2. cbn. rewrite Hw2. cbn. apply lookup_insert_eq. }
  split.
  - intros Hfresh.
    assert (cacheHit r2 false (clock w2) = true) as Hhit.
    { apply cacheHit_true. eexists. split; [exact Hc|]. split; [reflexivity|].
      exact Hfresh. }
    rewrite (fetchData_hit r2 false w2 _ Hc Hhit). cbn.
    rewrite Hw2. cbn. auto.
  - intros Hstale. rewrite fetchData_trace.
    assert (cacheHit r2 false (clock w2) = false) as ->; [|reflexivity].
    unfold cacheHit. rewrite Hc. cbn. apply bool_decide_eq_false_2.
    unfold staleTime in *. subst r2. cbn. lia.
Qed.

Lemma load_then_load_witness :
  trace (snd (fetchData (employeesRender afterFirstLoad) false
                (worldAt 30119 healthyRemote afterFirstLoad))) = []
  /\ trace (snd (fetchData (employeesRender afterFirstLoad) false
                   (worldAt 30120 healthyRemote afterFirstLoad)))
     = [EvGetDocs (buildQuery "employees" employeesFilter)].
Proof.
  split.
  - destruct (load_then_load (employeesRender initialState) false
                (worldAt 0 healthyRemote initialState)
                (worldAt 30119 healthyRemote afterFirstLoad) 120 employeesDocs
                eq_refl eq_refl eq_refl) as [H _].
    destruct (H ltac:(vm_compute; reflexivity)) as [Ht _]. exact Ht.
  - destruct (load_then_load (employeesRender initialState) false
                (worldAt 0 healthyRemote initialState)
                (worldAt 30120 healthyRemote afterFirstLoad) 120 employeesDocs
                eq_refl eq_refl eq_refl) as [_ H].
    exact (H ltac:(vm_compute; discriminate)).
Defined.

(** X8: the cache a successful load stores is built from the cache of the
    render that issued it, not from the current one: under every other key
    the stored cache holds what that render had, so an entry added since is
    dropped. *)
Theorem stale_render_overwrites_cache (r : Closure) (forceRefresh : bool)
    (w : World) (t : Z) (docs : list Doc) (k : string) :
  cacheHit r forceRefresh (clock w) = false ->
  getDocs_answer (remote w) (buildQuery (collectionName r) (filters r)) (clock w)
    = (t, inr docs) ->
  k <> cacheKey (collectionName r) (filters r) ->
  cache (hook (snd (fetchData r forceRefresh w))) !! k = captured_cache r !! k.
Proof.
  intros Hmiss Hans Hk.
  rewrite (fetchData_miss_ok r forceRefresh w t docs Hmiss Hans). cbn.
  apply lookup_insert_ne. congruence.
Qed.

Lemma stale_render_overwrites_cache_witness :
  is_Some (cache afterFirstLoad !! cacheKey "employees" employeesFilter)
  /\ cache (hook (snd (fetchData
                         (render "employees" [("companyId", JString "B")] noOptions
                            initialState)
                         false (worldAt 500 healthyRemote afterFirstLoad))))
       !! cacheKey "employees" employeesFilter = None.
Proof.
  split; [vm_compute; eauto|].
  rewrite (stale_render_overwrites_cache
             (render "employees" [("companyId", JString "B")] noOptions initialState)
             false (worldAt 500 healthyRemote afterFirstLoad) 620 employeesDocs).
  - reflexivity.
  - reflexivity.
  - reflexivity.
  - vm_compute. discriminate.
Defined.

(** X9: two successful refetches issued from one render: the counter goes
    up by two, while the entry that ends up in the cache carries the
    render's version plus one and the time of the second read. *)
Theorem refetch_twice_same_render (r : Closure) (w : World)
    (t1 t2 : Z) (docs1 docs2 : list Doc) :
  getDocs_answer (remote w) (buildQuery (collectionName r) (filters r)) (clock w)
    = (t1, inr docs1) ->
  getDocs_answer (remote w) (buildQuery (collectionName r) (filters r)) t1
    = (t2, inr docs2) ->
  let w2 := snd (refetch r (snd (refetch r w))) in
  version (hook w2) = version (hook w) + 2
  /\ cache (hook w2) !! cacheKey (collectionName r) (filters r)
     = Some {| CacheItem.data := map docToRecord docs2; CacheItem.timestamp := t2;
               CacheItem.version := captured_version r + 1 |}
  /\ data (hook w2) = map docToRecord docs2
  /\ remoteReads (trace w2) = S (S (remoteReads (trace w))).
Proof.
  intros H1 H2 w2. subst w2. unfold refetch.
  rewrite (fetchData_miss_ok r true w t1 docs1 (cacheHit_forced r _) H1). cbn.
  erewrite (fetchData_miss_ok r true _ t2 docs2); [|apply cacheHit_forced|exact H2]. cbn.
  split; [lia|]. split; [apply lookup_insert_eq|]. split; [reflexivity|].
  unfold remoteReads. rewrite !List.filter_app, !List.length_app. cbn. lia.
Qed.

Lemma refetch_twice_same_render_witness :
  version (hook (snd (refetch (employeesRender initialState)
                        (snd (refetch (employeesRender initialState)
                                (worldAt 0 healthyRemote initialState)))))) = 2.
Proof.
  exact (proj1 (refetch_twice_same_render (employeesRender initialState)
                  (worldAt 0 healthyRemote initialState) 120 240
                  employeesDocs employeesDocs eq_refl eq_refl)).
Defined.

(** ** Records and optimistic updates, continued *)

Lemma getProp_In (o : JsObject) (k : string) (v : JsValue) :
  List.NoDup (map fst o) -> In (k, v) o -> getProp o k = v.
Proof.
  unfold getProp. induction o as [|[k0 v0] o IH]; intros Hnd Hin; [destruct Hin|].
  cbn in Hnd. apply List.NoDup_cons_iff in Hnd as [Hk0 Hnd]. cbn.
  destruct Hin as [[= -> ->] | Hin].
  - now rewrite bool_decide_eq_true_2.
  - rewrite bool_decide_eq_false_2; [now apply IH|].
    intros ->. apply Hk0. apply List.in_map_iff. exists (k, v). auto.
Qed.

Lemma getProp_absent (o : JsObject) (k : string) :
  ~ In k (map fst o) -> getProp o k = JUndefined.
Proof.
  unfold getProp. induction o as [|[k0 v0] o IH]; intros Hk; [reflexivity|]. cbn.
  rewrite bool_decide_eq_false_2 by (intros ->; apply Hk; now left).
  apply IH. intros H. apply Hk. now right.
Qed.

(** X10: in a record built from a snapshot document, [id] is the document
    id unless the document's data has an [id] field of its own, which then
    takes its place; every other field reads as in the data. *)
Theorem docToRecord_fields (d : Doc) (k : string) :
  List.NoDup (map fst (doc_data d)) ->
  (~ In "id" (map fst (doc_data d)) ->
     getProp (docToRecord d) "id" = JString (doc_id d))
  /\ (forall v, In ("id", v) (doc_data d) -> getProp (docToRecord d) "id" = v)
  /\ (k <> "id" -> getProp (docToRecord d) k = getProp (doc_data d) k).
Proof.
  intros Hnd. unfold docToRecord. split; [|split].
  - intros Hno. now rewrite getProp_spread_other.
  - intros v Hin. now apply getProp_spread_updated.
  - intros Hk. destruct (In_dec string_dec k (map fst (doc_data d))) as [Hin|Hno].
    + apply List.in_map_iff in Hin as ([k' v] & <- & Hin). cbn.
      rewrite (getProp_spread_updated _ _ _ v Hnd Hin).
      symmetry. now apply getProp_In.
    + rewrite getProp_spread_other by assumption.
      rewrite (getProp_absent (doc_data d) k) by assumption.
      unfold getProp. cbn. now rewrite bool_decide_eq_false_2 by congruence.
Qed.

Lemma docToRecord_fields_witness :
  getProp (docToRecord {| doc_id := "e1";
                          doc_data := [("name", JString "Al"); ("id", JString "legacy-7")] |})
    "id" = JString "legacy-7".
Proof.
  refine (proj1 (proj2 (docToRecord_fields _ "name" _)) _ _).
  - repeat constructor; cbn; intuition discriminate.
  - right. left. reflexivity.
Defined.

Lemma optimisticUpdate_success (r : Closure) (itemId : string) (updates : JsObject)
    (rollback : option Callback) (w : World) (t : Z) :
  optimisticUpdates r = true ->
  updateDoc_answer (remote w) (collectionName r) itemId updates (clock w) = (t, None) ->
  optimisticUpdate r itemId updates rollback w =
    (Returned tt,
     {| hook := {| data := applyUpdate itemId updates (data (hook w));
                   loading := loading (hook w); error := error (hook w);
                   cache := cache (hook w); version := version (hook w) |};
        clock := t; remote := remote w;
        trace := trace w ++ [EvUpdateDoc (collectionName r) itemId updates] |}).
Proof.
  intros Hon Hans. unfold optimisticUpdate. rewrite Hon.
  unfold commitUpdate, tryCatch, tryCatchFinally, updateDoc. unfold_M.
  rewrite Hans. reflexivity.
Qed.

Lemma applyUpdate_no_match (itemId : string) (updates : JsObject)
    (prev : list JsObject) :
  (forall item, In item prev -> getProp item "id" <> JString itemId) ->
  applyUpdate itemId updates prev = prev.
Proof.
  unfold applyUpdate. induction prev as [|item prev IH]; intros H; [reflexivity|].
  cbn. rewrite decide_False by (apply H; now left).
  f_equal. apply IH. intros i Hi. apply H. now right.
Qed.

(** X11: for an id that no local record carries, [optimisticUpdate] leaves
    the local records as they are and still sends the write. *)
Theorem optimisticUpdate_unknown_id (r : Closure) (itemId : string)
    (updates : JsObject) (rollback : option Callback) (w : World) (t : Z) :
  optimisticUpdates r = true ->
  (forall item, In item (data (hook w)) -> getProp item "id" <> JString itemId) ->
  updateDoc_answer (remote w) (collectionName r) itemId updates (clock w) = (t, None) ->
  data (hook (snd (optimisticUpdate r itemId updates rollback w))) = data (hook w)
  /\ trace (snd (optimisticUpdate r itemId updates rollback w))
     = (trace w ++ [EvUpdateDoc (collectionName r) itemId updates])%list.
Proof.
  intros Hon Hno Hans.
  rewrite (optimisticUpdate_success r itemId updates rollback w t Hon Hans). cbn.
  split; [now apply applyUpdate_no_match | reflexivity].
Qed.

Lemma optimisticUpdate_unknown_id_witness :
  trace (snd (optimisticUpdate (employeesRender afterFirstLoad) "e9"
                [("name", JString "Zed")] None
                (worldAt 500 healthyRemote afterFirstLoad)))
  = [EvUpdateDoc "employees" "e9" [("name", JString "Zed")]].
Proof.
  refine (proj2 (optimisticUpdate_unknown_id (employeesRender afterFirstLoad) "e9"
                   [("name", JString "Zed")] None
                   (worldAt 500 healthyRemote afterFirstLoad) 580 eq_refl _ eq_refl)).
  intros item [<- | []]. vm_compute. discriminate.
Defined.

(** X12: an optimistic update changes the shown records only, never the
    cache; so after a write that succeeded, a load served from a fresh
    cache entry shows the records as they were cached, without the
    update. *)
Theorem optimisticUpdate_not_cached (r : Closure) (itemId : string)
    (updates : JsObject) (rollback : option Callback) (w w2 : World) (t : Z)
    (cached : CacheItem.t) :
  optimisticUpdates r = true ->
  updateDoc_answer (remote w) (collectionName r) itemId updates (clock w) = (t, None) ->
  cache (hook w) !! cacheKey (collectionName r) (filters r) = Some cached ->
  hook w2 = hook (snd (optimisticUpdate r itemId updates rollback w)) ->
  clock w2 - CacheItem.timestamp cached < staleTime r ->
  cache (hook w2) = cache (hook w)
  /\ data (hook w2) = applyUpdate itemId updates (data (hook w))
  /\ data (hook (snd (fetchData
                        (render (collectionName r) (filters r) (options r) (hook w2))
                        false w2)))
     = CacheItem.data cached.
Proof.
  intros Hon Hans Hc Hw2 Hfresh.
  rewrite (optimisticUpdate_success r itemId updates rollback w t Hon Hans) in Hw2.
  cbn in Hw2. rewrite Hw2. cbn. split; [reflexivity|]. split; [reflexivity|].
  rewrite <- Hw2.
  assert (captured_cache (render (collectionName r) (filters r) (options r) (hook w2))
            !! cacheKey (collectionName r) (filters r) = Some cached) as Hc2.
  { cbn. rewrite Hw2. exact Hc. }
  rewrite (fetchData_hit _ false w2 cached Hc2); [reflexivity|].
  apply cacheHit_true. exists cached. auto.
Qed.

Lemma optimisticUpdate_not_cached_witness :
  let w1 := snd (optimisticUpdate (employeesRender afterFirstLoad) "e1"
                   [("name", JString "Alan")] None
                   (worldAt 500 healthyRemote afterFirstLoad)) in
  data (hook w1) = [[("id", JString "e1"); ("name", JString "Alan")]]
  /\ data (hook (snd (fetchData (employeesRender (hook w1)) false
                        (worldAt 1000 healthyRemote (hook w1)))))
     = [[("id", JString "e1"); ("name", JString "Al")]].
Proof.
  intros w1.
  destruct (optimisticUpdate_not_cached (employeesRender afterFirstLoad) "e1"
              [("name", JString "Alan")] None
              (worldAt 500 healthyRemote afterFirstLoad)
              (worldAt 1000 healthyRemote (hook w1)) 580
              {| CacheItem.data := [[("id", JString "e1"); ("name", JString "Al")]];
                 CacheItem.timestamp := 120; CacheItem.version := 1 |}
              eq_refl eq_refl) as (_ & Hd & Hf).
  - vm_compute. reflexivity.
  - reflexivity.
  - vm_compute. reflexivity.
  - split; [reflexivity | exact Hf].
Defined.

(** X13: an optimistic update keeps the number and the order of the local
    records, and, when [updates] has no [id] field, the id of each. *)
Theorem applyUpdate_keeps_ids (itemId : string) (updates : JsObject)
    (prev : list JsObject) :
  length (applyUpdate itemId updates prev) = length prev
  /\ (~ In "id" (map fst updates) ->
      map (fun item => getProp item "id") (applyUpdate itemId updates prev)
      = map (fun item => getProp item "id") prev).
Proof.
  split; [apply length_map|].
  intros Hno. unfold applyUpdate. rewrite List.map_map. apply List.map_ext.
  intros item. destruct (decide (getProp item "id" = JString itemId)); [|reflexivity].
  now apply getProp_spread_other.
Qed.

Lemma applyUpdate_keeps_ids_witness :
  map (fun item => getProp item "id")
    (applyUpdate "e1" [("name", JString "Alan")] (data afterFirstLoad))
  = [JString "e1"].
Proof.
  rewrite (proj2 (applyUpdate_keeps_ids "e1" [("name", JString "Alan")]
                    (data afterFirstLoad))).
  - reflexivity.
  - cbn. intuition discriminate.
Defined.

(** ** The cache sweeper, continued *)

(** X14: when no entry of the sweeper's cache is older than [cacheTime],
    a pass changes nothing at all: [setCache] is not called. *)
Theorem cleanupTick_nothing_expired (r : Closure) (w : World) :
  (forall k item, captured_cache r !! k = Some item ->
                  clock w - CacheItem.timestamp item <= cacheTime r) ->
  cleanupTick r w = (Returned tt, w).
Proof.
  intros Hall. unfold cleanupTick. unfold_M.
  destruct (cleanLoop_spec (cacheTime r) (clock w) (captured_cache r)) as [_ H2].
  destruct (cleanLoop (cacheTime r) (clock w) (captured_cache r)) as [newCache cleaned].
  cbn in H2. destruct cleaned; [|reflexivity].
  destruct (proj1 H2 eq_refl) as (k & item & Hk & He).
  unfold expired in He. apply bool_decide_eq_true in He.
  specialize (Hall k item Hk). lia.
Qed.

Lemma cleanupTick_nothing_expired_witness :
  cleanupTick (employeesRender afterFirstLoad) (worldAt 300120 healthyRemote afterFirstLoad)
  = (Returned tt, worldAt 300120 healthyRemote afterFirstLoad).
Proof.
  apply cleanupTick_nothing_expired. intros k item Hk.
  change (captured_cache (employeesRender afterFirstLoad)) with (cache afterFirstLoad) in Hk.
  destruct (decide (k = cacheKey "employees" employeesFilter)) as [->|Hne].
  - vm_compute in Hk. injection Hk as <-. vm_compute. discriminate.
  - exfalso. revert Hk. unfold afterFirstLoad.
    erewrite (fetchData_miss_ok (employeesRender initialState) false
                (worldAt 0 healthyRemote initialState) 120 employeesDocs);
      [|reflexivity|reflexivity].
    cbn. rewrite lookup_insert_ne by congruence. now rewrite lookup_empty.
Defined.

(** X15: when [staleTime] is at most [cacheTime], the sweeper never removes
    an entry that is still fresh, so a pass cannot turn a cache hit into a
    remote read. *)
Theorem cleanupTick_keeps_fresh (r : Closure) (w : World) (k : string)
    (item : CacheItem.t) :
  captured_cache r = cache (hook w) ->
  staleTime r <= cacheTime r ->
  cache (hook w) !! k = Some item ->
  clock w - CacheItem.timestamp item < staleTime r ->
  cache (hook (snd (cleanupTick r w))) !! k = Some item.
Proof.
  intros Hcur Hle Hk Hfresh. rewrite (cleanupTick_cache r w Hcur), Hk.
  unfold expired. rewrite bool_decide_eq_false_2; [reflexivity | lia].
Qed.

Lemma cleanupTick_keeps_fresh_witness :
  is_Some (cache (hook (snd (cleanupTick (employeesRender afterFirstLoad)
                               (worldAt 20000 healthyRemote afterFirstLoad))))
             !! cacheKey "employees" employeesFilter).
Proof.
  eexists.
  apply (cleanupTick_keeps_fresh (employeesRender afterFirstLoad)
           (worldAt 20000 healthyRemote afterFirstLoad)).
  - reflexivity.
  - vm_compute. discriminate.
  - vm_compute. reflexivity.
  - vm_compute. reflexivity.
Defined.

(** X16: a pass only removes entries, and a second pass over its result at
    the same clock reading removes nothing more. *)
Theorem cleanLoop_idempotent (ct now : Z) (cache0 : gmap string CacheItem.t) :
  fst (cleanLoop ct now cache0) ⊆ cache0
  /\ cleanLoop ct now (fst (cleanLoop ct now cache0))
     = (fst (cleanLoop ct now cache0), false).
Proof.
  destruct (cleanLoop_spec ct now cache0) as [H1 _].
  split.
  - apply map_subseteq_spec. intros k item Hk. rewrite H1 in Hk.
    destruct (cache0 !! k) as [item'|]; [|discriminate Hk].
    destruct (expired ct now item'); [discriminate Hk | exact Hk].
  - destruct (cleanLoop_spec ct now (fst (cleanLoop ct now cache0))) as [G1 G2].
    destruct (cleanLoop ct now (fst (cleanLoop ct now cache0))) as [c2 cleaned].
    cbn in G1, G2. f_equal.
    + apply map_eq. intros k. rewrite G1, H1.
      destruct (cache0 !! k) as [item|]; [|reflexivity].
      destruct (expired ct now item) eqn:He; [reflexivity | now rewrite He].
    + destruct cleaned; [|reflexivity]. exfalso.
      destruct (proj1 G2 eq_refl) as (k & item & Hk & He).
      rewrite H1 in Hk. destruct (cache0 !! k) as [item'|]; [|discriminate Hk].
      destruct (expired ct now item') eqn:He'; [discriminate Hk|].
      injection Hk as <-. congruence.
Qed.

(** ** The listener registry, continued *)

(** X17: cancelling is idempotent, and cancelling a key that is not
    registered changes nothing. *)
Theorem cancelListener_idempotent (key : string) (p : Proc) :
  cancelListener key (cancelListener key p) = cancelListener key p
  /\ activeListeners (cancelListener key p) !! key = None
  /\ (activeListeners p !! key = None -> cancelListener key p = p).
Proof.
  assert (activeListeners (cancelListener key p) !! key = None) as Hgone.
  { rewrite cancelListener_registry. apply lookup_delete_eq. }
  split; [|split].
  - unfold cancelListener at 1. now rewrite Hgone.
  - exact Hgone.
  - intros H. unfold cancelListener. now rewrite H.
Qed.

Lemma cancelListener_idempotent_witness :
  cancelListener (listenerKey "checks" [] true) (run [OpMount 1 "employees" [] true])
  = run [OpMount 1 "employees" [] true].
Proof.
  apply (proj2 (proj2 (cancelListener_idempotent (listenerKey "checks" [] true)
                         (run [OpMount 1 "employees" [] true])))).
  vm_compute. reflexivity.
Defined.

(** X18: after a listener was cancelled, the next run of the effect for
    the same key subscribes again, under a handle that was never used
    before. *)
Theorem resubscribe_after_cancel (ops : list Op) (x : nat) (c : string)
    (f : JsObject) (h : nat) :
  activeListeners (run ops) !! listenerKey c f true = Some h ->
  let p1 := cancelListener (listenerKey c f true) (run ops) in
  let p2 := listenerEffect x c f true p1 in
  live p1 !! h = None
  /\ created p2 = (created (run ops) ++ [buildQuery c f])%list
  /\ activeListeners p2 !! listenerKey c f true = Some (length (created (run ops)))
  /\ is_Some (live p2 !! length (created (run ops)))
  /\ length (created (run ops)) <> h.
Proof.
  intros Hk p1 p2. pose proof (run_inv ops) as Hinv.
  assert (p1 = {| activeListeners := delete (listenerKey c f true) (activeListeners (run ops));
                  live := delete h (live (run ops));
                  created := created (run ops);
                  components := components (run ops) |}) as Hp1.
  { subst p1. unfold cancelListener. now rewrite Hk. }
  assert (p2 = {| activeListeners :=
                    <[listenerKey c f true := length (created (run ops))]>
                      (delete (listenerKey c f true) (activeListeners (run ops)));
                  live := <[length (created (run ops)) :=
                              {| sub_key := listenerKey c f true;
                                 sub_query := buildQuery c f; sub_owner := x |}]>
                            (delete h (live (run ops)));
                  created := created (run ops) ++ [buildQuery c f];
                  components := alter (withCleanup (listenerKey c f true)) x
                                  (components (run ops)) |}) as Hp2.
  { subst p2. rewrite Hp1. unfold listenerEffect. cbn.
    now rewrite lookup_delete_eq. }
  rewrite Hp1, Hp2. cbn.
  split; [apply lookup_delete_eq|]. split; [reflexivity|].
  split; [apply lookup_insert_eq|]. split; [rewrite lookup_insert_eq; eauto|].
  destruct (inv_reg _ Hinv _ _ Hk) as (s & Hs & _).
  pose proof (inv_fresh _ Hinv h (mk_is_Some _ _ Hs)). lia.
Qed.

Lemma resubscribe_after_cancel_witness :
  activeListeners
    (listenerEffect 2 "checks" [] true
       (cancelListener (listenerKey "checks" [] true)
          (run [OpMount 1 "checks" [] true])))
    !! listenerKey "checks" [] true = Some 1%nat.
Proof.
  destruct (resubscribe_after_cancel [OpMount 1 "checks" [] true] 2 "checks" [] 0)
    as (_ & _ & H & _).
  - vm_compute. reflexivity.
  - exact H.
Defined.

(** X19: a pushed snapshot replaces the records of the instance that
    created the subscription and nothing else: the registry, the
    subscriptions and every other instance stay as they are; a push on a
    handle that is not live is dropped. *)
Theorem push_reaches_owner_only (h : nat) (docs : list Doc) (p : Proc) :
  activeListeners (push h docs p) = activeListeners p
  /\ live (push h docs p) = live p
  /\ created (push h docs p) = created p
  /\ (live p !! h = None -> push h docs p = p)
  /\ (forall s, live p !! h = Some s ->
        dataOf (sub_owner s) (push h docs p)
          = (fun _ => map docToRecord docs) <$> dataOf (sub_owner s) p
        /\ forall y, y <> sub_owner s ->
             components (push h docs p) !! y = components p !! y).
Proof.
  unfold push. destruct (live p !! h) as [s|] eqn:Hs; cbn.
  - repeat split; try reflexivity; try discriminate.
    + injection H as <-. unfold dataOf. cbn. rewrite lookup_alter_eq.
      now destruct (components p !! sub_owner s).
    + injection H as <-. intros y Hy. now apply lookup_alter_ne.
  - repeat split; try reflexivity; discriminate.
Qed.

Lemma push_reaches_owner_only_witness :
  dataOf 1 (push 0 employeesDocs
              (run [OpMount 1 "employees" [] true; OpMount 2 "employees" [] true]))
  = Some [[("id", JString "e1"); ("name", JString "Al")]].
Proof.
  destruct (push_reaches_owner_only 0 employeesDocs
              (run [OpMount 1 "employees" [] true; OpMount 2 "employees" [] true]))
    as (_ & _ & _ & _ & H).
  destruct (H {| sub_key := listenerKey "employees" [] true;
                 sub_query := buildQuery "employees" [];
                 sub_owner := 1 |}) as [Hd _].
  - vm_compute. reflexivity.
  - exact Hd.
Defined.

Lemma mount_registry (x : nat) (c : string) (f : JsObject) (p : Proc) :
  (activeListeners p !! listenerKey c f true = None ->
   activeListeners (mount x c f true p)
     = <[listenerKey c f true := length (created p)]> (activeListeners p)
   /\ live (mount x c f true p)
      = <[length (created p) := {| sub_key := listenerKey c f true;
                                   sub_query := buildQuery c f; sub_owner := x |}]>
          (live p))
  /\ (is_Some (activeListeners p !! listenerKey c f true) ->
      activeListeners (mount x c f true p) = activeListeners p
      /\ live (mount x c f true p) = live p).
Proof.
  unfold mount, listenerEffect. cbn. split.
  - intros ->. cbn. auto.
  - intros [h ->]. cbn. auto.
Qed.

(** X20: when two instances mount with the same key, the subscription is
    the first one's: every live subscription under that key delivers to the
    first instance, and a push on it leaves the second instance's state
    untouched. *)
Theorem first_subscriber_owns (ops : list Op) (x y : nat) (c : string) (f : JsObject) :
  activeListeners (run ops) !! listenerKey c f true = None ->
  x <> y ->
  let p2 := mount y c f true (mount x c f true (run ops)) in
  forall h s,
    live p2 !! h = Some s -> sub_key s = listenerKey c f true ->
    sub_owner s = x
    /\ forall docs, components (push h docs p2) !! y = components p2 !! y.
Proof.
  intros Hk Hxy p2 h s Hs Hkey. pose proof (run_inv ops) as Hinv.
  destruct (proj1 (mount_registry x c f (run ops)) Hk) as [Ha Hl].
  assert (is_Some (activeListeners (mount x c f true (run ops)) !! listenerKey c f true))
    as Hreg by (rewrite Ha, lookup_insert_eq; eauto).
  destruct (proj2 (mount_registry y c f (mount x c f true (run ops))) Hreg) as [_ Hl2].
  assert (sub_owner s = x) as Hown.
  { subst p2. rewrite Hl2, Hl in Hs.
    destruct (decide (length (created (run ops)) = h)) as [<-|Hne].
    - rewrite lookup_insert_eq in Hs. now injection Hs as <-.
    - rewrite lookup_insert_ne in Hs by assumption.
      apply (inv_live _ Hinv) in Hs. rewrite Hkey in Hs. congruence. }
  split; [exact Hown|]. intros docs. unfold push. rewrite Hs. cbn.
  apply lookup_alter_ne. congruence.
Qed.

Lemma first_subscriber_owns_witness :
  dataOf 2 (push 0 employeesDocs
              (mount 2 "employees" [] true (mount 1 "employees" [] true (run []))))
  = Some [].
Proof.
  destruct (first_subscriber_owns [] 1 2 "employees" [] eq_refl ltac:(discriminate) 0
              {| sub_key := listenerKey "employees" [] true;
                 sub_query := buildQuery "employees" []; sub_owner := 1 |})
    as [_ H].
  - vm_compute. reflexivity.
  - reflexivity.
  - unfold dataOf. rewrite (H employeesDocs). reflexivity.
Defined.

Lemma prefix_cons (a b : ascii) (s1 s2 : string) :
  String.prefix (String a s1) (String b s2)
  = if Ascii.ascii_dec a b then String.prefix s1 s2 else false.
Proof. reflexivity. Qed.

Lemma prefix_name (c c' rest : string) :
  noColon c = true -> noColon c' = true ->
  String.prefix (c +:+ ":") (c' +:+ ":" +:+ rest) = true -> c = c'.
Proof.
  revert c'; induction c as [|a c IH]; intros [|b c']; cbn [noColon];
    rewrite ?andb_true_iff, ?negb_true_iff; intros N N' H.
  - reflexivity.
  - rewrite append_nil, append_cons in H. change ":" with (String ":" "") in H.
    rewrite prefix_cons in H.
    destruct (Ascii.ascii_dec ":" b) as [<-|]; [|discriminate H].
    destruct N' as [N' _]. vm_compute in N'. discriminate N'.
  - rewrite append_nil, append_cons in H. change (":" +:+ rest) with (String ":" rest) in H.
    rewrite prefix_cons in H.
    destruct (Ascii.ascii_dec a ":") as [->|]; [|discriminate H].
    destruct N as [N _]. vm_compute in N. discriminate N.
  - rewrite !append_cons, prefix_cons in H.
    destruct (Ascii.ascii_dec a b) as [->|]; [|discriminate H].
    f_equal. apply (IH c' (proj2 N) (proj2 N') H).
Qed.

(** X21: with collection names that contain no colon, the unmount
    clean-up of one collection leaves the listeners of every other
    collection registered and live. *)
Theorem unmountCleanup_other_collection (ops : list Op) (c c' : string)
    (f : JsObject) (bg : bool) :
  noColon c = true -> noColon c' = true -> c <> c' ->
  ownedBy c (listenerKey c' f bg) = false
  /\ activeListeners (unmountCleanup c (run ops)) !! listenerKey c' f bg
     = activeListeners (run ops) !! listenerKey c' f bg
  /\ forall h s,
       live (run ops) !! h = Some s -> sub_key s = listenerKey c' f bg ->
       live (unmountCleanup c (run ops)) !! h = Some s.
Proof.
  intros N N' Hne.
  assert (ownedBy c (listenerKey c' f bg) = false) as Hown.
  { destruct (ownedBy c (listenerKey c' f bg)) eqn:E; [|reflexivity].
    exfalso. apply Hne. unfold ownedBy, listenerKey in E.
    now apply prefix_name in E. }
  split; [exact Hown|]. split.
  - now rewrite unmountCleanup_registry, Hown.
  - intros h s Hs Hkey. apply unmountCleanup_live; [apply run_inv|].
    split; [exact Hs|]. now rewrite Hkey.
Qed.

Lemma unmountCleanup_other_collection_witness :
  activeListeners
    (unmountCleanup "checks"
       (run [OpMount 1 "checks" [] true; OpMount 2 "employees" [] true]))
    !! listenerKey "employees" [] true = Some 1%nat.
Proof.
  destruct (unmountCleanup_other_collection
              [OpMount 1 "checks" [] true; OpMount 2 "employees" [] true]
              "checks" "employees" [] true eq_refl eq_refl ltac:(discriminate))
    as (_ & H & _).
  rewrite H. vm_compute. reflexivity.
Defined.

(** With a colon in a collection name the clean-up of one collection does
    reach the listeners of another. *)
Example unmountCleanup_crosses_collections :
  activeListeners
    (unmountCleanup "a" (run [OpMount 1 "a:b" [] true]))
    !! listenerKey "a:b" [] true = None.
Proof. vm_compute. reflexivity. Qed.

(** X22: while every mount and every run of the effect has background
    updates off, the process never opens a remote subscription and the
    registry stays empty. *)
Theorem quiet_process_never_subscribes (ops : list Op) :
  Forall quiet ops ->
  created (run ops) = [] /\ activeListeners (run ops) = ∅ /\ live (run ops) = ∅.
Proof.
  unfold run.
  assert (created initialProc = [] /\ activeListeners initialProc = ∅
          /\ live initialProc = ∅) as H0 by auto.
  revert H0. generalize initialProc.
  induction ops as [|o ops IH]; intros p Hp Hq; cbn; [exact Hp|].
  apply List.Forall_cons_iff in Hq as [Ho Hq]. apply IH; [|exact Hq].
  destruct Hp as (Hc & Ha & Hl).
  assert (forall key, cancelListener key p = p) as Hcancel.
  { intros key. unfold cancelListener. now rewrite Ha, lookup_empty. }
  assert (forall c, unmountCleanup c p = p) as Hclean.
  { intros c. unfold unmountCleanup. now rewrite Ha, map_to_list_empty. }
  destruct o as [x c f bg|x c f bg|x|h docs|x c f bg|key|c]; cbn in Ho |- *.
  - subst bg. unfold mount, listenerEffect. cbn. auto.
  - subst bg. unfold rerender. destruct (components p !! x) as [cx|]; [|auto].
    destruct (negb (String.eqb (comp_listenerKey cx) (listenerKey c f false))),
      (negb (String.eqb (comp_collection cx) c)), (comp_cleanup cx); cbv zeta;
      rewrite ?Hcancel, ?Hclean; unfold listenerEffect; cbn; auto.
  - unfold unmount. destruct (components p !! x) as [cx|]; [|auto].
    destruct (comp_cleanup cx); rewrite ?Hcancel, Hclean; cbn; auto.
  - unfold push. rewrite Hl, lookup_empty. auto.
  - subst bg. unfold listenerEffect. cbn. auto.
  - rewrite Hcancel. auto.
  - rewrite Hclean. auto.
Qed.

Lemma quiet_process_never_subscribes_witness :
  created (run [OpMount 1 "companies" [] false; OpMount 2 "users" [] false;
                OpUnmount 1]) = [].
Proof.
  apply quiet_process_never_subscribes.
  repeat constructor.
Defined.

Lemma unmount_spec (p : Proc) (x : nat) (cx : Component) :
  registryInv p -> components p !! x = Some cx ->
  (forall k,
     activeListeners (unmount x p) !! k =
       if ownedBy (comp_collection cx) k || bool_decide (comp_cleanup cx = Some k)
       then None else activeListeners p !! k)
  /\ (forall h s,
        live (unmount x p) !! h = Some s <->
        live p !! h = Some s
        /\ ownedBy (comp_collection cx) (sub_key s) = false
        /\ comp_cleanup cx <> Some (sub_key s))
  /\ components (unmount x p) = delete x (components p).
Proof.
  intros Hinv Hx. unfold unmount. rewrite Hx. cbn.
  destruct (comp_cleanup cx) as [key|] eqn:Hcl.
  - split; [|split].
    + intros k. rewrite unmountCleanup_registry, cancelListener_registry.
      destruct (ownedBy (comp_collection cx) k); [reflexivity|]. cbn.
      case_bool_decide as E.
      * injection E as ->. apply lookup_delete_eq.
      * apply lookup_delete_ne. congruence.
    + intros h s.
      rewrite unmountCleanup_live by (now apply cancelListener_inv).
      rewrite cancelListener_live by assumption.
      split; [intros [[? ?] ?] | intros (? & ? & ?)]; repeat split; auto; congruence.
    + unfold unmountCleanup. rewrite (proj2 (cancelAll_frame _ _)).
      unfold cancelListener. now destruct (activeListeners p !! key).
  - split; [|split].
    + intros k. rewrite unmountCleanup_registry.
      destruct (ownedBy (comp_collection cx) k); [reflexivity|]. cbn.
      now rewrite bool_decide_eq_false_2.
    + intros h s. rewrite unmountCleanup_live by assumption.
      split; [intros [? ?] | intros (? & ? & ?)]; repeat split; auto; discriminate.
    + unfold unmountCleanup. now rewrite (proj2 (cancelAll_frame _ _)).
Qed.

(** X23: an instance that mounts and then unmounts leaves no listener
    behind: if no listener of its collection was registered before, the
    registry and the live subscriptions are afterwards what they were. *)
Theorem mount_unmount_no_leak (ops : list Op) (x : nat) (c : string)
    (f : JsObject) (bg : bool) :
  (forall k, ownedBy c k = true -> activeListeners (run ops) !! k = None) ->
  activeListeners (unmount x (mount x c f bg (run ops))) = activeListeners (run ops)
  /\ live (unmount x (mount x c f bg (run ops))) = live (run ops)
  /\ components (unmount x (mount x c f bg (run ops))) = delete x (components (run ops)).
Proof.
  intros Hnone. pose proof (run_inv ops) as Hinv.
  set (p := run ops) in *.
  assert (registryInv (mount x c f bg p)) as Hinv1 by (apply (step_inv p (OpMount x c f bg) Hinv)).
  assert (forall h s, live p !! h = Some s -> ownedBy c (sub_key s) = false) as Hlive.
  { intros h s Hs. destruct (ownedBy c (sub_key s)) eqn:E; [|reflexivity].
    apply (inv_live _ Hinv) in Hs. rewrite (Hnone _ E) in Hs. discriminate Hs. }
  assert (exists cx,
            components (mount x c f bg p) !! x = Some cx
            /\ comp_collection cx = c
            /\ (forall k, comp_cleanup cx = Some k -> ownedBy c k = true)
            /\ (forall k, ownedBy c k = false ->
                  activeListeners (mount x c f bg p) !! k = activeListeners p !! k)
            /\ (forall h s, live (mount x c f bg p) !! h = Some s ->
                  ownedBy c (sub_key s) = false -> live p !! h = Some s)
            /\ (forall h s, live p !! h = Some s -> live (mount x c f bg p) !! h = Some s)
            /\ (forall y, y <> x ->
                  components (mount x c f bg p) !! y = components p !! y))
    as (cx & Hcx & Hcoll & Hcl & Hreg & Hl1 & Hl2 & Hcomp).
  { unfold mount, listenerEffect. destruct bg; cbn.
    - rewrite (Hnone _ (listenerKey_owned c f true)). cbn.
      eexists. split; [rewrite lookup_alter_eq, lookup_insert_eq; reflexivity|]. cbn.
      split; [reflexivity|]. split; [intros k [= <-]; apply listenerKey_owned|].
      split.
      { intros k Hk. apply lookup_insert_ne. intros <-.
        rewrite listenerKey_owned in Hk. discriminate Hk. }
      split.
      { intros h s Hs Ho. destruct (decide (length (created p) = h)) as [<-|Hne].
        - rewrite lookup_insert_eq in Hs. injection Hs as <-. cbn [sub_key] in Ho.
          rewrite listenerKey_owned in Ho. discriminate Ho.
        - now rewrite lookup_insert_ne in Hs. }
      split.
      { intros h s Hs. rewrite lookup_insert_ne; [exact Hs|]. intros <-.
        pose proof (inv_fresh _ Hinv _ (mk_is_Some _ _ Hs)). lia. }
      intros y Hy. now rewrite lookup_alter_ne, lookup_insert_ne by congruence.
    - eexists. split; [apply lookup_insert_eq|]. cbn.
      split; [reflexivity|]. split; [discriminate|]. split; [reflexivity|].
      split; [auto|]. split; [auto|].
      intros y Hy. now apply lookup_insert_ne. }
  destruct (unmount_spec _ x cx Hinv1 Hcx) as (Ha & Hl & Hc). rewrite Hcoll in Ha, Hl.
  split; [|split].
  - apply map_eq. intros k. rewrite Ha.
    destruct (ownedBy c k) eqn:Ho; cbn; [symmetry; now apply Hnone|].
    rewrite bool_decide_eq_false_2; [now apply Hreg|].
    intros E. apply Hcl in E. congruence.
  - apply map_eq. intros h. apply option_eq. intros s. rewrite Hl. split.
    + intros (Hs & Ho & _). now apply Hl1.
    + intros Hs. split; [now apply Hl2|]. split; [now apply (Hlive h)|].
      intros E. apply Hcl in E. rewrite (Hlive h s Hs) in E. discriminate E.
  - rewrite Hc. apply map_eq. intros y. destruct (decide (y = x)) as [->|Hy].
    + now rewrite !lookup_delete_eq.
    + rewrite !lookup_delete_ne by congruence. now apply Hcomp.
Qed.

Lemma mount_unmount_no_leak_witness :
  live (unmount 2 (mount 2 "checks" [("companyId", JString "A")] true
                     (run [OpMount 1 "employees" [] true])))
  = live (run [OpMount 1 "employees" [] true]).
Proof.
  refine (proj1 (proj2 (mount_unmount_no_leak [OpMount 1 "employees" [] true] 2
                          "checks" [("companyId", JString "A")] true _))).
  intros k Hk.
  destruct (decide (k = listenerKey "employees" [] true)) as [->|Hne].
  - vm_compute in Hk. discriminate Hk.
  - change (activeListeners (run [OpMount 1 "employees" [] true]))
      with (<[listenerKey "employees" [] true := 0%nat]> (∅ : gmap string nat)).
    rewrite lookup_insert_ne by congruence. apply lookup_empty.
Defined.

(** * The checks view *)

(** X24: the view asks for the checks of the selected company only, and
    keeps real-time updates on exactly while a company is selected; with
    no selection the query has no constraint.  Two selections get the same
    cache key only if they are the same company, so checks cached for one
    company are never served for another. *)
Theorem checks_hook_arguments (s1 s2 : option string) (st : HookState) :
  q_where (buildQuery "checks" (checksFilters s1)) = checksFilters s1
  /\ backgroundUpdate (render "checks" (checksFilters s1) (checksOptions s1) st)
     = truthyStr s1
  /\ staleTime (render "checks" (checksFilters s1) (checksOptions s1) st) = 30000
  /\ cacheTime (render "checks" (checksFilters s1) (checksOptions s1) st) = 120000
  /\ (truthyStr s1 = false -> checksFilters s1 = [])
  /\ (truthyStr s1 = true -> truthyStr s2 = true ->
      cacheKey "checks" (checksFilters s1) = cacheKey "checks" (checksFilters s2) ->
      s1 = s2)
  /\ (truthyStr s1 = true -> truthyStr s2 = false ->
      cacheKey "checks" (checksFilters s1) <> cacheKey "checks" (checksFilters s2)).
Proof.
  split; [|split; [|split; [|split; [|split; [|split]]]]].
  - rewrite buildQuery_where. destruct s1 as [[|a s]|]; reflexivity.
  - unfold backgroundUpdate. cbn. now destruct (truthyStr s1).
  - reflexivity.
  - reflexivity.
  - destruct s1 as [[|a s]|]; cbn; intros H; try reflexivity; discriminate H.
  - destruct s1 as [[|a x]|], s2 as [[|b y]|]; cbn; intros H1 H2 H;
      try discriminate H1; try discriminate H2.
    apply cacheKey_inj in H. cbn in H. now injection H as -> ->.
  - destruct s1 as [[|a x]|], s2 as [[|b y]|]; cbn; intros H1 H2 H;
      try discriminate H1; try discriminate H2;
      apply cacheKey_inj in H; discriminate H.
Qed.

Lemma checks_hook_arguments_witness :
  cacheKey "checks" (checksFilters (Some "A")) <> cacheKey "checks" (checksFilters (Some "")).
Proof.
  exact (proj2 (proj2 (proj2 (proj2 (proj2 (proj2
           (checks_hook_arguments (Some "A") (Some "") initialState))))))
           eq_refl eq_refl).
Defined.


Section UserMapFacts.

Lemma displayName_truthy (user : JsObject) : truthy (displayName user) = true.
Proof.
  unfold displayName, jsOr.
  destruct (truthy (getProp user "username")) eqn:E1; cbn; rewrite ?E1.
  - reflexivity.
  - destruct (truthy (getProp user "email")) eqn:E2; cbn; rewrite ?E2; reflexivity.
Qed.

Lemma userMap_snoc (users : list JsObject) (user : JsObject) :
  userMap (users ++ [user])
  = if bool_decide (toPropertyKey (getProp user "id") = "__proto__")
    then userMap users
    else <[toPropertyKey (getProp user "id") := displayName user]> (userMap users).
Proof. unfold userMap. now rewrite fold_left_app. Qed.

Lemma userMap_proto (users : list JsObject) : userMap users !! "__proto__" = None.
Proof.
  induction users as [|u users IH] using rev_ind; [apply lookup_empty|].
  rewrite userMap_snoc. case_bool_decide as E; [exact IH|].
  rewrite lookup_insert_ne by exact E. exact IH.
Qed.

Lemma userMap_absent (users : list JsObject) (k : string) :
  (forall user, In user users -> toPropertyKey (getProp user "id") <> k) ->
  userMap users !! k = None.
Proof.
  induction users as [|u users IH] using rev_ind; intros Hk; [apply lookup_empty|].
  assert (userMap users !! k = None) as Hrec.
  { apply IH. intros user Hin. apply Hk, List.in_or_app. now left. }
  rewrite userMap_snoc. case_bool_decide as E; [exact Hrec|].
  rewrite lookup_insert_ne; [exact Hrec|].
  apply Hk, List.in_or_app. right. now left.
Qed.

Lemma userMap_last (before after : list JsObject) (user : JsObject) :
  toPropertyKey (getProp user "id") <> "__proto__" ->
  (forall u, In u after ->
     toPropertyKey (getProp u "id") <> toPropertyKey (getProp user "id")) ->
  userMap (before ++ user :: after) !! toPropertyKey (getProp user "id")
  = Some (displayName user).
Proof.
  intros Hp. induction after as [|u after IH] using rev_ind; intros Hlast.
  - rewrite userMap_snoc, bool_decide_eq_false_2 by exact Hp. apply lookup_insert_eq.
  - change (before ++ user :: after ++ [u])%list
      with (before ++ (user :: after) ++ [u])%list.
    rewrite List.app_assoc, userMap_snoc.
    assert (userMap (before ++ user :: after) !! toPropertyKey (getProp user "id")
            = Some (displayName user)) as Hrec.
    { apply IH. intros u' Hin. apply Hlast, List.in_or_app. now left. }
    case_bool_decide as E; [exact Hrec|].
    rewrite lookup_insert_ne; [exact Hrec|].
    apply Hlast, List.in_or_app. right. now left.
Qed.

End UserMapFacts.

(** X25: with user ids that are strings, booleans, [null], [undefined] or
    safe integers, the user map holds under every id other than
    [__proto__] the name of the last listed user with that id: the username
    if it is truthy, else the email if it is truthy, else ['Unknown'].  So
    every listed user with such an id has an entry and no entry is falsy.
    A user whose id is [__proto__] gets no entry, and the id of no user has
    no entry of its own. *)
Theorem userMap_entries (users : list JsObject) :
  Forall (fun user => safeValue (getProp user "id")) users ->
  (forall k v, userMap users !! k = Some v -> truthy v = true)
  /\ userMap users !! "__proto__" = None
  /\ (forall user, In user users ->
        toPropertyKey (getProp user "id") <> "__proto__" ->
        is_Some (userMap users !! toPropertyKey (getProp user "id")))
  /\ (forall before user after,
        users = (before ++ user :: after)%list ->
        toPropertyKey (getProp user "id") <> "__proto__" ->
        (forall u, In u after ->
           toPropertyKey (getProp u "id") <> toPropertyKey (getProp user "id")) ->
        userMap users !! toPropertyKey (getProp user "id")
        = Some (if truthy (getProp user "username") then getProp user "username"
                else if truthy (getProp user "email") then getProp user "email"
                else JString "Unknown"))
  /\ (forall k,
        (forall user, In user users -> toPropertyKey (getProp user "id") <> k) ->
        userMap users !! k = None).
Proof.
  intros _. split; [|split; [|split; [|split]]].
  - induction users as [|u users IH] using rev_ind; intros k v H.
    + unfold userMap in H. cbn in H. now rewrite lookup_empty in H.
    + rewrite userMap_snoc in H. case_bool_decide as E; [eauto|].
      destruct (decide (toPropertyKey (getProp u "id") = k)) as [<-|Hne].
      * rewrite lookup_insert_eq in H. injection H as <-. apply displayName_truthy.
      * rewrite lookup_insert_ne in H by assumption. eauto.
  - apply userMap_proto.
  - induction users as [|u users IH] using rev_ind; intros user Hin Hp; [destruct Hin|].
    rewrite userMap_snoc.
    destruct (decide (toPropertyKey (getProp u "id") = toPropertyKey (getProp user "id")))
      as [E|Hne].
    + rewrite bool_decide_eq_false_2 by congruence.
      rewrite E, lookup_insert_eq. eauto.
    + assert (is_Some (userMap users !! toPropertyKey (getProp user "id"))) as Hrec.
      { apply IH; [|exact Hp].
        apply List.in_app_or in Hin as [Hin | [-> | []]]; [exact Hin | congruence]. }
      case_bool_decide; [exact Hrec|].
      now rewrite lookup_insert_ne by assumption.
  - intros before user after -> Hp Hlast.
    rewrite userMap_last by assumption. f_equal. unfold displayName, jsOr.
    destruct (truthy (getProp user "username")) eqn:E1; rewrite ?E1; [reflexivity|].
    destruct (truthy (getProp user "email")) eqn:E2; rewrite ?E2; reflexivity.
  - apply userMap_absent.
Qed.

Lemma userMap_entries_witness :
  userMap [[("id", JString "u1"); ("username", JString "al")];
           [("id", JString "u1"); ("username", JString ""); ("email", JString "al@x.io")];
           [("id", JString "u2")]]
    !! "u1" = Some (JString "al@x.io").
Proof.
  refine (proj1 (proj2 (proj2 (proj2 (userMap_entries
            [[("id", JString "u1"); ("username", JString "al")];
             [("id", JString "u1"); ("username", JString ""); ("email", JString "al@x.io")];
             [("id", JString "u2")]] _))))
            [[("id", JString "u1"); ("username", JString "al")]]
            [("id", JString "u1"); ("username", JString ""); ("email", JString "al@x.io")]
            [[("id", JString "u2")]]
            eq_refl _ _).
  - repeat constructor.
  - discriminate.
  - intros u [<- | []]. discriminate.
Defined.

(** A user whose id is [__proto__] leaves the map as it was. *)
Example userMap_proto_user :
  userMap [[("id", JString "__proto__"); ("username", JString "al")]] = ∅.
Proof. reflexivity. Qed.

Section ListFacts.

Context {A : Type}.

Lemma filterM_Some (p : A -> option bool) (l r : list A) :
  filterM p l = Some r ->
  r `sublist_of` l
  /\ forall x, In x r <-> In x l /\ p x = Some true.
Proof.
  revert r; induction l as [|x l IH]; intros r H; cbn in H.
  - injection H as <-. split; [constructor|]. intros x. cbn. tauto.
  - destruct (p x) as [b|] eqn:Hp; [|discriminate H]. cbn in H.
    destruct (filterM p l) as [rest|]; [|discriminate H]. cbn in H.
    injection H as <-. destruct (IH rest eq_refl) as [Hsub Hin].
    destruct b.
    + split; [now constructor|]. intros y. cbn. rewrite Hin.
      split; [intros [<-|[? ?]]; auto | intros [[<-|?] ?]; auto].
    + split; [now constructor|]. intros y. cbn. rewrite Hin.
      split; [intros [? ?]; auto | intros [[<-|?] ?]; [congruence | auto]].
Qed.

Lemma filterM_defined (p : A -> option bool) (l r : list A) :
  filterM p l = Some r -> forall x, In x l -> is_Some (p x).
Proof.
  revert r; induction l as [|x l IH]; intros r H y []; cbn in H.
  - subst y. destruct (p x); [eauto | discriminate H].
  - destruct (p x); [|discriminate H]. cbn in H.
    destruct (filterM p l) as [rest|]; [|discriminate H]. eauto.
Qed.

Lemma filterM_total (p : A -> option bool) (l : list A) :
  (forall x, In x l -> is_Some (p x)) -> is_Some (filterM p l).
Proof.
  induction l as [|x l IH]; intros H; cbn; [eauto|].
  destruct (H x (or_introl eq_refl)) as [b ->]. cbn.
  destruct IH as [rest ->]; [intros y Hy; apply H; now right|]. cbn. eauto.
Qed.

Lemma filter_sublist (f : A -> bool) (l : list A) : List.filter f l `sublist_of` l.
Proof.
  induction l as [|x l IH]; cbn; [constructor|].
  destruct (f x); now constructor.
Qed.

Lemma sublist_filter_mono (f : A -> bool) (l1 l2 : list A) :
  l1 `sublist_of` l2 -> List.filter f l1 `sublist_of` l2.
Proof. intros H. etransitivity; [apply filter_sublist | exact H]. Qed.

Variable key : A -> Z.

Lemma insertDesc_perm (x : A) (l : list A) : insertDesc key x l ≡ₚ x :: l.
Proof.
  induction l as [|y l IH]; cbn; [reflexivity|].
  destruct (key x <? key y); [|reflexivity].
  rewrite IH. apply Permutation_swap.
Qed.

Lemma sortDesc_perm (l : list A) : sortDesc key l ≡ₚ l.
Proof.
  induction l as [|x l IH]; cbn; [reflexivity|].
  now rewrite insertDesc_perm, IH.
Qed.

Lemma insertDesc_sorted (x : A) (l : list A) :
  Sorted (fun a b => key b <= key a) l ->
  Sorted (fun a b => key b <= key a) (insertDesc key x l).
Proof.
  induction 1 as [|y l Hs IH Hhd]; cbn; [repeat constructor|].
  destruct (key x <? key y) eqn:E.
  - apply Z.ltb_lt in E. constructor; [exact IH|].
    destruct l as [|z l]; cbn.
    + constructor. lia.
    + inversion Hhd; subst. destruct (key x <? key z); constructor; lia.
  - apply Z.ltb_ge in E. constructor; [now constructor|]. now constructor.
Qed.

Lemma sortDesc_sorted (l : list A) : Sorted (fun a b => key b <= key a) (sortDesc key l).
Proof.
  induction l as [|x l IH]; cbn; [constructor|]. now apply insertDesc_sorted.
Qed.

(** Elements with equal keys stay in the order they had. *)
Lemma insertDesc_stable (n : Z) (x : A) (l : list A) :
  List.filter (fun a => key a =? n) (insertDesc key x l)
  = List.filter (fun a => key a =? n) (x :: l).
Proof.
  induction l as [|y l IH]; [reflexivity|]. cbn [insertDesc].
  destruct (key x <? key y) eqn:E; [|reflexivity].
  apply Z.ltb_lt in E. cbn [List.filter] in *. rewrite IH.
  destruct (key x =? n) eqn:Ex, (key y =? n) eqn:Ey; try reflexivity.
  apply Z.eqb_eq in Ex, Ey. lia.
Qed.

Lemma sortDesc_stable (n : Z) (l : list A) :
  List.filter (fun a => key a =? n) (sortDesc key l)
  = List.filter (fun a => key a =? n) l.
Proof.
  induction l as [|x l IH]; [reflexivity|]. cbn [sortDesc].
  rewrite insertDesc_stable. cbn. now rewrite IH.
Qed.

End ListFacts.

Section ChecksViewFacts.

Variable toLowerCase : string -> string.
Variable weekKeyOfDate : JsValue -> option string.

(** The checks left after the filters, before sorting. *)
Lemma filteredChecks_kept (sel week cb : option string) (text : string)
    (checks : list CheckItem.t) (map : gmap string JsValue) (l : list CheckItem.t) :
  truthyStr sel = true ->
  filteredChecks toLowerCase weekKeyOfDate sel week cb text false checks map = Some l ->
  exists kept,
    l = sortDesc checkNumberOrZero kept
    /\ kept `sublist_of` checks
    /\ forall c,
         (In c kept <->
          In c checks
          /\ Some (CheckItem.companyId c) = sel
          /\ (truthyStr week = true -> weekKeyOfDate (CheckItem.date c) = week)
          /\ (truthyStr cb = true -> CheckItem.createdBy c = cb)
          /\ (nonEmpty text = true -> searchMatch toLowerCase text map c = Some true))
         /\ (In c checks ->
             Some (CheckItem.companyId c) = sel ->
             (truthyStr week = true -> weekKeyOfDate (CheckItem.date c) = week) ->
             (truthyStr cb = true -> CheckItem.createdBy c = cb) ->
             nonEmpty text = true ->
             is_Some (searchMatch toLowerCase text map c)).
Proof.
  intros Hsel H. unfold filteredChecks in H. rewrite Hsel in H. cbn in H.
  set (f1 := List.filter
               (fun c => bool_decide (Some (CheckItem.companyId c) = sel)) checks) in *.
  assert (f1 `sublist_of` checks) as S1 by apply filter_sublist.
  assert (forall c, In c f1 <-> In c checks /\ Some (CheckItem.companyId c) = sel) as I1.
  { intros c. subst f1. rewrite List.filter_In, bool_decide_eq_true. tauto. }
  clearbody f1.
  assert (exists f2,
            (if truthyStr week then filterM (inWeek weekKeyOfDate (default "" week)) f1
             else Some f1) = Some f2
            /\ f2 `sublist_of` f1
            /\ forall c, In c f2 <->
                 In c f1 /\ (truthyStr week = true -> weekKeyOfDate (CheckItem.date c) = week))
    as (f2 & E2 & S2 & I2).
  { destruct (truthyStr week) eqn:Hw.
    - destruct (filterM (inWeek weekKeyOfDate (default "" week)) f1) as [f2|] eqn:E;
        [|discriminate H].
      exists f2. split; [reflexivity|]. destruct (filterM_Some _ _ _ E) as [Hs Hi].
      split; [exact Hs|]. intros c. rewrite Hi. unfold inWeek.
      destruct week as [w|]; [|discriminate Hw]. cbn.
      destruct (weekKeyOfDate (CheckItem.date c)) as [k|]; cbn.
      + split; [intros [? [= E']]; apply bool_decide_eq_true in E'; split; auto; congruence|].
        intros [? E']. split; [assumption|]. specialize (E' eq_refl).
        injection E' as ->. now rewrite bool_decide_eq_true_2.
      + split; [intros [? [=]] | intros [? E']; specialize (E' eq_refl); discriminate E'].
    - exists f1. split; [reflexivity|]. split; [reflexivity|].
      intros c. split; [intros ?; split; [assumption | discriminate] | tauto]. }
  rewrite E2 in H. cbn in H.
  set (f3 := if truthyStr cb
             then List.filter (fun c => bool_decide (CheckItem.createdBy c = cb)) f2
             else f2) in *.
  assert (f3 `sublist_of` f2) as S3.
  { subst f3. destruct (truthyStr cb); [apply filter_sublist | reflexivity]. }
  assert (forall c, In c f3 <->
            In c f2 /\ (truthyStr cb = true -> CheckItem.createdBy c = cb)) as I3.
  { intros c. subst f3. destruct (truthyStr cb).
    - rewrite List.filter_In, bool_decide_eq_true. split; [intros [? ?]; auto|].
      intros [? E]. auto.
    - split; [intros ?; split; [assumption | discriminate] | tauto]. }
  clearbody f3.
  assert (exists f4,
            (if nonEmpty text then filterM (searchMatch toLowerCase text map) f3
             else Some f3) = Some f4
            /\ f4 `sublist_of` f3
            /\ (forall c, In c f4 <->
                 In c f3
                 /\ (nonEmpty text = true -> searchMatch toLowerCase text map c = Some true))
            /\ (forall c, In c f3 -> nonEmpty text = true ->
                   is_Some (searchMatch toLowerCase text map c)))
    as (f4 & E4 & S4 & I4 & D4).
  { destruct (nonEmpty text) eqn:Ht.
    - destruct (filterM (searchMatch toLowerCase text map) f3) as [f4|] eqn:E;
        [|discriminate H].
      exists f4. split; [reflexivity|]. destruct (filterM_Some _ _ _ E) as [Hs Hi].
      split; [exact Hs|]. split.
      + intros c. rewrite Hi. split; [intros [? ?]; auto|].
        intros [? E']. auto.
      + intros c Hc _. exact (filterM_defined _ _ _ E c Hc).
    - exists f3. split; [reflexivity|]. split; [reflexivity|]. split.
      + intros c. split; [intros ?; split; [assumption | discriminate] | tauto].
      + discriminate. }
  rewrite E4 in H. cbn in H. injection H as <-.
  exists f4. split; [reflexivity|]. split.
  - etransitivity; [exact S4|]. etransitivity; [exact S3|].
    etransitivity; [exact S2 | exact S1].
  - intros c. split.
    + rewrite I4, I3, I2, I1. tauto.
    + intros Hc Hco Hw Hcb Ht. apply D4; [|exact Ht].
      apply I3. split; [|exact Hcb]. apply I2. split; [|exact Hw].
      apply I1. now split.
Qed.

(** When the search callback returns, it returns true exactly for a check
    whose employee name, or whose creator's name in the user map, contains
    the text, both in lower case. *)
Lemma searchMatch_true (text : string) (map : gmap string JsValue) (c : CheckItem.t) :
  is_Some (searchMatch toLowerCase text map c) ->
  searchMatch toLowerCase text map c = Some true <->
  (exists name,
     CheckItem.employeeName c = Some name
     /\ includes (toLowerCase name) (toLowerCase text) = true)
  \/ (exists uid name,
        CheckItem.createdBy c = Some uid /\ nonEmpty uid = true
        /\ map !! uid = Some (JString name)
        /\ includes (toLowerCase name) (toLowerCase text) = true).
Proof.
  unfold searchMatch.
  destruct (CheckItem.employeeName c) as [name|] eqn:En,
    (CheckItem.createdBy c) as [uid|] eqn:Ec; cbn;
    [ destruct (nonEmpty uid) eqn:Hu; cbn;
      [ destruct (map !! uid) as [[| |b|n|s]|] eqn:Hv; cbn;
        [ | | | | | destruct (inheritedKey uid); cbn ] | ]
    |
    | destruct (nonEmpty uid) eqn:Hu; cbn;
      [ destruct (map !! uid) as [[| |b|n|s]|] eqn:Hv; cbn;
        [ | | | | | destruct (inheritedKey uid); cbn ] | ]
    | ];
    intros [r Hr]; try discriminate Hr; clear Hr;
    rewrite ?orb_false_r;
    (split;
     [ intros [= E]; try discriminate E; rewrite ?orb_true_iff in E;
       first [ destruct E as [E|E]; [left|right]; solve [eauto 10]
             | left; solve [eauto 10]
             | right; solve [eauto 10] ]
     | intros [(? & Hn & E) | (? & ? & Hc & Hne & Hm & E)]; simplify_eq;
       try congruence; rewrite ?E, ?orb_true_r; reflexivity ]).
Qed.

End ChecksViewFacts.

Lemma In_sortDesc {A : Type} (key : A -> Z) (l : list A) (x : A) :
  In x (sortDesc key l) <-> In x l.
Proof.
  split; apply Permutation_in; [apply sortDesc_perm | symmetry; apply sortDesc_perm].
Qed.

(** X26: the view shows no check while no company is selected or the
    checks are loading.  Otherwise, when computing the shown checks does
    not throw, a check is shown exactly when it is among the hook's
    records, belongs to the selected company and passes each filter that is
    set: its week key is the selected week; its creator is the selected
    creator; and its employee name, or the name the user map holds for its
    creator, contains the search text, both taken in lower case. *)
Theorem filteredChecks_contents (toLowerCase : string -> string)
    (weekKeyOfDate : JsValue -> option string)
    (sel week cb : option string) (text : string) (loading : bool)
    (checks : list CheckItem.t) (map : gmap string JsValue) :
  (truthyStr sel = false \/ loading = true ->
   filteredChecks toLowerCase weekKeyOfDate sel week cb text loading checks map = Some [])
  /\ forall l,
       filteredChecks toLowerCase weekKeyOfDate sel week cb text loading checks map
         = Some l ->
       forall c,
         In c l <->
         truthyStr sel = true /\ loading = false
         /\ In c checks
         /\ Some (CheckItem.companyId c) = sel
         /\ (truthyStr week = true -> weekKeyOfDate (CheckItem.date c) = week)
         /\ (truthyStr cb = true -> CheckItem.createdBy c = cb)
         /\ (nonEmpty text = true ->
             (exists name,
                CheckItem.employeeName c = Some name
                /\ includes (toLowerCase name) (toLowerCase text) = true)
             \/ (exists uid name,
                   CheckItem.createdBy c = Some uid /\ nonEmpty uid = true
                   /\ map !! uid = Some (JString name)
                   /\ includes (toLowerCase name) (toLowerCase text) = true)).
Proof.
  split.
  - intros [H | H]; unfold filteredChecks; rewrite H; [reflexivity|].
    now rewrite orb_true_r.
  - intros l H c. destruct (truthyStr sel) eqn:Hsel, loading eqn:Hl;
      try (unfold filteredChecks in H; rewrite Hsel in H; cbn in H;
           injection H as <-; cbn; split; [tauto | intros (? & ? & _); discriminate]).
    destruct (filteredChecks_kept _ _ _ _ _ _ _ _ _ Hsel H) as (kept & -> & _ & Hkept).
    destruct (Hkept c) as [Hin Hdef]. rewrite In_sortDesc, Hin. split.
    + intros (Hc & Hco & Hw & Hcb & Ht).
      repeat (split; [first [assumption | reflexivity]|]).
      intros Hne. apply searchMatch_true; [|now apply Ht].
      now apply Hdef.
    + intros (_ & _ & Hc & Hco & Hw & Hcb & Ht).
      repeat (split; [assumption|]).
      intros Hne. apply searchMatch_true; [|now apply Ht].
      now apply Hdef.
Qed.

Lemma filteredChecks_contents_witness :
  let check (i company employee by_ : string) (n : Z) :=
    {| CheckItem.id := i; CheckItem.companyId := company;
       CheckItem.employeeName := Some employee; CheckItem.createdBy := Some by_;
       CheckItem.checkNumber := Some n; CheckItem.date := JUndefined;
       CheckItem.other := [] |} in
  let checks := [check "c1" "A" "alan" "u2" 7; check "c2" "A" "bob" "u1" 9;
                 check "c3" "B" "alan" "u1" 8; check "c4" "A" "bob" "u2" 5] in
  let map := userMap [[("id", JString "u1"); ("username", JString "sal")];
                      [("id", JString "u2"); ("email", JString "bo@x.io")]] in
  let shown := [check "c2" "A" "bob" "u1" 9; check "c1" "A" "alan" "u2" 7] in
  filteredChecks (fun s => s) (fun _ => None) (Some "A") None None "al" false checks map
  = Some shown
  /\ In (check "c2" "A" "bob" "u1" 9) shown
  /\ ~ In (check "c3" "B" "alan" "u1" 8) shown
  /\ ~ In (check "c4" "A" "bob" "u2" 5) shown.
Proof.
  intros check checks map shown.
  assert (filteredChecks (fun s => s) (fun _ => None) (Some "A") None None "al" false
            checks map = Some shown) as Hshown by reflexivity.
  pose proof (proj2 (filteredChecks_contents (fun s => s) (fun _ => None) (Some "A")
                       None None "al" false checks map) shown Hshown) as Hin.
  split; [exact Hshown|]. split; [|split].
  - apply Hin. split; [reflexivity|]. split; [reflexivity|].
    split; [right; left; reflexivity|]. split; [reflexivity|].
    split; [discriminate|]. split; [discriminate|].
    intros _. right. exists "u1", "sal".
    split; [reflexivity|]. split; [reflexivity|].
    split; [vm_compute; reflexivity | reflexivity].
  - intros H. apply Hin in H as (_ & _ & _ & H & _). discriminate H.
  - intros H. apply Hin in H as (_ & _ & _ & _ & _ & _ & H).
    destruct (H eq_refl) as [(name & [= <-] & E) | (uid & name & [= <-] & _ & Hm & E)].
    + vm_compute in E. discriminate E.
    + vm_compute in Hm. injection Hm as <-. vm_compute in E. discriminate E.
Defined.

(** X27: the shown checks are in descending order of check number (a
    missing number counts as 0), none is shown more often than it occurs
    in the hook's records, and checks with the same number keep the order
    they have there. *)
Theorem filteredChecks_order (toLowerCase : string -> string)
    (weekKeyOfDate : JsValue -> option string)
    (sel week cb : option string) (text : string) (loading : bool)
    (checks : list CheckItem.t) (map : gmap string JsValue) (l : list CheckItem.t) :
  filteredChecks toLowerCase weekKeyOfDate sel week cb text loading checks map = Some l ->
  Sorted (fun a b => checkNumberOrZero b <= checkNumberOrZero a) l
  /\ l ⊆+ checks
  /\ forall n, List.filter (fun c => checkNumberOrZero c =? n) l `sublist_of` checks.
Proof.
  intros H. destruct (truthyStr sel) eqn:Hsel, loading eqn:Hl;
    try (unfold filteredChecks in H; rewrite Hsel in H; cbn in H; injection H as <-;
         split; [constructor|]; split; [apply submseteq_nil_l|];
         intros n; apply sublist_nil_l).
  destruct (filteredChecks_kept _ _ _ _ _ _ _ _ _ Hsel H) as (kept & -> & Hsub & _).
  split; [apply sortDesc_sorted|]. split.
  - etransitivity; [apply Permutation_submseteq, sortDesc_perm|].
    now apply sublist_submseteq.
  - intros n. rewrite sortDesc_stable. now apply sublist_filter_mono.
Qed.

Lemma filteredChecks_order_witness :
  let c (i : string) (n : option Z) :=
    {| CheckItem.id := i; CheckItem.companyId := "A"; CheckItem.employeeName := None;
       CheckItem.createdBy := None; CheckItem.checkNumber := n;
       CheckItem.date := JUndefined; CheckItem.other := [] |} in
  filteredChecks (fun s => s) (fun _ => None) (Some "A") None None "" false
    [c "c1" (Some 3); c "c2" None; c "c3" (Some 9); c "c4" (Some 3)] ∅
  = Some [c "c3" (Some 9); c "c1" (Some 3); c "c4" (Some 3); c "c2" None]
  /\ Sorted (fun a b => checkNumberOrZero b <= checkNumberOrZero a)
       [c "c3" (Some 9); c "c1" (Some 3); c "c4" (Some 3); c "c2" None].
Proof.
  intros c. split; [reflexivity|].
  exact (proj1 (filteredChecks_order (fun s => s) (fun _ => None) (Some "A") None None ""
                  false [c "c1" (Some 3); c "c2" None; c "c3" (Some 9); c "c4" (Some 3)] ∅
                  _ eq_refl)).
Defined.

(** X28: computing the shown checks cannot throw when the week key of
    every record can be computed (needed only while a week is selected)
    and, while a search text is set, every name in the user map is a string
    and no creator id without an entry of its own in the user map is the
    name of a member of [Object.prototype].  A name that is not a string,
    or such a creator id, does make the search throw. *)
Theorem filteredChecks_does_not_throw (toLowerCase : string -> string)
    (weekKeyOfDate : JsValue -> option string)
    (sel week cb : option string) (text : string) (loading : bool)
    (checks : list CheckItem.t) (map : gmap string JsValue) :
  (truthyStr week = true ->
   forall c, In c checks -> is_Some (weekKeyOfDate (CheckItem.date c))) ->
  (nonEmpty text = true -> forall k v, map !! k = Some v -> exists s, v = JString s) ->
  (nonEmpty text = true ->
   forall c uid,
     In c checks -> CheckItem.createdBy c = Some uid -> map !! uid = None ->
     uid ∉ objectPrototypeKeys) ->
  is_Some (filteredChecks toLowerCase weekKeyOfDate sel week cb text loading checks map).
Proof.
  intros Hweek Hmap Hproto. unfold filteredChecks.
  destruct (negb (truthyStr sel) || loading); [eauto|].
  set (f1 := List.filter _ checks).
  assert (forall c, In c f1 -> In c checks) as I1.
  { intros c Hc. subst f1. apply List.filter_In in Hc. tauto. }
  clearbody f1.
  assert (exists f2, (if truthyStr week
                      then filterM (inWeek weekKeyOfDate (default "" week)) f1
                      else Some f1) = Some f2
                     /\ forall c, In c f2 -> In c f1) as (f2 & -> & I2).
  { destruct (truthyStr week) eqn:Hw; [|eauto].
    destruct (filterM_total (inWeek weekKeyOfDate (default "" week)) f1) as [f2 E].
    - intros c Hc. unfold inWeek.
      destruct (Hweek eq_refl c (I1 c Hc)) as [k ->]. cbn. eauto.
    - exists f2. split; [exact E|]. intros c Hc.
      now apply (proj2 (filterM_Some _ _ _ E)) in Hc. }
  cbn. set (f3 := if truthyStr cb then _ else f2).
  assert (forall c, In c f3 -> In c f2) as I3.
  { intros c Hc. subst f3. destruct (truthyStr cb); [|exact Hc].
    apply List.filter_In in Hc. tauto. }
  clearbody f3.
  assert (exists f4, (if nonEmpty text
                      then filterM (searchMatch toLowerCase text map) f3
                      else Some f3) = Some f4) as [f4 ->].
  { destruct (nonEmpty text) eqn:Ht; [|eauto].
    apply filterM_total. intros c Hc. unfold searchMatch.
    destruct (CheckItem.createdBy c) as [uid|] eqn:Hby; cbn; [|eauto].
    destruct (nonEmpty uid); cbn; [|eauto].
    destruct (map !! uid) as [v|] eqn:Hv; cbn.
    - destruct (Hmap eq_refl uid v Hv) as [s ->]. cbn. eauto.
    - unfold inheritedKey.
      rewrite bool_decide_eq_false_2; [cbn; eauto|].
      apply (Hproto eq_refl c uid); auto. }
  cbn. eauto.
Qed.

Lemma filteredChecks_does_not_throw_witness :
  is_Some (filteredChecks (fun s => s) (fun _ => None) (Some "A") None None "al" false
             [{| CheckItem.id := "c1"; CheckItem.companyId := "A";
                 CheckItem.employeeName := Some "al"; CheckItem.createdBy := Some "u1";
                 CheckItem.checkNumber := Some 7; CheckItem.date := JUndefined;
                 CheckItem.other := [] |};
              {| CheckItem.id := "c2"; CheckItem.companyId := "A";
                 CheckItem.employeeName := None; CheckItem.createdBy := Some "u9";
                 CheckItem.checkNumber := None; CheckItem.date := JUndefined;
                 CheckItem.other := [] |}]
             (userMap [[("id", JString "u1"); ("username", JString "sal")]])).
Proof.
  apply filteredChecks_does_not_throw.
  - discriminate.
  - intros _ k v Hk.
    change (userMap [[("id", JString "u1"); ("username", JString "sal")]])
      with (<["u1" := JString "sal"]> (∅ : gmap string JsValue)) in Hk.
    destruct (decide ("u1" = k)) as [<-|Hne].
    + rewrite lookup_insert_eq in Hk. injection Hk as <-. eauto.
    + rewrite lookup_insert_ne, lookup_empty in Hk by assumption. discriminate Hk.
  - intros _ c uid [<- | [<- | []]] [= <-] Hm.
    + vm_compute in Hm. discriminate Hm.
    + intros Hin.
      assert (inheritedKey "u9" = true) as E
        by (unfold inheritedKey; now apply bool_decide_eq_true_2).
      vm_compute in E. discriminate E.
Defined.

(** A user whose name is a number makes the search throw. *)
Example filteredChecks_throws :
  filteredChecks (fun s => s) (fun _ => None) (Some "A") None None "al" false
    [{| CheckItem.id := "c1"; CheckItem.companyId := "A";
        CheckItem.employeeName := Some "al"; CheckItem.createdBy := Some "u1";
        CheckItem.checkNumber := Some 7; CheckItem.date := JUndefined;
        CheckItem.other := [] |}]
    (userMap [[("id", JString "u1"); ("username", JNumber 42)]])
  = None.
Proof. reflexivity. Qed.

(** So does a check whose creator id names a member of [Object.prototype]:
    the map answers with the inherited function. *)
Example filteredChecks_throws_on_inherited_key :
  filteredChecks (fun s => s) (fun _ => None) (Some "A") None None "al" false
    [{| CheckItem.id := "c1"; CheckItem.companyId := "A";
        CheckItem.employeeName := Some "al"; CheckItem.createdBy := Some "constructor";
        CheckItem.checkNumber := Some 7; CheckItem.date := JUndefined;
        CheckItem.other := [] |}]
    (userMap [[("id", JString "u1"); ("username", JString "sal")]])
  = None.
Proof. reflexivity. Qed.

Section GroupFacts.

Variable weekKeyOfDate : JsValue -> option string.

Lemma checksByWeek_fold (l : list CheckItem.t) (g0 g : gmap string (list CheckItem.t)) :
  fold_left
    (fun (acc : option (gmap string (list CheckItem.t))) c =>
       grouped ← acc;
       key ← weekKeyOfDate (CheckItem.date c);
       Some (<[key := (default [] (grouped !! key) ++ [c])%list]> grouped))
    l (Some g0) = Some g ->
  forall k,
    default [] (g !! k)
    = (default [] (g0 !! k)
       ++ List.filter (fun c => bool_decide (weekKeyOfDate (CheckItem.date c) = Some k)) l)%list
    /\ (g !! k = None ->
        g0 !! k = None
        /\ List.filter (fun c => bool_decide (weekKeyOfDate (CheckItem.date c) = Some k)) l
           = []).
Proof.
  revert g0; induction l as [|c l IH]; intros g0 H k.
  - cbn in H. injection H as <-. cbn. now rewrite List.app_nil_r.
  - cbn [fold_left] in H. cbn [mbind option_bind] in H.
    destruct (weekKeyOfDate (CheckItem.date c)) as [key|] eqn:Hkey; cbn in H.
    + destruct (IH _ H k) as [Hd Hn]. cbn [List.filter]. rewrite Hkey.
      destruct (decide (key = k)) as [->|Hne].
      * rewrite bool_decide_eq_true_2 by reflexivity.
        rewrite lookup_insert_eq in Hd, Hn. cbn in Hd.
        split; [now rewrite Hd, <- List.app_assoc|].
        intros E. destruct (Hn E) as [[=] _].
      * rewrite bool_decide_eq_false_2 by congruence.
        rewrite lookup_insert_ne in Hd, Hn by assumption. auto.
    + exfalso. clear -H. induction l as [|c' l IH']; cbn in H; [discriminate H | auto].
Qed.

End GroupFacts.

(** X29: grouping by week puts each check into the list of its own week
    key and nowhere else, in the order of the input; no group is empty; and
    the grouping cannot throw when every week key can be computed. *)
Theorem checksByWeek_groups (weekKeyOfDate : JsValue -> option string)
    (filtered : list CheckItem.t) :
  (forall g k,
     checksByWeek weekKeyOfDate filtered = Some g ->
     (forall grp, g !! k = Some grp ->
        grp <> []
        /\ grp = List.filter
                   (fun c => bool_decide (weekKeyOfDate (CheckItem.date c) = Some k))
                   filtered)
     /\ (g !! k = None ->
         forall c, In c filtered -> weekKeyOfDate (CheckItem.date c) <> Some k))
  /\ ((forall c, In c filtered -> is_Some (weekKeyOfDate (CheckItem.date c))) ->
      is_Some (checksByWeek weekKeyOfDate filtered)).
Proof.
  split.
  - intros g k H. unfold checksByWeek in H.
    assert (forall g0 g',
              fold_left
                (fun (acc : option (gmap string (list CheckItem.t))) c =>
                   grouped ← acc;
                   key ← weekKeyOfDate (CheckItem.date c);
                   Some (<[key := (default [] (grouped !! key) ++ [c])%list]> grouped))
                filtered (Some g0) = Some g' ->
              (forall k' grp, g0 !! k' = Some grp -> grp <> []) ->
              forall k' grp, g' !! k' = Some grp -> grp <> []) as Hne.
    { clear. induction filtered as [|c l IH]; intros g0 g' H Hg0 k' grp Hk'.
      - cbn in H. injection H as <-. eauto.
      - cbn [fold_left] in H. cbn [mbind option_bind] in H.
        destruct (weekKeyOfDate (CheckItem.date c)) as [key|]; cbn in H.
        + apply (IH _ _ H) with (k' := k'); [|exact Hk'].
          intros k2 grp2 Hk2. destruct (decide (key = k2)) as [->|Hne].
          * rewrite lookup_insert_eq in Hk2. injection Hk2 as <-.
            now destruct (default [] (g0 !! k2)).
          * rewrite lookup_insert_ne in Hk2 by assumption. eauto.
        + exfalso. clear -H. induction l as [|c' l IH']; cbn in H; [discriminate H | auto]. }
    destruct (checksByWeek_fold weekKeyOfDate filtered ∅ g H k) as [Hd Hn].
    rewrite lookup_empty in Hd. cbn in Hd. split.
    + intros grp Hg. rewrite Hg in Hd. cbn in Hd. split; [|exact Hd].
      apply (Hne ∅ g H) with (k' := k); [|exact Hg].
      intros k' grp'. now rewrite lookup_empty.
    + intros Hg c Hc E. destruct (Hn Hg) as [_ Hnil].
      assert (In c (List.filter
                      (fun c => bool_decide (weekKeyOfDate (CheckItem.date c) = Some k))
                      filtered)) as Hin.
      { apply List.filter_In. split; [exact Hc|]. now apply bool_decide_eq_true_2. }
      rewrite Hnil in Hin. destruct Hin.
  - unfold checksByWeek. generalize (∅ : gmap string (list CheckItem.t)).
    induction filtered as [|c l IH]; intros g0 Hall; cbn [fold_left]; [eauto|].
    cbn [mbind option_bind].
    destruct (Hall c (or_introl eq_refl)) as [key ->]. cbn.
    apply IH. intros c' Hc'. apply Hall. now right.
Qed.

Lemma checksByWeek_groups_witness :
  let c (i : string) (d : string) :=
    {| CheckItem.id := i; CheckItem.companyId := "A"; CheckItem.employeeName := None;
       CheckItem.createdBy := None; CheckItem.checkNumber := None;
       CheckItem.date := JString d; CheckItem.other := [] |} in
  let week (v : JsValue) := match v with JString s => Some s | _ => None end in
  is_Some (checksByWeek week [c "c1" "2024-01-07"; c "c2" "2024-01-14"; c "c3" "2024-01-07"]).
Proof.
  intros c week.
  apply (proj2 (checksByWeek_groups week _)).
  intros x [<- | [<- | [<- | []]]]; cbn; eauto.
Defined.

(** X30: "Mark as Reviewed" writes [reviewed: true] to the check and, once
    the write has succeeded, refetches the checks past the cache and closes
    the dialog; when the write fails the handler throws, nothing is
    refetched and the dialog stays as it is. *)
Theorem markAsReviewed_refetches (r : Closure) (check : CheckItem.t)
    (w : World) (d : DialogState) :
  let write := EvUpdateDoc "checks" (CheckItem.id check) [("reviewed", JBool true)] in
  (forall t,
     updateDoc_answer (remote w) "checks" (CheckItem.id check)
       [("reviewed", JBool true)] (clock w) = (t, None) ->
     fst (markAsReviewed r check (w, d)) = Returned tt
     /\ trace (fst (snd (markAsReviewed r check (w, d))))
        = (trace w ++ [write; EvGetDocs (buildQuery (collectionName r) (filters r))])%list
     /\ snd (snd (markAsReviewed r check (w, d)))
        = {| openDialog := false; selectedCheck := None |})
  /\ (forall t err,
        updateDoc_answer (remote w) "checks" (CheckItem.id check)
          [("reviewed", JBool true)] (clock w) = (t, Some err) ->
        markAsReviewed r check (w, d)
        = (Thrown err,
           ({| hook := hook w; clock := t; remote := remote w;
               trace := trace w ++ [write] |}, d))).
Proof.
  intros write. split.
  - intros t Hans. unfold markAsReviewed, updateDoc. cbn. rewrite Hans. cbn.
    split; [reflexivity|]. split; [|reflexivity].
    unfold refetch. rewrite fetchData_trace, cacheHit_forced. cbn.
    now rewrite <- List.app_assoc.
  - intros t err Hans. unfold markAsReviewed, updateDoc. cbn. rewrite Hans. reflexivity.
Qed.

Lemma markAsReviewed_refetches_witness :
  trace (fst (snd (markAsReviewed
                     (render "checks" (checksFilters (Some "A")) (checksOptions (Some "A"))
                        initialState)
                     {| CheckItem.id := "c1"; CheckItem.companyId := "A";
                        CheckItem.employeeName := None; CheckItem.createdBy := None;
                        CheckItem.checkNumber := None; CheckItem.date := JUndefined;
                        CheckItem.other := [] |}
                     (worldAt 500 healthyRemote initialState,
                      {| openDialog := true; selectedCheck := None |}))))
  = [EvUpdateDoc "checks" "c1" [("reviewed", JBool true)];
     EvGetDocs (buildQuery "checks" [("companyId", JString "A")])].
Proof.
  exact (proj1 (proj2 (proj1 (markAsReviewed_refetches
                                (render "checks" (checksFilters (Some "A"))
                                   (checksOptions (Some "A")) initialState)
                                _ (worldAt 500 healthyRemote initialState)
                                {| openDialog := true; selectedCheck := None |})
                         580 eq_refl))).
Defined.
